(** * COCO ground-truth builders: a shallow embedding and its properties

    The development follows the three scripts of the repository:
    - [detection/build_detection_gt.py]   (module [Detection]),
    - [segmentation/build_instance_gt.py] (module [Segmentation]),
    - [panoptic/build_panoptic_gt.py]     (module [Panoptic]).

    Python values are modelled as follows.  JSON integers are [Z]; the
    coordinates of a bbox are JSON floats, that is IEEE binary64 numbers
    ([spec_float] at precision 53 and maximal exponent 1024); [dict]s
    with integer keys are [gmap Z _];
    NumPy arrays are a shape together with nested rows; a raised exception
    is the [Raise] constructor of [result]. *)

From Stdlib Require Import ZArith Lia List Permutation Sorted.
From Stdlib Require Import Floats.SpecFloat.
From Stdlib Require Import Ascii String.
From stdpp Require Import gmap list strings sorting pretty.

Set Default Proof Using "Type".

(** ** Exceptions and the error monad

    The exceptions that the scripts and the built-in operations they use
    raise have a constructor each; [OtherError] stands for an exception
    of another class, named by the class, that a library call raises
    (an unreadable image file, for one). *)

Inductive py_error : Type :=
  | KeyError (key : Z)
  | ValueError
  | OverflowError
  | IndexError
  | MemoryError
  | FileNotFoundError (path : string)
  | OtherError (class_name : string).

Inductive result (A : Type) : Type :=
  | Ok (a : A)
  | Raise (e : py_error).
Arguments Ok {A} a.
Arguments Raise {A} e.

Definition bind {A B} (r : result A) (k : A → result B) : result B :=
  match r with
  | Ok a => k a
  | Raise e => Raise e
  end.

Notation "x ←? r ; k" := (bind r (λ x, k))
  (at level 100, r at next level, k at level 200, right associativity,
   format "x  ←?  r ;  '/' k").

Definition is_ok {A} (r : result A) : Prop := ∃ a, r = Ok a.

(** [d[k]] on a Python dict with integer keys. *)
Definition dict_get {V} (d : gmap Z V) (k : Z) : result V :=
  match d !! k with
  | Some v => Ok v
  | None => Raise (KeyError k)
  end.

(** [{key(x): val(x) for x in xs}]: entries are stored left to right, a
    later entry with the same key replaces the earlier one. *)
Definition dict_comprehension {A V} (key : A → Z) (val : A → V)
    (xs : list A) : gmap Z V :=
  foldl (λ d x, <[key x := val x]> d) ∅ xs.

(** ** [sorted(xs, key=...)] and [enumerate] *)

(** [sorted] is stable: among equal keys the input order is kept.  The
    insertion below places [x] in front of the first element whose key is
    not smaller, so that folding from the right keeps earlier elements
    first. *)
Fixpoint insert_by_key {A} (key : A → Z) (x : A) (l : list A) : list A :=
  match l with
  | [] => [x]
  | y :: l' =>
      if (key x <=? key y)%Z then x :: y :: l'
      else y :: insert_by_key key x l'
  end.

Definition py_sorted {A} (key : A → Z) (l : list A) : list A :=
  foldr (insert_by_key key) [] l.

Definition enumerate {A} (l : list A) : list (nat * A) :=
  zip (seq 0 (length l)) l.

(** ** Categories and the category-id mapping *)

Record category : Type := Category {
  cat_id : Z;
  cat_name : string;
}.

(** The mapping that each of the three [build_category_id_mapping]
    functions builds from its category list. *)
Definition category_mapping_of (cats : list category) : gmap Z nat :=
  let cats_sorted := py_sorted cat_id cats in
  dict_comprehension (λ p, cat_id p.2) (λ p, p.1) (enumerate cats_sorted).

(** ** NumPy arrays

    A two-dimensional array carries its shape (NumPy keeps it even when
    a dimension is zero) and its rows; [nd_wf] states that the rows agree
    with the shape.  A three-dimensional array has a list of channel
    values in every cell. *)

Record ndarray : Type := NdArray {
  nd_shape : nat * nat;
  nd_rows : list (list Z);
}.

Record ndarray3 : Type := NdArray3 {
  nd3_shape : nat * nat * nat;
  nd3_rows : list (list (list Z));
}.

Definition nd_wf (a : ndarray) : Prop :=
  length (nd_rows a) = (nd_shape a).1 ∧
  Forall (λ row, length row = (nd_shape a).2) (nd_rows a).

Definition nd3_wf (a : ndarray3) : Prop :=
  length (nd3_rows a) = (nd3_shape a).1.1 ∧
  Forall (λ row, length row = (nd3_shape a).1.2 ∧
                 Forall (λ px, length px = (nd3_shape a).2) row)
         (nd3_rows a).

(** [a[r, c]] for in-range, non-negative indices. *)
Definition nd_get (a : ndarray) (r c : nat) : option Z :=
  nd_rows a !! r ≫= λ row, row !! c.

Definition nd3_get (a : ndarray3) (r c : nat) : option (list Z) :=
  nd3_rows a !! r ≫= λ row, row !! c.

(** The memory of the machine: [mem n] tells whether a block of [n]
    bytes can be allocated. *)
Definition memory : Type := Z → bool.

(** The largest value of NumPy's index type on a 64-bit platform. *)
Definition intp_max : Z := (2 ^ 63 - 1)%Z.

(** [np.zeros((height, width), dtype=np.uint8)].  A negative dimension,
    a dimension above [intp_max] and a size in bytes above [intp_max] are
    a [ValueError]; a failed allocation is a [MemoryError]. *)
Definition np_zeros (mem : memory) (height width : Z) : result ndarray :=
  if ((height <? 0) || (width <? 0))%Z then Raise ValueError
  else if ((intp_max <? height) || (intp_max <? width))%Z then Raise ValueError
  else if (intp_max <? height * width)%Z then Raise ValueError
  else if negb (mem (height * width)%Z) then Raise MemoryError
  else
    let h := Z.to_nat height in
    let w := Z.to_nat width in
    Ok (NdArray (h, w) (replicate h (replicate w 0%Z))).

(** Bound of a slice [start:stop] along an axis of length [n]: a negative
    bound counts from the end, and the result is clamped to [0, n]. *)
Definition slice_index (n : nat) (i : Z) : nat :=
  if (i <? 0)%Z then Z.to_nat (Z.max 0 (i + Z.of_nat n))
  else Z.to_nat (Z.min i (Z.of_nat n)).

Definition in_slice (n : nat) (start stop : Z) (i : nat) : bool :=
  bool_decide (slice_index n start ≤ i < slice_index n stop).

(** [a[y0:y1, x0:x1] = v], for a value [v] that fits the element type. *)
Definition nd_fill_slice (a : ndarray) (y0 y1 x0 x1 : Z) (v : Z) : ndarray :=
  let '(h, w) := nd_shape a in
  NdArray (h, w)
    (imap (λ r row,
       imap (λ c old,
         if in_slice h y0 y1 r && in_slice w x0 x1 c then v else old) row)
       (nd_rows a)).

(** [(a == v).astype(np.uint8)] *)
Definition nd_eq_scalar (a : ndarray) (v : Z) : ndarray :=
  NdArray (nd_shape a)
    (map (map (λ cell, if (cell =? v)%Z then 1%Z else 0%Z)) (nd_rows a)).

(** Number of cells equal to one (used to state properties only). *)
Definition count_ones (a : ndarray) : nat :=
  sum_list (map (λ row, length (filter (λ cell, cell = 1%Z) row)) (nd_rows a)).

(** ** 64-bit integer arithmetic of NumPy *)

Definition int64_wrap (z : Z) : Z := ((z + 2 ^ 63) mod 2 ^ 64 - 2 ^ 63)%Z.
Definition int64_add (a b : Z) : Z := int64_wrap (a + b).
Definition int64_mul (a b : Z) : Z := int64_wrap (a * b).

(** [color.astype(np.int64)] *)
Definition nd3_astype_int64 (a : ndarray3) : ndarray3 :=
  NdArray3 (nd3_shape a) (map (map (map int64_wrap)) (nd3_rows a)).

(** [color[:, :, k]]: an index past the last axis length is an
    [IndexError]. *)
Definition nd3_channel (a : ndarray3) (k : nat) : result ndarray :=
  let '(h, w, c) := nd3_shape a in
  if decide (k < c) then
    Ok (NdArray (h, w) (map (map (λ px, default 0%Z (px !! k))) (nd3_rows a)))
  else Raise IndexError.

(** [k * a] for a Python integer [k] and an [int64] array. *)
Definition nd_scale_int64 (k : Z) (a : ndarray) : ndarray :=
  NdArray (nd_shape a) (map (map (int64_mul k)) (nd_rows a)).

(** [a + b] for two [int64] arrays of the same shape. *)
Definition nd_add_int64 (a b : ndarray) : ndarray :=
  NdArray (nd_shape a)
    (zip_with (zip_with int64_add) (nd_rows a) (nd_rows b)).

(** ** Python floats and [round]

    A float is a binary64 number.  [x + w] is IEEE addition with rounding
    to nearest, ties to even.  [round(x)] returns the integer nearest to
    the exact value of [x], ties going to the even integer; it raises
    [OverflowError] on an infinity and [ValueError] on a NaN. *)

Definition float_add (x y : spec_float) : spec_float := SFadd 53 1024 x y.

(** The float nearest to the dyadic number [m * 2^e]. *)
Definition float_of_dyadic (m e : Z) : spec_float :=
  binary_normalize 53 1024 m e false.

(** Signed mantissa of a finite float. *)
Definition signed_mantissa (s : bool) (m : positive) : Z :=
  if s then Z.neg m else Z.pos m.

(** Nearest integer to [m * 2^e], ties to even. *)
Definition round_half_even (m e : Z) : Z :=
  if (0 <=? e)%Z then (m * 2 ^ e)%Z
  else
    let d := (2 ^ (- e))%Z in
    let q := (m / d)%Z in
    let r := (m mod d)%Z in
    match (2 * r ?= d)%Z with
    | Lt => q
    | Gt => (q + 1)%Z
    | Eq => if Z.even q then q else (q + 1)%Z
    end.

Definition py_round (x : spec_float) : result Z :=
  match x with
  | S754_zero _ => Ok 0%Z
  | S754_infinity _ => Raise OverflowError
  | S754_nan => Raise ValueError
  | S754_finite s m e => Ok (round_half_even (signed_mantissa s m) e)
  end.

(** ** Records of the annotation files *)

Definition bbox : Type := spec_float * spec_float * spec_float * spec_float.

Inductive segmentation : Type :=
  | Polygons (polys : list (list spec_float))
  | RLE (counts : list Z) (size : Z * Z).

Record image_info : Type := ImageInfo {
  img_id : Z;
  img_width : Z;
  img_height : Z;
}.

Record annotation : Type := Annotation {
  ann_id : Z;
  ann_category_id : Z;
  ann_bbox : bbox;
  ann_segmentation : segmentation;
}.

(** The part of a [pycocotools.coco.COCO] object the scripts use:
    [coco_cats] is [coco.loadCats(coco.getCatIds())], [coco_imgs] backs
    [coco.loadImgs], [coco_img_anns image_id] is
    [coco.loadAnns(coco.getAnnIds(imgIds=[image_id], iscrowd=None))] and
    [coco_annToMask] is [coco.annToMask], which returns the decoded mask
    or raises. *)
Record coco_api : Type := COCO {
  coco_cats : list category;
  coco_imgs : gmap Z image_info;
  coco_img_anns : Z → list annotation;
  coco_annToMask : annotation → result ndarray;
}.

(** One ground-truth entry; the detection view has no ["instance_id"]. *)
Record gt_record : Type := GtRecord {
  instance_id : option Z;
  class_id : nat;
  mask : ndarray;
}.

(** ** detection/build_detection_gt.py *)

Module Detection.

Definition bbox_to_mask (mem : memory) (b : bbox) (height width : Z)
    : result ndarray :=
  let '(x, y, w, h) := b in
  mask ←? np_zeros mem height width;
  x0 ←? py_round x;
  y0 ←? py_round y;
  x1 ←? py_round (float_add x w);
  y1 ←? py_round (float_add y h);
  let x0 := Z.max 0 (Z.min x0 width) in
  let x1 := Z.max 0 (Z.min x1 width) in
  let y0 := Z.max 0 (Z.min y0 height) in
  let y1 := Z.max 0 (Z.min y1 height) in
  Ok (nd_fill_slice mask y0 y1 x0 x1 1).

Definition build_category_id_mapping (coco : coco_api) : gmap Z nat :=
  let cats := coco_cats coco in
  let cats_sorted := py_sorted cat_id cats in
  let mapping :=
    dict_comprehension (λ p, cat_id p.2) (λ p, p.1) (enumerate cats_sorted) in
  mapping.

(** The [for ann in anns] loop; [detections] is the list built so far. *)
Fixpoint detection_loop (mem : memory) (anns : list annotation)
    (height width : Z) (catid_to_classid : gmap Z nat)
    (detections : list gt_record) : result (list gt_record) :=
  match anns with
  | [] => Ok detections
  | ann :: anns' =>
      let coco_cat_id := ann_category_id ann in
      class_id ←? dict_get catid_to_classid coco_cat_id;
      mask ←? bbox_to_mask mem (ann_bbox ann) height width;
      detection_loop mem anns' height width catid_to_classid
        (detections ++ [GtRecord None class_id mask])
  end.

Definition get_detection_gt_for_image (mem : memory) (coco : coco_api)
    (image_id : Z) (catid_to_classid : gmap Z nat)
    : result (list gt_record) :=
  img_info ←? dict_get (coco_imgs coco) image_id;
  let width := img_width img_info in
  let height := img_height img_info in
  let anns := coco_img_anns coco image_id in
  detection_loop mem anns height width catid_to_classid [].

End Detection.

(** ** segmentation/build_instance_gt.py *)

Module Segmentation.

Definition build_category_id_mapping (coco : coco_api) : gmap Z nat :=
  let cats := coco_cats coco in
  let cats_sorted := py_sorted cat_id cats in
  let mapping :=
    dict_comprehension (λ p, cat_id p.2) (λ p, p.1) (enumerate cats_sorted) in
  mapping.

(** [mask.shape != (height, width)] *)
Definition shape_differs (m : ndarray) (height width : Z) : bool :=
  negb ((Z.of_nat (nd_shape m).1 =? height)%Z &&
        (Z.of_nat (nd_shape m).2 =? width)%Z).

(** The [for ann in anns] loop; a mismatching mask takes the
    [continue] branch. *)
Fixpoint instance_loop (coco : coco_api) (anns : list annotation)
    (height width : Z) (catid_to_classid : gmap Z nat)
    (instances : list gt_record) : result (list gt_record) :=
  match anns with
  | [] => Ok instances
  | ann :: anns' =>
      let coco_cat_id := ann_category_id ann in
      class_id ←? dict_get catid_to_classid coco_cat_id;
      mask ←? coco_annToMask coco ann;
      if shape_differs mask height width then
        instance_loop coco anns' height width catid_to_classid instances
      else
        let instance_id := ann_id ann in
        instance_loop coco anns' height width catid_to_classid
          (instances ++ [GtRecord (Some instance_id) class_id mask])
  end.

Definition get_instance_gt_for_image (coco : coco_api) (image_id : Z)
    (catid_to_classid : gmap Z nat) : result (list gt_record) :=
  img_info ←? dict_get (coco_imgs coco) image_id;
  let width := img_width img_info in
  let height := img_height img_info in
  let anns := coco_img_anns coco image_id in
  instance_loop coco anns height width catid_to_classid [].

End Segmentation.

(** ** panoptic/build_panoptic_gt.py *)

Module Panoptic.

Record segment_info : Type := SegmentInfo {
  seg_id : Z;
  seg_category_id : Z;
}.

Record pan_annotation : Type := PanAnnotation {
  pan_image_id : Z;
  pan_file_name : string;
  segments_info : list segment_info;
}.

Record panoptic_data : Type := PanopticData {
  categories : list category;
  images : list image_info;
  annotations : list pan_annotation;
}.

(** The directory of PNG files: [disk path] is [None] when
    [os.path.exists(path)] is false, and otherwise the outcome of
    [np.array(Image.open(path))], the decoded array or the exception of
    the image library. *)
Definition disk : Type := string → option (result ndarray3).

Fixpoint ends_with_slash (s : string) : bool :=
  match s with
  | EmptyString => false
  | String c EmptyString => bool_decide (c = "/"%char)
  | String _ s' => ends_with_slash s'
  end.

(** [os.path.join(d, f)] on a POSIX system. *)
Definition os_path_join (d f : string) : string :=
  if String.prefix "/" f then f
  else if bool_decide (d = EmptyString) || ends_with_slash d
       then (d +:+ f)
       else (d +:+ "/" +:+ f).

Definition rgb_to_id (color : ndarray3) : result ndarray :=
  let color := nd3_astype_int64 color in
  c0 ←? nd3_channel color 0;
  c1 ←? nd3_channel color 1;
  let low := nd_add_int64 c0 (nd_scale_int64 256 c1) in
  c2 ←? nd3_channel color 2;
  Ok (nd_add_int64 low (nd_scale_int64 (256 ^ 2) c2)).

Definition build_category_id_mapping (pd : panoptic_data) : gmap Z nat :=
  let cats := py_sorted cat_id (categories pd) in
  let mapping :=
    dict_comprehension (λ p, cat_id p.2) (λ p, p.1) (enumerate cats) in
  mapping.

Definition index_panoptic_structures (pd : panoptic_data)
    : gmap Z image_info * gmap Z pan_annotation :=
  let img_id_to_img := dict_comprehension img_id id (images pd) in
  let img_id_to_ann := dict_comprehension pan_image_id id (annotations pd) in
  (img_id_to_img, img_id_to_ann).

(** The [for seg in ann["segments_info"]] loop. *)
Fixpoint panoptic_loop (segs : list segment_info) (seg_id_map : ndarray)
    (catid_to_classid : gmap Z nat) (panoptic_instances : list gt_record)
    : result (list gt_record) :=
  match segs with
  | [] => Ok panoptic_instances
  | seg :: segs' =>
      let sid := seg_id seg in
      let cat := seg_category_id seg in
      class_id ←? dict_get catid_to_classid cat;
      let mask := nd_eq_scalar seg_id_map sid in
      panoptic_loop segs' seg_id_map catid_to_classid
        (panoptic_instances ++ [GtRecord (Some sid) class_id mask])
  end.

Definition get_panoptic_gt_for_image (fs : disk) (image_id : Z)
    (img_id_to_img : gmap Z image_info)
    (img_id_to_ann : gmap Z pan_annotation)
    (catid_to_classid : gmap Z nat) (panoptic_masks_dir : string)
    : result (list gt_record * (nat * nat)) :=
  img_info ←? dict_get img_id_to_img image_id;
  ann ←? dict_get img_id_to_ann image_id;
  let file_name := pan_file_name ann in
  let mask_path := os_path_join panoptic_masks_dir file_name in
  match fs mask_path with
  | None => Raise (FileNotFoundError mask_path)
  | Some decoded =>
      panoptic_rgb ←? decoded;
      seg_id_map ←? rgb_to_id panoptic_rgb;
      let '(H, W) := nd_shape seg_id_map in
      panoptic_instances ←?
        panoptic_loop (segments_info ann) seg_id_map catid_to_classid [];
      Ok (panoptic_instances, (H, W))
  end.

End Panoptic.

(** ** The [main] functions of the detection and panoptic scripts

    A run of [main] is modelled by the list of the strings it passes to
    [print], in order, together with its outcome.  The surroundings of
    the script are a record: the absolute path of the script file, the
    file-system tests, the loaders ([COCO(path)], which returns the
    container or raises, with the strings that it prints itself and the
    list that [coco.getImgIds()] returns; [json.load]; the PNG reader of
    the panoptic assembler), and the memory of the machine.  As in the
    panoptic assembler, a
    [FileNotFoundError] carries the path that its message names.  The
    [main] of the instance script is the one of the detection script up
    to the texts; it prints the [dtype] of the decoder's mask, which the
    array model does not have, and is left out. *)

Definition newline : string := String "010"%char EmptyString.

Fixpoint drop_while {A} (p : A → bool) (l : list A) : list A :=
  match l with
  | [] => []
  | x :: l' => if p x then drop_while p l' else l
  end.

Definition is_slash (c : ascii) : bool := bool_decide (c = "/"%char).

(** [os.path.dirname(p)] on a POSIX system: the part of [p] up to its
    last slash, without the trailing slashes unless it consists of
    slashes only. *)
Definition os_path_dirname (p : string) : string :=
  let head_rev :=
    drop_while (λ c, negb (is_slash c)) (rev (String.list_ascii_of_string p)) in
  match drop_while is_slash head_rev with
  | [] => String.string_of_list_ascii (rev head_rev)
  | stripped => String.string_of_list_ascii (rev stripped)
  end.

(** [str(shape)] of a two-dimensional array. *)
Definition shape_repr (shape : nat * nat) : string :=
  "(" +:+ pretty shape.1 +:+ ", " +:+ pretty shape.2 +:+ ")".

Module DetectionScript.

Record env : Type := Env {
  script_path : string;
  path_exists : string → bool;
  load_COCO : string → result (coco_api * list Z);
  loader_output : string → list string;
  machine : memory;
}.

(** The strings passed to [print] for one image, one per call. *)
Definition report (image_id : Z) (detections : list gt_record) : list string :=
  [newline +:+ "Image ID: " +:+ pretty image_id;
   "  Number of detections: " +:+ pretty (length detections)]
  ++ match detections with
     | [] => []
     | first :: _ =>
         ["  First entry → class_id: " +:+ pretty (class_id first)
          +:+ ", mask shape: " +:+ shape_repr (nd_shape (mask first))
          +:+ ", mask dtype: uint8"]
     end.

(** The [for image_id in test_img_ids] loop; [out] holds the strings
    printed so far. *)
Fixpoint main_loop (mem : memory) (coco : coco_api)
    (catid_to_classid : gmap Z nat) (test_img_ids : list Z)
    (out : list string) : list string * result () :=
  match test_img_ids with
  | [] => (out, Ok ())
  | image_id :: ids =>
      match Detection.get_detection_gt_for_image mem coco image_id
              catid_to_classid with
      | Raise e => (out, Raise e)
      | Ok detections =>
          main_loop mem coco catid_to_classid ids
            (out ++ report image_id detections)
      end
  end.

Definition main (e : env) : list string * result () :=
  let base_dir := os_path_dirname (os_path_dirname (script_path e)) in
  let ann_file :=
    Panoptic.os_path_join (Panoptic.os_path_join base_dir "data")
      "instances_val2017.json" in
  if negb (path_exists e ann_file) then ([], Raise (FileNotFoundError ann_file))
  else
    let out := ["Loading COCO annotations from:" +:+ newline +:+ "  "
                +:+ ann_file] in
    let out := out ++ loader_output e ann_file in
    match load_COCO e ann_file with
    | Raise err => (out, Raise err)
    | Ok (coco, all_img_ids) =>
        let catid_to_classid := Detection.build_category_id_mapping coco in
        let out :=
          out ++ ["Number of classes (mapped): "
                  +:+ pretty (size catid_to_classid)] in
        let img_ids := all_img_ids in
        let out :=
          out ++ ["Total images in val2017: " +:+ pretty (length img_ids)] in
        let test_img_ids := take 5 img_ids in
        main_loop (machine e) coco catid_to_classid test_img_ids out
    end.

End DetectionScript.

Module PanopticScript.

Record env : Type := Env {
  script_path : string;
  path_exists : string → bool;
  path_isdir : string → bool;
  json_load : string → Panoptic.panoptic_data;
  png_files : Panoptic.disk;
}.

(** [str] of the instance id of a record; the panoptic loop only builds
    records that have one. *)
Definition instance_id_repr (rec : gt_record) : string :=
  match instance_id rec with
  | Some i => pretty i
  | None => ""
  end.

(** The strings passed to [print] for one image, one per call. *)
Definition report (image_id : Z) (instances : list gt_record)
    (size : nat * nat) : list string :=
  [newline +:+ "Image ID: " +:+ pretty image_id;
   "  Image size: " +:+ pretty size.1 +:+ " x " +:+ pretty size.2;
   "  Number of panoptic instances: " +:+ pretty (length instances)]
  ++ match instances with
     | [] => []
     | first :: _ =>
         ["  First entry → instance_id: " +:+ instance_id_repr first
          +:+ ", class_id: " +:+ pretty (class_id first)
          +:+ ", mask shape: " +:+ shape_repr (nd_shape (mask first))
          +:+ ", mask dtype: uint8"]
     end.

(** The [for img_id in test_img_ids] loop. *)
Fixpoint main_loop (fs : Panoptic.disk) (img_id_to_img : gmap Z image_info)
    (img_id_to_ann : gmap Z Panoptic.pan_annotation)
    (catid_to_classid : gmap Z nat) (panoptic_masks_dir : string)
    (test_img_ids : list Z) (out : list string) : list string * result () :=
  match test_img_ids with
  | [] => (out, Ok ())
  | image_id :: ids =>
      match Panoptic.get_panoptic_gt_for_image fs image_id img_id_to_img
              img_id_to_ann catid_to_classid panoptic_masks_dir with
      | Raise e => (out, Raise e)
      | Ok (instances, hw) =>
          main_loop fs img_id_to_img img_id_to_ann catid_to_classid
            panoptic_masks_dir ids (out ++ report image_id instances hw)
      end
  end.

Definition main (e : env) : list string * result () :=
  let base_dir := os_path_dirname (script_path e) in
  let base_dir := os_path_dirname base_dir in
  let panoptic_json :=
    Panoptic.os_path_join (Panoptic.os_path_join base_dir "data")
      "panoptic_val2017.json" in
  let panoptic_masks_dir :=
    Panoptic.os_path_join (Panoptic.os_path_join base_dir "data")
      "panoptic_val2017" in
  if negb (path_exists e panoptic_json)
  then ([], Raise (FileNotFoundError panoptic_json))
  else if negb (path_isdir e panoptic_masks_dir)
  then ([], Raise (FileNotFoundError panoptic_masks_dir))
  else
    let out := ["Loading COCO Panoptic annotations from:";
                "  " +:+ panoptic_json] in
    let panoptic_data := json_load e panoptic_json in
    let catid_to_classid := Panoptic.build_category_id_mapping panoptic_data in
    let out :=
      out ++ ["Number of panoptic categories (mapped): "
              +:+ pretty (size catid_to_classid)] in
    let '(img_id_to_img, img_id_to_ann) :=
      Panoptic.index_panoptic_structures panoptic_data in
    let img_ids := py_sorted id (elements (dom img_id_to_img)) in
    let out :=
      out ++ ["Total images in panoptic val2017: " +:+ pretty (length img_ids)] in
    let test_img_ids := take 5 img_ids in
    main_loop (png_files e) img_id_to_img img_id_to_ann catid_to_classid
      panoptic_masks_dir test_img_ids out.

End PanopticScript.

(** ** Definitions used to state the properties *)

(** Order of two elements by their sort key. *)
Definition key_le {A} (key : A → Z) (a b : A) : Prop := (key a ≤ key b)%Z.
Definition key_lt {A} (key : A → Z) (a b : A) : Prop := (key a < key b)%Z.

(** The scalar formula [R + 256 * G + 256^2 * B] on one pixel, in
    unbounded integers. *)
Definition pixel_id (px : list Z) : Z :=
  (default 0 (px !! 0%nat) + 256 * default 0 (px !! 1%nat)
   + 256 ^ 2 * default 0 (px !! 2%nat))%Z.

(** What [rgb_to_id] computes on one pixel, with its 64-bit operations. *)
Definition pixel_id_int64 (px : list Z) : Z :=
  let ch k := default 0%Z ((int64_wrap <$> px) !! k) in
  int64_add (int64_add (ch 0) (int64_mul 256 (ch 1)))
            (int64_mul (256 ^ 2) (ch 2)).

(** [np.zeros] can build a [uint8] array of shape [(height, width)]:
    the dimensions and the size fit NumPy's index type and the machine
    has the memory. *)
Definition allocatable (mem : memory) (height width : Z) : Prop :=
  (height ≤ intp_max)%Z ∧ (width ≤ intp_max)%Z ∧
  (height * width ≤ intp_max)%Z ∧ mem (height * width)%Z = true.

(** A machine on which blocks of up to 16 GiB can be allocated. *)
Definition sixteen_gib : memory := λ n, (n <=? 2 ^ 34)%Z.

(** The value of [np.zeros((h, w))]. *)
Definition zeros (h w : nat) : ndarray :=
  NdArray (h, w) (replicate h (replicate w 0%Z)).

(** [max(0, min(v, n))] *)
Definition clip (v n : Z) : Z := Z.max 0 (Z.min v n).

(** [r] is an integer nearest to the exact value of the finite float [x],
    and it is even when [x] lies halfway between two integers. *)
Definition rounds_half_even (x : spec_float) (r : Z) : Prop :=
  match x with
  | S754_zero _ => r = 0%Z
  | S754_finite s m e =>
      let v := signed_mantissa s m in
      if (0 <=? e)%Z then r = (v * 2 ^ e)%Z
      else
        let d := (2 ^ (- e))%Z in
        (2 * Z.abs (r * d - v) ≤ d)%Z ∧
        ((2 * Z.abs (r * d - v) = d)%Z → Z.even r = true)
  | S754_infinity _ | S754_nan => False
  end.

(** [x] lies halfway between two consecutive integers. *)
Definition is_tie (x : spec_float) : Prop :=
  match x with
  | S754_finite s m e =>
      (e < 0)%Z ∧ (2 * (signed_mantissa s m mod 2 ^ (- e)) = 2 ^ (- e))%Z
  | _ => False
  end.

(** Python's [0 <= x] and [x <= n] for a float [x] and an integer [n];
    both compare exact values. *)
Definition float_nonneg (x : spec_float) : Prop :=
  match x with
  | S754_zero _ => True
  | S754_finite s _ _ => s = false
  | S754_infinity s => s = false
  | S754_nan => False
  end.

(** [x <= n]; for a finite [x = v * 2^e] with [e < 0] both sides are
    scaled by [2^(-e)]. *)
Definition float_le_int (x : spec_float) (n : Z) : Prop :=
  match x with
  | S754_zero _ => (0 ≤ n)%Z
  | S754_finite s m e =>
      let v := signed_mantissa s m in
      if (0 <=? e)%Z then (v * 2 ^ e ≤ n)%Z else (v ≤ n * 2 ^ (- e))%Z
  | S754_infinity s => s = true
  | S754_nan => False
  end.

(** [x] is neither an infinity nor a NaN. *)
Definition float_finite (x : spec_float) : Prop :=
  match x with
  | S754_zero _ | S754_finite _ _ _ => True
  | S754_infinity _ | S754_nan => False
  end.

(** The loop shape shared by the three assemblers: the body raises,
    skips the element ([None], the [continue] of the instance view) or
    yields one record, which is appended to the list built so far. *)
Fixpoint for_each {A B} (body : A → result (option B)) (xs : list A)
    (acc : list B) : result (list B) :=
  match xs with
  | [] => Ok acc
  | x :: xs' =>
      o ←? body x;
      for_each body xs' (match o with Some y => acc ++ [y] | None => acc end)
  end.

(** The bodies of the three loops, one iteration each. *)
Definition detection_body (mem : memory) (height width : Z)
    (catid_to_classid : gmap Z nat) (ann : annotation)
    : result (option gt_record) :=
  class_id ←? dict_get catid_to_classid (ann_category_id ann);
  mask ←? Detection.bbox_to_mask mem (ann_bbox ann) height width;
  Ok (Some (GtRecord None class_id mask)).

Definition instance_body (coco : coco_api) (height width : Z)
    (catid_to_classid : gmap Z nat) (ann : annotation)
    : result (option gt_record) :=
  class_id ←? dict_get catid_to_classid (ann_category_id ann);
  mask ←? coco_annToMask coco ann;
  if Segmentation.shape_differs mask height width then Ok None
  else Ok (Some (GtRecord (Some (ann_id ann)) class_id mask)).

Definition panoptic_body (seg_id_map : ndarray)
    (catid_to_classid : gmap Z nat) (seg : Panoptic.segment_info)
    : result (option gt_record) :=
  class_id ←? dict_get catid_to_classid (Panoptic.seg_category_id seg);
  Ok (Some (GtRecord (Some (Panoptic.seg_id seg)) class_id
              (nd_eq_scalar seg_id_map (Panoptic.seg_id seg)))).

(** Every cell of the array is 0 or 1. *)
Definition nd_binary (a : ndarray) : Prop :=
  Forall (Forall (λ v, v = 0%Z ∨ v = 1%Z)) (nd_rows a).

(** The record the panoptic loop appends for [seg] when its category
    maps to [cid]. *)
Definition panoptic_record (seg_id_map : ndarray) (cid : nat)
    (seg : Panoptic.segment_info) : gt_record :=
  GtRecord (Some (Panoptic.seg_id seg)) cid
    (nd_eq_scalar seg_id_map (Panoptic.seg_id seg)).

(** A record is the one of segment [seg] under the mapping. *)
Definition panoptic_record_of (seg_id_map : ndarray)
    (catid_to_classid : gmap Z nat) (seg : Panoptic.segment_info)
    (rec : gt_record) : Prop :=
  ∃ cid, catid_to_classid !! Panoptic.seg_category_id seg = Some cid ∧
         rec = panoptic_record seg_id_map cid seg.

(** The scenario of the specification: image 42 with the segments
    [{id=1000, category_id=5}] and [{id=2000, category_id=18}]; the PNG is
    4×4, its top half has the colour of id 1000 and its bottom half the
    colour of id 2000. *)
Definition scenario_rgb : ndarray3 :=
  NdArray3 (4, 4, 3)
    [replicate 4 [232; 3; 0]; replicate 4 [232; 3; 0];
     replicate 4 [208; 7; 0]; replicate 4 [208; 7; 0]]%Z.

Definition scenario_data : Panoptic.panoptic_data :=
  Panoptic.PanopticData
    [Category 18 "dog"; Category 5 "airplane"; Category 1 "person"]
    [ImageInfo 42 4 4]
    [Panoptic.PanAnnotation 42 "000000000042.png"
       [Panoptic.SegmentInfo 1000 5; Panoptic.SegmentInfo 2000 18]].

Definition scenario_disk : Panoptic.disk :=
  λ path, if String.eqb path "panoptic_val2017/000000000042.png"
          then Some (Ok scenario_rgb) else None.

Definition scenario_result : result (list gt_record * (nat * nat)) :=
  let '(img_id_to_img, img_id_to_ann) :=
    Panoptic.index_panoptic_structures scenario_data in
  Panoptic.get_panoptic_gt_for_image scenario_disk 42 img_id_to_img
    img_id_to_ann (Panoptic.build_category_id_mapping scenario_data)
    "panoptic_val2017".

(** The mask of [ann] decodes and has the declared shape. *)
Definition shape_matches (coco : coco_api) (height width : Z)
    (ann : annotation) : bool :=
  match coco_annToMask coco ann with
  | Ok mask => negb (Segmentation.shape_differs mask height width)
  | Raise _ => false
  end.

(** A record is the one of annotation [ann] under the mapping. *)
Definition instance_record_of (coco : coco_api)
    (catid_to_classid : gmap Z nat) (ann : annotation) (rec : gt_record)
    : Prop :=
  instance_id rec = Some (ann_id ann) ∧
  catid_to_classid !! ann_category_id ann = Some (class_id rec) ∧
  coco_annToMask coco ann = Ok (mask rec).

(** A panoptic container whose image 7 is declared 4×4 while its PNG is
    1×1. *)
Definition undersized_data : Panoptic.panoptic_data :=
  Panoptic.PanopticData
    [Category 5 "airplane"]
    [ImageInfo 7 4 4]
    [Panoptic.PanAnnotation 7 "000000000007.png"
       [Panoptic.SegmentInfo 1000 5]].

Definition undersized_disk : Panoptic.disk :=
  λ path, if String.eqb path "panoptic_val2017/000000000007.png"
          then Some (Ok (NdArray3 (1, 1, 3) [[[232; 3; 0]]]%Z)) else None.

(** An image with two annotations for the instance view: the decoder
    returns a 2×2 mask for annotation 10 and a 1×1 mask for annotation 11,
    while the image is declared 2×2. *)
Definition two_annotations : list annotation :=
  [Annotation 10 5 (float_of_dyadic 0 0, float_of_dyadic 0 0,
                    float_of_dyadic 1 0, float_of_dyadic 1 0)
     (RLE [0; 4] (2, 2));
   Annotation 11 18 (float_of_dyadic 20 0, float_of_dyadic 0 0,
                     float_of_dyadic 1 0, float_of_dyadic 1 0)
     (RLE [1] (1, 1))]%Z.

Definition two_annotations_coco : coco_api :=
  COCO [Category 18 "dog"; Category 5 "airplane"]
       {[ 1%Z := ImageInfo 1 2 2 ]}
       (λ image_id, if (image_id =? 1)%Z then two_annotations else [])
       (λ ann, if (ann_id ann =? 10)%Z
               then Ok (NdArray (2, 2) [[1; 1]; [1; 1]]%Z)
               else Ok (NdArray (1, 1) [[0]]%Z)).

(** An image whose first annotation has a NaN in its box and whose second
    annotation has a category, 18, that the container does not list. *)
Definition nan_box_coco : coco_api :=
  COCO [Category 5 "airplane"]
       {[ 1%Z := ImageInfo 1 2 2 ]}
       (λ image_id,
          if (image_id =? 1)%Z
          then [Annotation 10 5 (S754_nan, float_of_dyadic 0 0,
                                 float_of_dyadic 1 0, float_of_dyadic 1 0)
                  (RLE [0; 4] (2, 2));
                Annotation 11 18 (float_of_dyadic 0 0, float_of_dyadic 0 0,
                                  float_of_dyadic 1 0, float_of_dyadic 1 0)
                  (RLE [0; 4] (2, 2))]%Z
          else [])
       (λ _, Ok (NdArray (2, 2) [[1; 1]; [1; 1]]%Z)).

(** A record is the one of annotation [ann] in the detection view. *)
Definition detection_record_of (mem : memory) (height width : Z)
    (catid_to_classid : gmap Z nat) (ann : annotation) (rec : gt_record)
    : Prop :=
  instance_id rec = None ∧
  catid_to_classid !! ann_category_id ann = Some (class_id rec) ∧
  Detection.bbox_to_mask mem (ann_bbox ann) height width = Ok (mask rec).



(** The file [name] of the [data] directory that the scripts use: the
    directory two levels above the script file, then [data], then
    [name]. *)
Definition data_file (script_path name : string) : string :=
  Panoptic.os_path_join
    (Panoptic.os_path_join (os_path_dirname (os_path_dirname script_path))
       "data") name.

Definition has_slash (s : string) : bool :=
  existsb is_slash (String.list_ascii_of_string s).






(** A mask directory whose files exist and are not images. *)
Definition unreadable_disk : Panoptic.disk :=
  λ _, Some (Raise (OtherError "UnidentifiedImageError")).

(** A container with two annotations for image 7. *)
Definition repeated_annotation_data : Panoptic.panoptic_data :=
  Panoptic.PanopticData [] [ImageInfo 7 4 4]
    [Panoptic.PanAnnotation 7 "first.png" [];
     Panoptic.PanAnnotation 7 "second.png" []].

(** * Properties *)

(** ** The error monad *)

Lemma bind_Ok {A B} (r : result A) (k : A → result B) (b : B) :
  bind r k = Ok b ↔ ∃ a, r = Ok a ∧ k a = Ok b.
Proof.
  destruct r as [a|e]; simpl; split.
  - intros H. by exists a.
  - by intros (a' & [= <-] & H).
  - intros [=].
  - by intros (a' & [=] & _).
Qed.

Lemma dict_get_Ok {V} (d : gmap Z V) (k : Z) (v : V) :
  dict_get d k = Ok v ↔ d !! k = Some v.
Proof.
  unfold dict_get. destruct (d !! k); split; intros [=]; by subst.
Qed.

Lemma dict_get_Raise {V} (d : gmap Z V) (k : Z) (e : py_error) :
  dict_get d k = Raise e ↔ d !! k = None ∧ e = KeyError k.
Proof.
  unfold dict_get. destruct (d !! k); split.
  - intros [=].
  - by intros [[=] _].
  - by intros [= <-].
  - by intros [_ ->].
Qed.

(** ** Dict comprehensions *)

Section dict_comprehension.
Context {A V : Type} (key : A → Z) (val : A → V).

Lemma dict_comprehension_snoc (xs : list A) (x : A) :
  dict_comprehension key val (xs ++ [x])
  = <[key x := val x]> (dict_comprehension key val xs).
Proof. unfold dict_comprehension. by rewrite foldl_snoc. Qed.

Lemma dict_comprehension_lookup_None (xs : list A) (k : Z) :
  dict_comprehension key val xs !! k = None ↔ k ∉ key <$> xs.
Proof.
  induction xs as [|x xs IH] using rev_ind.
  - split; [intros _; apply not_elem_of_nil | done].
  - rewrite dict_comprehension_snoc, fmap_app, elem_of_app. simpl.
    rewrite list_elem_of_singleton.
    destruct (decide (key x = k)) as [Heq|Hne].
    + rewrite Heq, lookup_insert_eq. split; [done|]. intros H. destruct H. by right.
    + rewrite lookup_insert_ne by done. rewrite IH. split.
      * intros H [?|?]; [by apply H | congruence].
      * intros H ?. apply H. by left.
Qed.

Lemma dict_comprehension_lookup_Some (xs : list A) (k : Z) (v : V) :
  dict_comprehension key val xs !! k = Some v →
  ∃ x, x ∈ xs ∧ key x = k ∧ val x = v.
Proof.
  induction xs as [|x xs IH] using rev_ind.
  - intros [=].
  - rewrite dict_comprehension_snoc.
    destruct (decide (key x = k)) as [Heq|Hne].
    + rewrite Heq, lookup_insert_eq. intros [= <-].
      exists x. rewrite elem_of_app, list_elem_of_singleton.
      split; [by right | done].
    + rewrite lookup_insert_ne by done. intros Hk.
      destruct (IH Hk) as (y & Hy & ? & ?).
      exists y. rewrite elem_of_app. split; [by left | done].
Qed.

Lemma dict_comprehension_lookup_NoDup (xs : list A) (x : A) :
  NoDup (key <$> xs) → x ∈ xs →
  dict_comprehension key val xs !! key x = Some (val x).
Proof.
  induction xs as [|y xs IH] using rev_ind.
  - intros _ Hx. by apply elem_of_nil in Hx.
  - rewrite fmap_app, NoDup_app. simpl.
    intros (Hnd & Hfresh & _) Hx.
    rewrite dict_comprehension_snoc.
    apply elem_of_app in Hx as [Hx|Hx].
    + rewrite lookup_insert_ne; [by apply IH|].
      intros Heq. apply (Hfresh (key x)).
      * by apply list_elem_of_fmap_2.
      * rewrite Heq. apply list_elem_of_singleton. done.
    + apply list_elem_of_singleton in Hx as ->. apply lookup_insert_eq.
Qed.
End dict_comprehension.

(** ** Sorting by key *)

Lemma filter_none {A} (P : A → Prop) `{∀ x, Decision (P x)} (l : list A) :
  Forall (λ x, ¬ P x) l → filter P l = [].
Proof.
  induction 1 as [|x l Hx Hl IH]; [done|].
  by rewrite filter_cons_False.
Qed.

Section py_sorted.
Context {A : Type} (key : A → Z).

Lemma insert_by_key_Permutation (x : A) (l : list A) :
  insert_by_key key x l ≡ₚ x :: l.
Proof.
  induction l as [|y l IH]; simpl; [done|].
  destruct (key x <=? key y)%Z; [done|].
  rewrite IH. apply perm_swap.
Qed.

Lemma py_sorted_Permutation (l : list A) : py_sorted key l ≡ₚ l.
Proof.
  induction l as [|x l IH]; simpl; [done|].
  rewrite insert_by_key_Permutation. by rewrite IH.
Qed.

Lemma insert_by_key_sorted (x : A) (l : list A) :
  StronglySorted (key_le key) l → StronglySorted (key_le key) (insert_by_key key x l).
Proof.
  induction 1 as [|y l Hl IH Hy]; simpl.
  - repeat constructor.
  - destruct (Z.leb_spec (key x) (key y)) as [Hle|Hgt].
    + constructor; [by constructor|].
      constructor; [done|].
      eapply Forall_impl; [exact Hy|].
      unfold key_le. intros z Hz. lia.
    + constructor; [done|].
      rewrite insert_by_key_Permutation.
      constructor; [unfold key_le; lia | done].
Qed.

Lemma py_sorted_sorted (l : list A) : StronglySorted (key_le key) (py_sorted key l).
Proof.
  induction l as [|x l IH]; simpl; [constructor|].
  by apply insert_by_key_sorted.
Qed.

Lemma sorted_NoDup_strict (l : list A) :
  StronglySorted (key_le key) l → NoDup (key <$> l) → StronglySorted (key_lt key) l.
Proof.
  induction 1 as [|y l Hl IH Hy]; [constructor|].
  rewrite fmap_cons, NoDup_cons. intros [Hfresh Hnd].
  constructor; [by apply IH|].
  apply Forall_forall. intros z Hz.
  rewrite Forall_forall in Hy. specialize (Hy z Hz).
  assert (key z ≠ key y).
  { intros Heq. apply Hfresh. rewrite <-Heq. by apply list_elem_of_fmap_2. }
  unfold key_le, key_lt in *. lia.
Qed.

Lemma py_sorted_strict (l : list A) :
  NoDup (key <$> l) → StronglySorted (key_lt key) (py_sorted key l).
Proof.
  intros Hnd. apply sorted_NoDup_strict; [apply py_sorted_sorted|].
  by rewrite py_sorted_Permutation.
Qed.

(** In a strictly sorted list the position of an element is the number
    of elements with a smaller key. *)
Lemma strict_sorted_rank (l : list A) (i : nat) (c : A) :
  StronglySorted (key_lt key) l → l !! i = Some c →
  length (filter (λ c', key c' < key c)%Z l) = i.
Proof.
  intros Hs. revert i. induction Hs as [|y l Hl IH Hy]; intros i Hi.
  - done.
  - destruct i as [|i]; simpl in Hi.
    + injection Hi as ->.
      rewrite filter_cons_False by lia.
      rewrite filter_none; [done|].
      eapply Forall_impl; [exact Hy|].
      unfold key_lt. intros z Hz. simpl. lia.
    + rewrite filter_cons_True.
      * simpl. f_equal. by apply IH.
      * rewrite Forall_forall in Hy.
        apply (Hy c). by eapply list_elem_of_lookup_2.
Qed.
End py_sorted.

(** ** [enumerate] *)

Lemma enumerate_lookup {A} (l : list A) (i : nat) :
  enumerate l !! i = (λ c, (i, c)) <$> l !! i.
Proof.
  unfold enumerate. rewrite lookup_zip_with.
  destruct (l !! i) as [c|] eqn:Hi; simpl.
  - rewrite lookup_seq_lt by (by eapply lookup_lt_Some). done.
  - by destruct (seq 0 (length l) !! i).
Qed.

Lemma elem_of_enumerate {A} (l : list A) (i : nat) (c : A) :
  (i, c) ∈ enumerate l ↔ l !! i = Some c.
Proof.
  rewrite list_elem_of_lookup. split.
  - intros [j Hj]. rewrite enumerate_lookup in Hj.
    destruct (l !! j) as [c'|] eqn:Hl; simpl in Hj; [|done].
    by injection Hj as <- <-.
  - intros Hi. exists i. by rewrite enumerate_lookup, Hi.
Qed.

Lemma enumerate_keys {A} (key : A → Z) (l : list A) :
  (λ p : nat * A, key p.2) <$> enumerate l = key <$> l.
Proof.
  change (λ p : nat * A, key p.2) with (key ∘ @snd nat A).
  rewrite list_fmap_compose. unfold enumerate.
  rewrite snd_zip; [done|]. by rewrite length_seq.
Qed.

(** ** The category mapping *)

Section category_mapping.
Implicit Types (cats : list category) (k : Z) (idx : nat).

Lemma category_mapping_of_Some cats k idx :
  category_mapping_of cats !! k = Some idx →
  ∃ c, py_sorted cat_id cats !! idx = Some c ∧ cat_id c = k.
Proof.
  unfold category_mapping_of. intros Hk.
  apply dict_comprehension_lookup_Some in Hk as ([i c] & Hin & Hkey & Hval).
  simpl in *. subst. exists c. by apply elem_of_enumerate in Hin.
Qed.

Lemma category_mapping_of_bound cats k idx :
  category_mapping_of cats !! k = Some idx → idx < length cats.
Proof.
  intros (c & Hc & _)%category_mapping_of_Some.
  apply lookup_lt_Some in Hc.
  by rewrite (Permutation_length (py_sorted_Permutation cat_id cats)) in Hc.
Qed.

Lemma category_mapping_of_None cats k :
  category_mapping_of cats !! k = None ↔ k ∉ cat_id <$> cats.
Proof.
  unfold category_mapping_of.
  rewrite dict_comprehension_lookup_None, enumerate_keys.
  by rewrite py_sorted_Permutation.
Qed.

Lemma category_mapping_of_position cats i c :
  NoDup (cat_id <$> cats) →
  py_sorted cat_id cats !! i = Some c →
  category_mapping_of cats !! cat_id c = Some i.
Proof.
  intros Hnd Hi. unfold category_mapping_of.
  apply (dict_comprehension_lookup_NoDup
           (λ p : nat * category, cat_id p.2) (λ p, p.1) _ (i, c)).
  - rewrite enumerate_keys. by rewrite py_sorted_Permutation.
  - by apply elem_of_enumerate.
Qed.

Lemma category_mapping_of_rank cats c :
  NoDup (cat_id <$> cats) → c ∈ cats →
  category_mapping_of cats !! cat_id c
  = Some (length (filter (λ c', cat_id c' < cat_id c)%Z cats)).
Proof.
  intros Hnd Hc.
  rewrite <-(py_sorted_Permutation cat_id cats) in Hc.
  apply list_elem_of_lookup in Hc as [i Hi].
  rewrite (category_mapping_of_position cats i c Hnd Hi). f_equal.
  rewrite <-(strict_sorted_rank cat_id _ i c (py_sorted_strict _ _ Hnd) Hi).
  by rewrite py_sorted_Permutation.
Qed.

Lemma category_mapping_of_Permutation cats cats' :
  NoDup (cat_id <$> cats) → cats' ≡ₚ cats →
  category_mapping_of cats' = category_mapping_of cats.
Proof.
  intros Hnd Hperm. apply map_eq. intros k.
  assert (Hnd' : NoDup (cat_id <$> cats')) by by rewrite Hperm.
  destruct (decide (k ∈ cat_id <$> cats)) as [Hin|Hout].
  - apply list_elem_of_fmap in Hin as (c & -> & Hc).
    rewrite (category_mapping_of_rank cats c Hnd Hc).
    rewrite (category_mapping_of_rank cats' c Hnd') by by rewrite Hperm.
    by rewrite Hperm.
  - rewrite (proj2 (category_mapping_of_None cats k) Hout).
    apply category_mapping_of_None. by rewrite Hperm.
Qed.
End category_mapping.

Lemma panoptic_build_category_id_mapping_eq (pd : Panoptic.panoptic_data) :
  Panoptic.build_category_id_mapping pd
  = category_mapping_of (Panoptic.categories pd).
Proof. reflexivity. Qed.

Lemma detection_build_category_id_mapping_eq (coco : coco_api) :
  Detection.build_category_id_mapping coco
  = category_mapping_of (coco_cats coco).
Proof. reflexivity. Qed.

Lemma segmentation_build_category_id_mapping_eq (coco : coco_api) :
  Segmentation.build_category_id_mapping coco
  = category_mapping_of (coco_cats coco).
Proof. reflexivity. Qed.

(** C1. For a category list with unique ids, the mapping built by
    [build_category_id_mapping] (in each of the three scripts) sends the
    category at position [i] of the list sorted by ascending id to [i];
    the sorted list is strictly ascending and has the members of the
    input; the mapping is defined exactly on the ids of the list, its
    values lie below the number of categories, it is injective and onto
    [0, len-1]; the class index of a category is the number of categories
    with a smaller id; and rebuilding the mapping, from the same list or
    from any reordering of it, gives the same mapping. *)
Theorem build_category_id_mapping_bijection (pd : Panoptic.panoptic_data)
    (Hnd : NoDup (cat_id <$> Panoptic.categories pd)) :
  let cats := Panoptic.categories pd in
  let mapping := Panoptic.build_category_id_mapping pd in
  let cats_sorted := py_sorted cat_id cats in
  cats_sorted ≡ₚ cats ∧
  StronglySorted (λ a b, cat_id a < cat_id b)%Z cats_sorted ∧
  (∀ i c, cats_sorted !! i = Some c → mapping !! cat_id c = Some i) ∧
  (∀ k, is_Some (mapping !! k) ↔ k ∈ cat_id <$> cats) ∧
  (∀ k idx, mapping !! k = Some idx → idx < length cats) ∧
  (∀ k1 k2 idx,
     mapping !! k1 = Some idx → mapping !! k2 = Some idx → k1 = k2) ∧
  (∀ idx, idx < length cats → ∃ k, mapping !! k = Some idx) ∧
  (∀ c, c ∈ cats →
     mapping !! cat_id c
     = Some (length (filter (λ c', cat_id c' < cat_id c)%Z cats))) ∧
  Panoptic.build_category_id_mapping pd = mapping ∧
  (∀ pd', Panoptic.categories pd' ≡ₚ cats →
     Panoptic.build_category_id_mapping pd' = mapping) ∧
  (∀ coco, coco_cats coco ≡ₚ cats →
     Detection.build_category_id_mapping coco = mapping ∧
     Segmentation.build_category_id_mapping coco = mapping).
Proof.
  intros cats mapping cats_sorted.
  subst mapping cats_sorted. rewrite panoptic_build_category_id_mapping_eq.
  fold cats.
  split; [apply py_sorted_Permutation|].
  split; [by apply py_sorted_strict|].
  split; [intros i c; by apply category_mapping_of_position|].
  split.
  { intros k. rewrite <-not_eq_None_Some, category_mapping_of_None.
    split; [apply dec_stable | tauto]. }
  split; [apply category_mapping_of_bound|].
  split.
  { intros k1 k2 idx H1 H2.
    apply category_mapping_of_Some in H1 as (c1 & Hc1 & <-).
    apply category_mapping_of_Some in H2 as (c2 & Hc2 & <-).
    congruence. }
  split.
  { intros idx Hidx.
    rewrite <-(Permutation_length (py_sorted_Permutation cat_id cats)) in Hidx.
    apply lookup_lt_is_Some in Hidx as [c Hc].
    exists (cat_id c). by apply category_mapping_of_position. }
  split; [intros c; by apply category_mapping_of_rank|].
  split; [done|].
  split.
  { intros pd' Hperm. rewrite panoptic_build_category_id_mapping_eq.
    by apply category_mapping_of_Permutation. }
  intros coco Hperm.
  rewrite detection_build_category_id_mapping_eq,
    segmentation_build_category_id_mapping_eq.
  split; by apply category_mapping_of_Permutation.
Qed.

(** ** The panoptic colour decoding *)

Lemma int64_wrap_small (z : Z) :
  (- 2 ^ 63 ≤ z < 2 ^ 63)%Z → int64_wrap z = z.
Proof.
  intros Hz. unfold int64_wrap. rewrite Z.mod_small; lia.
Qed.

Lemma zip_with_fmap_same {A B C D} (f : B → C → D) (g : A → B) (h : A → C)
    (l : list A) :
  zip_with f (g <$> l) (h <$> l) = (λ x, f (g x) (h x)) <$> l.
Proof. induction l as [|x l IH]; csimpl; [done|]. by rewrite IH. Qed.

Lemma rgb_to_id_rows (color : ndarray3) (H W C : nat) :
  nd3_shape color = (H, W, C) → 3 ≤ C →
  Panoptic.rgb_to_id color
  = Ok (NdArray (H, W) (map (map pixel_id_int64) (nd3_rows color))).
Proof.
  intros Hshape HC. unfold Panoptic.rgb_to_id, nd3_channel.
  simpl. rewrite Hshape.
  rewrite !decide_True by lia. simpl.
  unfold nd_add_int64, nd_scale_int64. simpl. do 2 f_equal.
  rewrite <-!list_fmap_compose.
  rewrite !zip_with_fmap_same.
  apply list_fmap_ext. intros _ row _. simpl.
  rewrite <-!list_fmap_compose.
  rewrite !zip_with_fmap_same.
  apply list_fmap_ext. intros _ px _. reflexivity.
Qed.

Lemma rgb_to_id_IndexError (color : ndarray3) :
  (nd3_shape color).2 < 3 → Panoptic.rgb_to_id color = Raise IndexError.
Proof.
  intros HC. unfold Panoptic.rgb_to_id, nd3_channel. simpl.
  destruct (nd3_shape color) as [[h w] c]. simpl in HC.
  repeat (case_decide; simpl; try done). lia.
Qed.

Lemma pixel_id_int64_exact (px : list Z) :
  length px = 3 → Forall (λ v, 0 ≤ v ≤ 255)%Z px →
  pixel_id_int64 px = pixel_id px ∧ (0 ≤ pixel_id px ≤ 256 ^ 3 - 1)%Z.
Proof.
  intros Hlen Hrange.
  destruct px as [|R [|G [|B [|? ?]]]]; try done.
  apply Forall_cons in Hrange as [HR Hrange].
  apply Forall_cons in Hrange as [HG Hrange].
  apply Forall_cons in Hrange as [HB _].
  unfold pixel_id_int64, pixel_id, int64_add, int64_mul. simpl.
  rewrite (int64_wrap_small R), (int64_wrap_small G), (int64_wrap_small B)
    by lia.
  rewrite (int64_wrap_small (256 * G)) by lia.
  rewrite (int64_wrap_small (R + 256 * G)) by lia.
  change (256 ^ 2)%Z with 65536%Z. change (256 ^ 3)%Z with 16777216%Z.
  rewrite (int64_wrap_small (65536 * B)) by lia.
  rewrite (int64_wrap_small (R + 256 * G + 65536 * B)) by lia.
  lia.
Qed.

(** C2. On an [(H, W, 3)] array whose channel values lie in [0, 255],
    [rgb_to_id] returns the [(H, W)] array obtained by applying the scalar
    formula [R + 256 * G + 256^2 * B] to every pixel; every such value
    lies in [0, 256^3 - 1], and the 64-bit arithmetic represents all of
    these values without wrapping. *)
Theorem rgb_to_id_pixelwise (color : ndarray3) (H W : nat)
    (Hshape : nd3_shape color = (H, W, 3))
    (Hwf : nd3_wf color)
    (Hrange : Forall (Forall (Forall (λ v, 0 ≤ v ≤ 255)%Z)) (nd3_rows color)) :
  ∃ ids,
    Panoptic.rgb_to_id color = Ok ids ∧
    nd_shape ids = (H, W) ∧ nd_wf ids ∧
    nd_rows ids = map (map pixel_id) (nd3_rows color) ∧
    (∀ r c R G B,
       nd3_get color r c = Some [R; G; B] →
       nd_get ids r c = Some (R + 256 * G + 256 ^ 2 * B)%Z ∧
       (0 ≤ R + 256 * G + 256 ^ 2 * B ≤ 256 ^ 3 - 1)%Z) ∧
    (∀ v, (0 ≤ v ≤ 256 ^ 3 - 1)%Z → int64_wrap v = v).
Proof.
  destruct Hwf as [Hrows Hcols]. rewrite Hshape in Hrows, Hcols.
  simpl in Hrows, Hcols.
  assert (Heq : map (map pixel_id_int64) (nd3_rows color)
                = map (map pixel_id) (nd3_rows color)).
  { apply Forall_fmap_ext.
    rewrite Forall_forall in Hcols, Hrange. apply Forall_forall.
    intros row Hrow. apply Forall_fmap_ext.
    destruct (Hcols row Hrow) as [_ Hpx]. specialize (Hrange row Hrow).
    rewrite Forall_forall in Hpx, Hrange. apply Forall_forall.
    intros px Hin. by apply pixel_id_int64_exact; [apply Hpx | apply Hrange]. }
  exists (NdArray (H, W) (map (map pixel_id) (nd3_rows color))).
  split; [by rewrite (rgb_to_id_rows color H W 3 Hshape), Heq|].
  split; [done|].
  split.
  { split; simpl; [by rewrite length_map|].
    apply Forall_fmap. eapply Forall_impl; [exact Hcols|].
    intros row [Hlen _]. simpl. by rewrite length_map. }
  split; [done|].
  split.
  - intros r c R G B Hget. unfold nd3_get, nd_get in *. simpl.
    rewrite list_lookup_fmap.
    destruct (nd3_rows color !! r) as [row|] eqn:Hr; simpl in *; [|done].
    rewrite list_lookup_fmap, Hget. simpl.
    split; [done|].
    assert (Hin : row ∈ nd3_rows color) by by eapply list_elem_of_lookup_2.
    rewrite Forall_forall in Hrange. specialize (Hrange row Hin).
    rewrite Forall_forall in Hrange.
    assert (Hpx : [R; G; B] ∈ row) by by eapply list_elem_of_lookup_2.
    destruct (pixel_id_int64_exact [R; G; B] eq_refl (Hrange _ Hpx)) as [_ Hb].
    exact Hb.
  - intros v Hv. apply int64_wrap_small. lia.
Qed.

(** ** Arrays: zeros, slices and counting *)

Lemma np_zeros_Ok {mem : memory} (height width : Z) :
  (0 ≤ height)%Z → (0 ≤ width)%Z → allocatable mem height width →
  np_zeros mem height width = Ok (zeros (Z.to_nat height) (Z.to_nat width)).
Proof.
  intros Hh Hw (Hhmax & Hwmax & Hsize & Hmem). unfold np_zeros.
  destruct (Z.ltb_spec height 0); [lia|].
  destruct (Z.ltb_spec width 0); [lia|].
  destruct (Z.ltb_spec intp_max height); [lia|].
  destruct (Z.ltb_spec intp_max width); [lia|].
  destruct (Z.ltb_spec intp_max (height * width)); [lia|].
  by rewrite Hmem.
Qed.

Lemma np_zeros_Ok_inv {mem : memory} (height width : Z) (a : ndarray) :
  np_zeros mem height width = Ok a →
  (0 ≤ height)%Z ∧ (0 ≤ width)%Z ∧ allocatable mem height width ∧
  a = zeros (Z.to_nat height) (Z.to_nat width).
Proof.
  unfold np_zeros, allocatable.
  destruct (Z.ltb_spec height 0); [done|].
  destruct (Z.ltb_spec width 0); [done|].
  destruct (Z.ltb_spec intp_max height); [done|].
  destruct (Z.ltb_spec intp_max width); [done|].
  destruct (Z.ltb_spec intp_max (height * width)); [done|].
  destruct (mem (height * width)%Z); [|done]. simpl.
  by intros [= <-].
Qed.

Lemma np_zeros_Raise {mem : memory} (height width : Z) (e : py_error) :
  np_zeros mem height width = Raise e ↔
  (((height < 0)%Z ∨ (width < 0)%Z ∨ (intp_max < height)%Z ∨
    (intp_max < width)%Z ∨ (intp_max < height * width)%Z) ∧
   e = ValueError) ∨
  ((0 ≤ height ≤ intp_max)%Z ∧ (0 ≤ width ≤ intp_max)%Z ∧
   (height * width ≤ intp_max)%Z ∧ mem (height * width)%Z = false ∧
   e = MemoryError).
Proof.
  unfold np_zeros.
  destruct (Z.ltb_spec height 0); simpl.
  { split; [intros [= <-]; left; split; [lia|done]|].
    intros [[_ ->]|(? & _)]; [done|lia]. }
  destruct (Z.ltb_spec width 0); simpl.
  { split; [intros [= <-]; left; split; [lia|done]|].
    intros [[_ ->]|(_ & ? & _)]; [done|lia]. }
  destruct (Z.ltb_spec intp_max height); simpl.
  { split; [intros [= <-]; left; split; [lia|done]|].
    intros [[_ ->]|(? & _)]; [done|lia]. }
  destruct (Z.ltb_spec intp_max width); simpl.
  { split; [intros [= <-]; left; split; [lia|done]|].
    intros [[_ ->]|(_ & ? & _)]; [done|lia]. }
  destruct (Z.ltb_spec intp_max (height * width)); simpl.
  { split; [intros [= <-]; left; split; [lia|done]|].
    intros [[_ ->]|(_ & _ & ? & _)]; [done|lia]. }
  destruct (mem (height * width)%Z) eqn:Hmem; simpl.
  - split; [done|]. intros [[Hbad _]|(_ & _ & _ & [=] & _)]. lia.
  - split; [intros [= <-]; right; repeat split; (done || lia)|].
    intros [[Hbad _]|(_ & _ & _ & _ & ->)]; [lia | done].
Qed.

Lemma zeros_wf (h w : nat) : nd_wf (zeros h w).
Proof.
  split; simpl; [apply length_replicate|].
  apply Forall_replicate. apply length_replicate.
Qed.

Lemma slice_index_le (n : nat) (i : Z) : slice_index n i ≤ n.
Proof. unfold slice_index. destruct (Z.ltb_spec i 0); lia. Qed.

Lemma slice_index_clip (n : nat) (v : Z) :
  slice_index n (clip v (Z.of_nat n)) = Z.to_nat (clip v (Z.of_nat n)).
Proof.
  unfold slice_index, clip.
  destruct (Z.ltb_spec (Z.max 0 (Z.min v (Z.of_nat n))) 0); lia.
Qed.

Lemma in_slice_clip (n : nat) (lo hi : Z) (i : nat) :
  in_slice n (clip lo (Z.of_nat n)) (clip hi (Z.of_nat n)) i
  = bool_decide (clip lo (Z.of_nat n) ≤ Z.of_nat i < clip hi (Z.of_nat n))%Z.
Proof.
  unfold in_slice. rewrite !slice_index_clip.
  apply bool_decide_ext. unfold clip. lia.
Qed.

Lemma nd_fill_slice_shape (a : ndarray) (y0 y1 x0 x1 v : Z) :
  nd_shape (nd_fill_slice a y0 y1 x0 x1 v) = nd_shape a.
Proof. unfold nd_fill_slice. by destruct (nd_shape a). Qed.

Lemma nd_fill_slice_wf (a : ndarray) (y0 y1 x0 x1 v : Z) :
  nd_wf a → nd_wf (nd_fill_slice a y0 y1 x0 x1 v).
Proof.
  unfold nd_wf, nd_fill_slice. destruct a as [[h w] rows]. simpl.
  intros [Hlen Hrows]. split; [by rewrite length_imap|].
  apply Forall_forall. intros row' Hin.
  apply list_elem_of_lookup in Hin as [r Hr].
  rewrite list_lookup_imap in Hr.
  destruct (rows !! r) as [row|] eqn:Hrow; simpl in Hr; [|done].
  injection Hr as <-. rewrite length_imap.
  rewrite Forall_forall in Hrows. apply Hrows.
  by eapply list_elem_of_lookup_2.
Qed.

Lemma nd_fill_slice_get (a : ndarray) (y0 y1 x0 x1 v : Z) (r c : nat) :
  nd_get (nd_fill_slice a y0 y1 x0 x1 v) r c
  = (λ old, if in_slice (nd_shape a).1 y0 y1 r && in_slice (nd_shape a).2 x0 x1 c
            then v else old) <$> nd_get a r c.
Proof.
  unfold nd_get, nd_fill_slice. destruct a as [[h w] rows]. simpl.
  rewrite list_lookup_imap.
  destruct (rows !! r) as [row|]; simpl; [|done].
  by rewrite list_lookup_imap.
Qed.

Lemma zeros_get (h w r c : nat) :
  r < h → c < w → nd_get (zeros h w) r c = Some 0%Z.
Proof.
  intros Hr Hc. unfold nd_get, zeros. simpl.
  rewrite lookup_replicate_2 by done. simpl.
  by rewrite lookup_replicate_2.
Qed.

Lemma imap_replicate {A B} (f : nat → A → B) (n : nat) (x : A) :
  imap f (replicate n x) = (λ i, f i x) <$> seq 0 n.
Proof.
  revert f. induction n as [|n IH]; intros f; [done|].
  change (replicate (S n) x) with (x :: replicate n x).
  rewrite imap_cons. csimpl. f_equal.
  rewrite IH, <-fmap_S_seq, <-list_fmap_compose. done.
Qed.

Lemma imap_unchanged {A} (f : nat → A → A) (l : list A) :
  (∀ i x, f i x = x) → imap f l = l.
Proof.
  intros Hf. rewrite (imap_ext f (λ _ x, x)) by (intros; apply Hf).
  change (λ (_ : nat) (x : A), x) with (@const (A → A) nat id).
  rewrite imap_const. apply list_fmap_id.
Qed.

(** A fill over an empty slice changes nothing. *)
Lemma nd_fill_slice_empty (h w : nat) (y0 y1 x0 x1 v : Z) :
  slice_index h y1 ≤ slice_index h y0 ∨ slice_index w x1 ≤ slice_index w x0 →
  nd_fill_slice (zeros h w) y0 y1 x0 x1 v = zeros h w.
Proof.
  intros Hempty. unfold nd_fill_slice, zeros. simpl. f_equal.
  apply imap_unchanged. intros r row.
  apply imap_unchanged. intros c old.
  unfold in_slice.
  destruct Hempty.
  - rewrite (bool_decide_eq_false_2 (_ ≤ r < _)) by lia. done.
  - rewrite (bool_decide_eq_false_2 (_ ≤ c < _)) by lia.
    by rewrite andb_false_r.
Qed.

Lemma count_indicator {A} (b : A → bool) (l : list A) :
  length (filter (λ cell, cell = 1%Z)
            ((λ c, if b c then 1%Z else 0%Z) <$> l))
  = length (filter (λ c, b c = true) l).
Proof.
  induction l as [|x l IH]; [done|].
  rewrite fmap_cons, !filter_cons.
  destruct (b x); simpl; by rewrite IH.
Qed.

Lemma count_interval (lo hi n : nat) :
  length (filter (λ i, lo ≤ i < hi) (seq 0 n)) = Nat.min hi n - lo.
Proof.
  induction n as [|n IH]; [simpl; lia|].
  rewrite seq_S, filter_app, length_app, IH. simpl.
  rewrite filter_cons. case_decide; simpl; lia.
Qed.

Lemma sum_list_scaled {A} (b : A → bool) (k : nat) (l : list A) :
  sum_list ((λ r, if b r then k else 0) <$> l)
  = length (filter (λ r, b r = true) l) * k.
Proof.
  induction l as [|x l IH]; [done|].
  rewrite fmap_cons, filter_cons. simpl. rewrite IH.
  destruct (b x); simpl; lia.
Qed.

Lemma count_ones_fill_zeros (h w : nat) (y0 y1 x0 x1 : Z) :
  count_ones (nd_fill_slice (zeros h w) y0 y1 x0 x1 1)
  = (slice_index h y1 - slice_index h y0)
    * (slice_index w x1 - slice_index w x0).
Proof.
  unfold count_ones, nd_fill_slice, zeros. simpl.
  rewrite imap_replicate, <-list_fmap_compose.
  pose (K := length (filter (λ c, in_slice w x0 x1 c = true) (seq 0 w))).
  rewrite (list_fmap_ext _ (λ r, if in_slice h y0 y1 r then K else 0)
             (seq 0 h)); [|intros i r _].
  - rewrite sum_list_scaled. subst K.
    assert (Hcount : ∀ n lo hi,
      length (filter (λ i, in_slice n lo hi i = true) (seq 0 n))
      = slice_index n hi - slice_index n lo).
    { intros n lo hi.
      rewrite (list_filter_iff _ (λ i, slice_index n lo ≤ i < slice_index n hi)).
      - rewrite count_interval. pose proof (slice_index_le n hi). lia.
      - intros i. unfold in_slice. apply bool_decide_eq_true. }
    by rewrite !Hcount.
  - simpl. rewrite imap_replicate.
    destruct (in_slice h y0 y1 r); simpl.
    + subst K. apply count_indicator.
    + rewrite (filter_none (λ cell, cell = 1%Z)); [done|].
      apply Forall_fmap, Forall_forall. intros c _. simpl. lia.
Qed.

(** ** Rounding *)

Lemma round_half_even_cases (v e : Z) :
  (e < 0)%Z →
  ∃ d q rm : Z,
    d = (2 ^ (- e))%Z ∧ (0 < d)%Z ∧ v = (d * q + rm)%Z ∧ (0 ≤ rm < d)%Z ∧
    ((2 * rm < d ∧ round_half_even v e = q)%Z ∨
     (d < 2 * rm ∧ round_half_even v e = q + 1)%Z ∨
     ((2 * rm = d)%Z ∧ Z.even q = true ∧ round_half_even v e = q) ∨
     ((2 * rm = d)%Z ∧ Z.even q = false ∧ round_half_even v e = (q + 1)%Z)).
Proof.
  intros He.
  assert (Hd : (0 < 2 ^ (- e))%Z) by (apply Z.pow_pos_nonneg; lia).
  exists (2 ^ (- e))%Z, (v / 2 ^ (- e))%Z, (v mod 2 ^ (- e))%Z.
  split; [done|]. split; [done|].
  split; [apply Z.div_mod; lia|].
  split; [by apply Z.mod_pos_bound|].
  unfold round_half_even.
  destruct (Z.leb_spec 0 e); [lia|].
  destruct (Z.compare_spec (2 * (v mod 2 ^ (- e))) (2 ^ (- e))) as [Heq|Hlt|Hgt].
  - destruct (Z.even (v / 2 ^ (- e))) eqn:Heven; auto 10.
  - auto.
  - auto.
Qed.

Lemma py_round_rounds_half_even (x : spec_float) (r : Z) :
  py_round x = Ok r → rounds_half_even x r.
Proof.
  destruct x as [s|s| |s m e]; simpl; try done.
  - by intros [= <-].
  - intros [= <-]. set (v := signed_mantissa s m).
    destruct (Z.leb_spec 0 e) as [He|He].
    + unfold round_half_even. by rewrite (proj2 (Z.leb_le 0 e) He).
    + destruct (round_half_even_cases v e He)
        as (d & q & rm & Hdd & Hd & Hv & Hrm & Hcases).
      cbv zeta. rewrite <-Hdd.
      destruct Hcases as [[? ->]|[[? ->]|[(? & Hev & ->)|(? & Hev & ->)]]].
      * split; [lia|]. intros ?. lia.
      * split; [lia|]. intros ?. lia.
      * split; [lia|done].
      * split; [lia|]. intros _.
        rewrite Z.even_add, Hev. done.
Qed.

Lemma rounds_half_even_py_round (x : spec_float) (r : Z) :
  rounds_half_even x r → py_round x = Ok r.
Proof.
  destruct x as [s|s| |s m e]; simpl; try done.
  - by intros ->.
  - set (v := signed_mantissa s m).
    destruct (Z.leb_spec 0 e) as [He|He].
    + intros ->. unfold round_half_even. by rewrite (proj2 (Z.leb_le 0 e) He).
    + cbv zeta. intros [Hnear Htie]. f_equal.
      destruct (round_half_even_cases v e He)
        as (d & q & rm & Hdd & Hd & Hv & Hrm & Hcases).
      rewrite <-Hdd in Hnear, Htie.
      assert (Hk : r = q ∨ r = (q + 1)%Z) by nia.
      destruct Hcases as [[? ->]|[[? ->]|[(? & Hev & ->)|(? & Hev & ->)]]].
      * destruct Hk as [->| ->]; [done|nia].
      * destruct Hk as [->| ->]; [nia|done].
      * destruct Hk as [->| ->]; [done|].
        assert (Z.even (q + 1) = true) by (apply Htie; nia).
        rewrite Z.even_add, Hev in *. done.
      * destruct Hk as [->| ->]; [|done].
        assert (Z.even q = true) by (apply Htie; nia).
        congruence.
Qed.

Lemma py_round_nonneg (x : spec_float) (r : Z) :
  float_nonneg x → py_round x = Ok r → (0 ≤ r)%Z.
Proof.
  destruct x as [s|s| |s m e]; simpl; try done.
  - by intros _ [= <-].
  - intros -> [= <-]. simpl.
    destruct (Z.leb_spec 0 e) as [He|He].
    + unfold round_half_even. rewrite (proj2 (Z.leb_le 0 e) He).
      assert (0 < 2 ^ e)%Z by (apply Z.pow_pos_nonneg; lia). lia.
    + destruct (round_half_even_cases (Z.pos m) e He)
        as (d & q & rm & Hdd & Hd & Hv & Hrm & Hcases).
      assert (0 ≤ q)%Z by nia.
      destruct Hcases as [[? ->]|[[? ->]|[(? & _ & ->)|(? & _ & ->)]]]; lia.
Qed.

Lemma py_round_le_int (x : spec_float) (n r : Z) :
  float_le_int x n → py_round x = Ok r → (r ≤ n)%Z.
Proof.
  destruct x as [s|s| |s m e]; simpl; try done.
  - by intros ? [= <-].
  - set (v := signed_mantissa s m).
    destruct (Z.leb_spec 0 e) as [He|He].
    + intros Hle [= <-]. unfold round_half_even.
      by rewrite (proj2 (Z.leb_le 0 e) He).
    + intros Hle [= <-].
      destruct (round_half_even_cases v e He)
        as (d & q & rm & Hdd & Hd & Hv & Hrm & Hcases).
      rewrite <-Hdd in Hle.
      destruct Hcases as [[? ->]|[[? ->]|[(? & _ & ->)|(? & _ & ->)]]]; nia.
Qed.

(** ** Rasterising a bounding box *)

(** Rewrites the non-negative dimensions [height] and [width] as the
    images of natural numbers, the form in which the slice lemmas are
    stated. *)
Ltac dims_as_nat height width :=
  let hn := fresh "hn" in
  let wn := fresh "wn" in
  remember (Z.to_nat height) as hn;
  remember (Z.to_nat width) as wn;
  assert (height = Z.of_nat hn) as -> by lia;
  assert (width = Z.of_nat wn) as -> by lia.

(** Proves [allocatable mem height width] for a given machine and given
    dimensions by evaluation. *)
Ltac allocatable_by_evaluation :=
  unfold allocatable, intp_max; repeat split; (lia || reflexivity).

Lemma py_round_finite (x : spec_float) :
  float_finite x ↔ ∃ r, py_round x = Ok r.
Proof.
  destruct x; simpl; split; try done; eauto; by intros [? [=]].
Qed.

Lemma bbox_to_mask_Ok {mem : memory} (x y w h : spec_float)
    (height width rx ry rx1 ry1 : Z) :
  (0 ≤ height)%Z → (0 ≤ width)%Z → allocatable mem height width →
  py_round x = Ok rx → py_round y = Ok ry →
  py_round (float_add x w) = Ok rx1 → py_round (float_add y h) = Ok ry1 →
  Detection.bbox_to_mask mem (x, y, w, h) height width
  = Ok (nd_fill_slice (zeros (Z.to_nat height) (Z.to_nat width))
          (clip ry height) (clip ry1 height)
          (clip rx width) (clip rx1 width) 1).
Proof.
  intros Hh Hw Halloc Hx Hy Hx1 Hy1. unfold Detection.bbox_to_mask.
  rewrite np_zeros_Ok by done. simpl.
  rewrite Hx. simpl. rewrite Hy. simpl.
  rewrite Hx1. simpl. rewrite Hy1. simpl. done.
Qed.

Lemma bbox_to_mask_cell (height width y0 y1 x0 x1 : Z) (r c : nat) :
  (0 ≤ height)%Z → (0 ≤ width)%Z →
  (Z.of_nat r < height)%Z → (Z.of_nat c < width)%Z →
  nd_get (nd_fill_slice (zeros (Z.to_nat height) (Z.to_nat width))
            (clip y0 height) (clip y1 height)
            (clip x0 width) (clip x1 width) 1) r c
  = Some (if bool_decide
               ((clip y0 height ≤ Z.of_nat r < clip y1 height)%Z ∧
                (clip x0 width ≤ Z.of_nat c < clip x1 width)%Z)
          then 1%Z else 0%Z).
Proof.
  intros Hh Hw Hr Hc.
  rewrite nd_fill_slice_get, zeros_get by lia. simpl. f_equal.
  dims_as_nat height width.
  rewrite !in_slice_clip.
  destruct (bool_decide (clip y0 _ ≤ Z.of_nat r < clip y1 _)%Z) eqn:Hy;
    destruct (bool_decide (clip x0 _ ≤ Z.of_nat c < clip x1 _)%Z) eqn:Hx;
    simpl.
  - apply bool_decide_eq_true in Hy, Hx. by rewrite bool_decide_eq_true_2.
  - apply bool_decide_eq_false in Hx. rewrite bool_decide_eq_false_2; tauto.
  - apply bool_decide_eq_false in Hy. rewrite bool_decide_eq_false_2; tauto.
  - apply bool_decide_eq_false in Hy. rewrite bool_decide_eq_false_2; tauto.
Qed.

(** C3 (amended). For a bbox of finite floats whose corner sums [x + w]
    and [y + h] (floating-point sums, as the code computes them) are
    finite too, and positive [height] and [width] for which [np.zeros]
    can build the mask, [bbox_to_mask] rounds [x], [y], [x + w], [y + h]
    to the nearest integers, ties to even (the rounded value is the only
    integer with that property), clips the x-bounds to [0, width] and the
    y-bounds to [0, height], and returns a mask of shape
    [(height, width)] that is 1 exactly on rows [y0 ≤ r < y1] and columns
    [x0 ≤ c < x1] and 0 elsewhere.  The bbox [(-5, 2, 10, 3)] on an 8×8
    image, where 64 bytes can be allocated, gives 15 set pixels, at rows
    2–4 and columns 0–4. *)
Theorem bbox_to_mask_rectangle (mem : memory) (x y w h : spec_float)
    (height width : Z)
    (Hh : (0 < height)%Z) (Hw : (0 < width)%Z)
    (Halloc : allocatable mem height width)
    (Hx : float_finite x) (Hy : float_finite y)
    (Hx1 : float_finite (float_add x w))
    (Hy1 : float_finite (float_add y h)) :
  (∃ rx ry rx1 ry1 mask,
     (py_round x = Ok rx ∧ rounds_half_even x rx) ∧
     (py_round y = Ok ry ∧ rounds_half_even y ry) ∧
     (py_round (float_add x w) = Ok rx1 ∧
      rounds_half_even (float_add x w) rx1) ∧
     (py_round (float_add y h) = Ok ry1 ∧
      rounds_half_even (float_add y h) ry1) ∧
     (∀ f r, rounds_half_even f r ↔ py_round f = Ok r) ∧
     let x0 := clip rx width in
     let x1 := clip rx1 width in
     let y0 := clip ry height in
     let y1 := clip ry1 height in
     x0 = Z.max 0 (Z.min rx width) ∧ x1 = Z.max 0 (Z.min rx1 width) ∧
     y0 = Z.max 0 (Z.min ry height) ∧ y1 = Z.max 0 (Z.min ry1 height) ∧
     Detection.bbox_to_mask mem (x, y, w, h) height width = Ok mask ∧
     nd_shape mask = (Z.to_nat height, Z.to_nat width) ∧
     nd_wf mask ∧
     (∀ r c : nat,
        (Z.of_nat r < height)%Z → (Z.of_nat c < width)%Z →
        nd_get mask r c
        = Some (if bool_decide ((y0 ≤ Z.of_nat r < y1)%Z ∧
                                (x0 ≤ Z.of_nat c < x1)%Z)
                then 1%Z else 0%Z))) ∧
  (mem 64%Z = true →
   ∃ mask,
     Detection.bbox_to_mask mem
       (float_of_dyadic (-5) 0, float_of_dyadic 2 0,
        float_of_dyadic 10 0, float_of_dyadic 3 0) 8 8 = Ok mask ∧
     mask = NdArray (8, 8)
              [[0; 0; 0; 0; 0; 0; 0; 0]; [0; 0; 0; 0; 0; 0; 0; 0];
               [1; 1; 1; 1; 1; 0; 0; 0]; [1; 1; 1; 1; 1; 0; 0; 0];
               [1; 1; 1; 1; 1; 0; 0; 0]; [0; 0; 0; 0; 0; 0; 0; 0];
               [0; 0; 0; 0; 0; 0; 0; 0]; [0; 0; 0; 0; 0; 0; 0; 0]]%Z ∧
     count_ones mask = 15).
Proof.
  split.
  - apply py_round_finite in Hx as [rx Hx], Hy as [ry Hy].
    apply py_round_finite in Hx1 as [rx1 Hx1], Hy1 as [ry1 Hy1].
    exists rx, ry, rx1, ry1. eexists.
    split; [by split; [|apply py_round_rounds_half_even]|].
    split; [by split; [|apply py_round_rounds_half_even]|].
    split; [by split; [|apply py_round_rounds_half_even]|].
    split; [by split; [|apply py_round_rounds_half_even]|].
    split.
    { intros f r. split;
        [apply rounds_half_even_py_round | apply py_round_rounds_half_even]. }
    cbv zeta. do 4 (split; [done|]).
    split; [apply (bbox_to_mask_Ok x y w h); (done || lia)|].
    split; [by rewrite nd_fill_slice_shape|].
    split; [apply nd_fill_slice_wf, zeros_wf|].
    intros r c Hr Hc. apply bbox_to_mask_cell; lia.
  - intros H64. eexists. split.
    + apply (bbox_to_mask_Ok _ _ _ _ 8 8 (-5) 2 5 5);
        [lia | lia | | reflexivity..].
      repeat split; (exact H64 || (vm_compute; by intros [=])).
    + split; vm_compute; reflexivity.
Qed.

(** C3, a bbox of finite floats for which no mask is returned: [x] and
    [w] are both [2^1023], their sum overflows to infinity, and [round]
    raises [OverflowError]. *)
Lemma bbox_to_mask_overflow :
  let big := float_of_dyadic 1 1023 in
  float_finite big ∧ valid_binary 53 1024 big = true ∧
  float_add big big = S754_infinity false ∧
  Detection.bbox_to_mask sixteen_gib
    (big, S754_zero false, big, float_of_dyadic 1 0) 8 8
  = Raise OverflowError.
Proof. vm_compute. repeat split. Qed.

(** C8 (amended). When the rounded and clipped rectangle is empty and
    [np.zeros] can build the mask, [bbox_to_mask] returns the all-zero
    mask of shape [(height, width)] and raises nothing; a box that lies
    outside the image, or whose right (bottom) edge is not beyond its
    left (top) edge, has such an empty rectangle. *)
Theorem bbox_to_mask_degenerate (mem : memory) (x y w h : spec_float)
    (height width rx ry rx1 ry1 : Z)
    (Hh : (0 ≤ height)%Z) (Hw : (0 ≤ width)%Z)
    (Halloc : allocatable mem height width)
    (Hx : py_round x = Ok rx) (Hy : py_round y = Ok ry)
    (Hx1 : py_round (float_add x w) = Ok rx1)
    (Hy1 : py_round (float_add y h) = Ok ry1) :
  ((clip rx1 width ≤ clip rx width)%Z ∨ (clip ry1 height ≤ clip ry height)%Z →
   ∃ mask,
     Detection.bbox_to_mask mem (x, y, w, h) height width = Ok mask ∧
     mask = zeros (Z.to_nat height) (Z.to_nat width) ∧
     nd_shape mask = (Z.to_nat height, Z.to_nat width) ∧
     nd_wf mask ∧
     count_ones mask = 0 ∧
     (∀ r c : nat, (Z.of_nat r < height)%Z → (Z.of_nat c < width)%Z →
                   nd_get mask r c = Some 0%Z)) ∧
  ((width ≤ rx)%Z ∨ (rx1 ≤ 0)%Z ∨ (height ≤ ry)%Z ∨ (ry1 ≤ 0)%Z ∨
   (rx1 ≤ rx)%Z ∨ (ry1 ≤ ry)%Z →
   (clip rx1 width ≤ clip rx width)%Z ∨ (clip ry1 height ≤ clip ry height)%Z).
Proof.
  split.
  - intros Hempty. eexists. split; [by apply (bbox_to_mask_Ok x y w h)|].
    assert (Hz : nd_fill_slice (zeros (Z.to_nat height) (Z.to_nat width))
                   (clip ry height) (clip ry1 height)
                   (clip rx width) (clip rx1 width) 1
                 = zeros (Z.to_nat height) (Z.to_nat width)).
    { apply nd_fill_slice_empty.
      dims_as_nat height width.
      rewrite !slice_index_clip. lia. }
    rewrite Hz. split; [done|]. split; [done|].
    split; [apply zeros_wf|]. split.
    + rewrite <-Hz at 1. rewrite count_ones_fill_zeros.
      dims_as_nat height width.
      rewrite !slice_index_clip. lia.
    + intros r c Hr Hc. apply zeros_get; lia.
  - unfold clip. lia.
Qed.

(** C8, a box outside the image for which no mask is returned: on an image
    of height [2^63] and width 1 the call [np.zeros] raises [ValueError],
    whatever memory the machine has. *)
Lemma bbox_to_mask_degenerate_oversized :
  let x := float_of_dyadic 20 0 in
  let y := float_of_dyadic 2 0 in
  let w := float_of_dyadic 3 0 in
  py_round x = Ok 20%Z ∧ py_round (float_add x w) = Ok 23%Z ∧
  clip 23 1 = clip 20 1 ∧
  Detection.bbox_to_mask (λ _, true) (x, y, w, w) (2 ^ 63) 1
  = Raise ValueError.
Proof. vm_compute. repeat split. Qed.

(** C4 (amended). For a bbox that lies inside the image
    ([0 <= x], [x + w <= width], [0 <= y], [y + h <= height], with the
    sums as computed in floating point), on an image for which [np.zeros]
    can build the mask, the number of set pixels is
    [max(0, round(x + w) - round(x)) * max(0, round(y + h) - round(y))]. *)
Theorem bbox_to_mask_inside_count (mem : memory) (x y w h : spec_float)
    (height width rx ry rx1 ry1 : Z)
    (Hh : (0 < height)%Z) (Hw : (0 < width)%Z)
    (Halloc : allocatable mem height width)
    (Hx : py_round x = Ok rx) (Hy : py_round y = Ok ry)
    (Hx1 : py_round (float_add x w) = Ok rx1)
    (Hy1 : py_round (float_add y h) = Ok ry1)
    (Hleft : float_nonneg x) (Hright : float_le_int (float_add x w) width)
    (Htop : float_nonneg y) (Hbottom : float_le_int (float_add y h) height) :
  ∃ mask,
    Detection.bbox_to_mask mem (x, y, w, h) height width = Ok mask ∧
    Z.of_nat (count_ones mask)
    = (Z.max 0 (rx1 - rx) * Z.max 0 (ry1 - ry))%Z.
Proof.
  eexists. split; [apply (bbox_to_mask_Ok x y w h); (done || lia)|].
  rewrite count_ones_fill_zeros.
  pose proof (py_round_nonneg x rx Hleft Hx).
  pose proof (py_round_nonneg y ry Htop Hy).
  pose proof (py_round_le_int _ width rx1 Hright Hx1).
  pose proof (py_round_le_int _ height ry1 Hbottom Hy1).
  dims_as_nat height width.
  rewrite !slice_index_clip, Nat2Z.inj_mul.
  assert (Z.of_nat (Z.to_nat (clip ry1 (Z.of_nat hn))
                    - Z.to_nat (clip ry (Z.of_nat hn)))
          = Z.max 0 (ry1 - ry)) as -> by (unfold clip; lia).
  assert (Z.of_nat (Z.to_nat (clip rx1 (Z.of_nat wn))
                    - Z.to_nat (clip rx (Z.of_nat wn)))
          = Z.max 0 (rx1 - rx)) as -> by (unfold clip; lia).
  apply Z.mul_comm.
Qed.

(** C4, a bbox inside the image where no rounded quantity is a tie and
    the pixel count differs from [round(w) * round(h)]:
    [(1.375, 1.375, 1.25, 1.25)] on an 8×8 image covers columns and rows
    1–2 (4 pixels), while [round(1.25) * round(1.25) = 1]. *)
Lemma bbox_to_mask_count_not_round_w_h :
  let x := float_of_dyadic 11 (-3) in
  let w := float_of_dyadic 10 (-3) in
  (float_nonneg x ∧ float_le_int (float_add x w) 8) ∧
  (¬ is_tie x ∧ ¬ is_tie w ∧ ¬ is_tie (float_add x w)) ∧
  py_round w = Ok 1%Z ∧
  ∃ mask,
    Detection.bbox_to_mask sixteen_gib (x, x, w, w) 8 8 = Ok mask ∧
    count_ones mask = 4 ∧
    Z.of_nat (count_ones mask) ≠ (1 * 1)%Z.
Proof.
  cbv zeta. split; [split; vm_compute; [done | by intros [=]]|].
  split.
  { repeat split; vm_compute; by intros [_ [=]]. }
  split; [reflexivity|].
  eexists. split; [vm_compute; reflexivity|].
  split; [reflexivity|]. vm_compute. by intros [=].
Qed.

(** ** The per-image loops

    Each loop of the scripts is an instance of [for_each], so the
    properties of the loops are proved once. *)

Section for_each.
Context {A B : Type} (body : A → result (option B)).

Lemma for_each_Ok_iff (xs : list A) (acc out : list B) :
  for_each body xs acc = Ok out ↔
  ∃ os, Forall2 (λ x o, body x = Ok o) xs os ∧ out = acc ++ omap id os.
Proof.
  revert acc. induction xs as [|x xs IH]; intros acc; simpl.
  - split.
    + intros [= <-]. exists []. split; [constructor|]. by rewrite app_nil_r.
    + intros (os & Hos & ->). apply Forall2_nil_inv_l in Hos as ->.
      simpl. by rewrite app_nil_r.
  - rewrite bind_Ok. split.
    + intros (o & Hx & Hrest). apply IH in Hrest as (os & Hos & ->).
      exists (o :: os). split; [by constructor|].
      destruct o; simpl; [|done]. by rewrite <-app_assoc.
    + intros (os & Hos & ->).
      apply Forall2_cons_inv_l in Hos as (o & os' & Hx & Hos' & ->).
      exists o. split; [done|]. apply IH. exists os'. split; [done|].
      destruct o; simpl; [|done]. by rewrite <-app_assoc.
Qed.

Lemma for_each_Raise_iff (xs : list A) (acc : list B) (e : py_error) :
  for_each body xs acc = Raise e ↔
  ∃ pre x post,
    xs = pre ++ x :: post ∧
    Forall (λ x, is_ok (body x)) pre ∧ body x = Raise e.
Proof.
  revert acc. induction xs as [|x xs IH]; intros acc; simpl.
  - split; [done|]. intros (pre & x & post & Heq & _).
    by destruct pre.
  - destruct (body x) as [o|e'] eqn:Hx; simpl.
    + rewrite IH. split.
      * intros (pre & y & post & -> & Hpre & Hy).
        exists (x :: pre), y, post. split; [done|].
        split; [|done]. constructor; [by exists o | done].
      * intros (pre & y & post & Heq & Hpre & Hy).
        destruct pre as [|x' pre]; simpl in Heq.
        -- injection Heq as -> ->. congruence.
        -- injection Heq as -> ->. exists pre, y, post.
           apply Forall_cons in Hpre as [_ Hpre]. done.
    + split.
      * intros [= ->]. exists [], x, xs. split; [done|].
        split; [constructor | done].
      * intros (pre & y & post & Heq & Hpre & Hy).
        destruct pre as [|x' pre]; simpl in Heq.
        -- injection Heq as -> ->. congruence.
        -- injection Heq as -> ->.
           apply Forall_cons in Hpre as [[o Ho] _]. congruence.
Qed.

Lemma for_each_total (xs : list A) (acc : list B) :
  Forall (λ x, is_ok (body x)) xs → is_ok (for_each body xs acc).
Proof.
  intros Hxs. destruct (for_each body xs acc) as [out|e] eqn:Hres.
  - by exists out.
  - apply for_each_Raise_iff in Hres as (pre & x & post & -> & _ & Hx).
    apply Forall_app in Hxs as [_ Hxs].
    apply Forall_cons in Hxs as [[o Ho] _]. congruence.
Qed.
End for_each.

Lemma detection_loop_for_each {mem : memory}
    anns height width catid_to_classid acc :
  Detection.detection_loop mem anns height width catid_to_classid acc
  = for_each (detection_body mem height width catid_to_classid) anns acc.
Proof.
  revert acc. induction anns as [|ann anns IH]; intros acc; simpl; [done|].
  unfold detection_body.
  destruct (dict_get catid_to_classid (ann_category_id ann)); simpl; [|done].
  destruct (Detection.bbox_to_mask mem _ _ _); simpl; [|done].
  apply IH.
Qed.

Lemma instance_loop_for_each coco anns height width catid_to_classid acc :
  Segmentation.instance_loop coco anns height width catid_to_classid acc
  = for_each (instance_body coco height width catid_to_classid) anns acc.
Proof.
  revert acc. induction anns as [|ann anns IH]; intros acc; simpl; [done|].
  unfold instance_body.
  destruct (dict_get catid_to_classid (ann_category_id ann)); simpl; [|done].
  destruct (coco_annToMask coco ann); simpl; [|done].
  destruct (Segmentation.shape_differs _ _ _); simpl; apply IH.
Qed.

Lemma panoptic_loop_for_each segs seg_id_map catid_to_classid acc :
  Panoptic.panoptic_loop segs seg_id_map catid_to_classid acc
  = for_each (panoptic_body seg_id_map catid_to_classid) segs acc.
Proof.
  revert acc. induction segs as [|seg segs IH]; intros acc; simpl; [done|].
  unfold panoptic_body.
  destruct (dict_get catid_to_classid _); simpl; [|done].
  apply IH.
Qed.

Section for_each_records.
Context {A B : Type} (body : A → result (option B)).
Context (keep : A → bool) (R : A → B → Prop).
Hypothesis body_Ok :
  ∀ x o, body x = Ok o →
         if keep x then ∃ y, o = Some y ∧ R x y else o = None.

(** The records of a successful loop are those of the elements that
    are kept, in the order of the input. *)
Lemma for_each_Ok_filter (xs : list A) (out : list B) :
  for_each body xs [] = Ok out →
  Forall2 R (filter (λ x, keep x = true) xs) out.
Proof using body_Ok.
  intros (os & Hos & ->)%for_each_Ok_iff. simpl.
  induction Hos as [|x o xs os Hx Hos IH]; [constructor|].
  apply body_Ok in Hx. rewrite filter_cons.
  destruct (keep x).
  - destruct Hx as (y & -> & Hy). simpl. by constructor.
  - subst o. simpl. done.
Qed.
End for_each_records.

Lemma filter_all {A} (P : A → Prop) `{∀ x, Decision (P x)} (l : list A) :
  Forall P l → filter P l = l.
Proof.
  induction 1 as [|x l Hx Hl IH]; [done|].
  by rewrite filter_cons_True, IH.
Qed.

(** ** The masks of the panoptic view *)

Lemma nd_eq_scalar_get (a : ndarray) (v : Z) (r c : nat) :
  nd_get (nd_eq_scalar a v) r c
  = (λ cell, if (cell =? v)%Z then 1%Z else 0%Z) <$> nd_get a r c.
Proof.
  unfold nd_get, nd_eq_scalar. simpl. rewrite list_lookup_fmap.
  destruct (nd_rows a !! r) as [row|]; simpl; [|done].
  by rewrite list_lookup_fmap.
Qed.

Lemma nd_eq_scalar_binary (a : ndarray) (v : Z) : nd_binary (nd_eq_scalar a v).
Proof.
  unfold nd_binary, nd_eq_scalar. simpl.
  apply Forall_fmap, Forall_forall. intros row _. simpl.
  apply Forall_fmap, Forall_forall. intros cell _. simpl.
  destruct (cell =? v)%Z; auto.
Qed.

Lemma nd_eq_scalar_wf (a : ndarray) (v : Z) : nd_wf a → nd_wf (nd_eq_scalar a v).
Proof.
  unfold nd_wf, nd_eq_scalar. simpl. intros [Hlen Hrows].
  split; [by rewrite length_map|].
  apply Forall_fmap. eapply Forall_impl; [exact Hrows|].
  intros row Hrow. simpl. by rewrite length_map.
Qed.

Lemma nd_eq_scalar_disjoint (a : ndarray) (v1 v2 : Z) (r c : nat) :
  v1 ≠ v2 →
  ¬ (nd_get (nd_eq_scalar a v1) r c = Some 1%Z ∧
     nd_get (nd_eq_scalar a v2) r c = Some 1%Z).
Proof.
  intros Hne. rewrite !nd_eq_scalar_get.
  destruct (nd_get a r c) as [cell|]; simpl; [|by intros [[=] _]].
  destruct (Z.eqb_spec cell v1), (Z.eqb_spec cell v2);
    intros [[=] [=]]; congruence.
Qed.

(** ** The panoptic assembler *)

Lemma panoptic_body_Ok seg_id_map catid_to_classid seg o :
  panoptic_body seg_id_map catid_to_classid seg = Ok o →
  ∃ rec, o = Some rec ∧
         panoptic_record_of seg_id_map catid_to_classid seg rec.
Proof.
  unfold panoptic_body. intros (cid & Hcid & [= <-])%bind_Ok.
  apply dict_get_Ok in Hcid. eexists. split; [done|]. by exists cid.
Qed.

Lemma panoptic_loop_records segs seg_id_map catid_to_classid out :
  Panoptic.panoptic_loop segs seg_id_map catid_to_classid [] = Ok out →
  Forall2 (panoptic_record_of seg_id_map catid_to_classid) segs out.
Proof.
  rewrite panoptic_loop_for_each. intros Hout.
  apply (for_each_Ok_filter _ (λ _, true)
           (panoptic_record_of seg_id_map catid_to_classid)) in Hout.
  - rewrite filter_all in Hout; [done|]. by apply Forall_forall.
  - intros seg o Ho. by apply panoptic_body_Ok.
Qed.

Lemma panoptic_loop_total segs seg_id_map catid_to_classid :
  Forall (λ seg, is_Some (catid_to_classid !! Panoptic.seg_category_id seg))
         segs →
  is_ok (Panoptic.panoptic_loop segs seg_id_map catid_to_classid []).
Proof.
  intros Hcats. rewrite panoptic_loop_for_each. apply for_each_total.
  eapply Forall_impl; [exact Hcats|]. intros seg [cid Hcid].
  unfold panoptic_body, dict_get. rewrite Hcid. simpl. by eexists.
Qed.

(** The call once both index lookups, the file and the decoding have
    succeeded. *)
Lemma get_panoptic_gt_for_image_decoded fs image_id img_id_to_img
    img_id_to_ann catid_to_classid dir img_info ann rgb seg_id_map :
  img_id_to_img !! image_id = Some img_info →
  img_id_to_ann !! image_id = Some ann →
  fs (Panoptic.os_path_join dir (Panoptic.pan_file_name ann)) = Some (Ok rgb) →
  Panoptic.rgb_to_id rgb = Ok seg_id_map →
  Panoptic.get_panoptic_gt_for_image fs image_id img_id_to_img img_id_to_ann
    catid_to_classid dir
  = (recs ←? Panoptic.panoptic_loop (Panoptic.segments_info ann) seg_id_map
               catid_to_classid [];
     Ok (recs, nd_shape seg_id_map)).
Proof.
  intros Himg Hann Hfile Hdecode. unfold Panoptic.get_panoptic_gt_for_image.
  unfold dict_get. rewrite Himg, Hann. simpl. rewrite Hfile. simpl.
  rewrite Hdecode. simpl.
  by destruct (nd_shape seg_id_map).
Qed.

(** C5. When the image id is in both indexes, the PNG exists and decodes
    to [seg_id_map], and every segment's category is mapped, the panoptic
    assembler returns one record per segment, in the order of the segment
    list: [instance_id] is the segment id, [class_id] the mapper's value
    for the segment's category, and [mask] is 1 exactly where
    [seg_id_map] equals the segment id.  Masks of records with distinct
    segment ids are never both 1 at a pixel.  In the 4×4 scenario the two
    masks have 8 pixels each (top and bottom half) and cover all 16. *)
Theorem get_panoptic_gt_for_image_records fs image_id img_id_to_img
    img_id_to_ann catid_to_classid dir img_info ann rgb seg_id_map
    (Himg : img_id_to_img !! image_id = Some img_info)
    (Hann : img_id_to_ann !! image_id = Some ann)
    (Hfile : fs (Panoptic.os_path_join dir (Panoptic.pan_file_name ann))
             = Some (Ok rgb))
    (Hdecode : Panoptic.rgb_to_id rgb = Ok seg_id_map)
    (Hcats : Forall (λ seg, is_Some (catid_to_classid
                                      !! Panoptic.seg_category_id seg))
                    (Panoptic.segments_info ann)) :
  (∃ recs,
     Panoptic.get_panoptic_gt_for_image fs image_id img_id_to_img
       img_id_to_ann catid_to_classid dir
     = Ok (recs, nd_shape seg_id_map) ∧
     length recs = length (Panoptic.segments_info ann) ∧
     (∀ i seg,
        Panoptic.segments_info ann !! i = Some seg →
        ∃ cid,
          catid_to_classid !! Panoptic.seg_category_id seg = Some cid ∧
          recs !! i
          = Some (GtRecord (Some (Panoptic.seg_id seg)) cid
                    (nd_eq_scalar seg_id_map (Panoptic.seg_id seg)))) ∧
     (∀ rec sid r c v,
        rec ∈ recs → instance_id rec = Some sid →
        nd_get seg_id_map r c = Some v →
        nd_get (mask rec) r c = Some (if (v =? sid)%Z then 1%Z else 0%Z)) ∧
     (∀ rec1 rec2 r c,
        rec1 ∈ recs → rec2 ∈ recs → instance_id rec1 ≠ instance_id rec2 →
        ¬ (nd_get (mask rec1) r c = Some 1%Z ∧
           nd_get (mask rec2) r c = Some 1%Z))) ∧
  (let top := NdArray (4, 4) [[1; 1; 1; 1]; [1; 1; 1; 1];
                              [0; 0; 0; 0]; [0; 0; 0; 0]]%Z in
   let bottom := NdArray (4, 4) [[0; 0; 0; 0]; [0; 0; 0; 0];
                                 [1; 1; 1; 1]; [1; 1; 1; 1]]%Z in
   scenario_result
   = Ok ([GtRecord (Some 1000%Z) 1 top; GtRecord (Some 2000%Z) 2 bottom],
         (4, 4)) ∧
   count_ones top = 8 ∧ count_ones bottom = 8 ∧
   (∀ r c, r < 4 → c < 4 →
           (nd_get top r c = Some 1%Z ∧ nd_get bottom r c = Some 0%Z) ∨
           (nd_get top r c = Some 0%Z ∧ nd_get bottom r c = Some 1%Z))).
Proof.
  split.
  - rewrite (get_panoptic_gt_for_image_decoded _ _ _ _ _ _ _ _ _ _
               Himg Hann Hfile Hdecode).
    destruct (panoptic_loop_total _ seg_id_map _ Hcats) as [recs Hrecs].
    rewrite Hrecs. simpl. exists recs. split; [done|].
    apply panoptic_loop_records in Hrecs.
    split; [symmetry; by eapply Forall2_length|].
    split; [|split].
    + intros i seg Hi.
      destruct (Forall2_lookup_l _ _ _ _ _ Hrecs Hi)
        as (rec & Hrec & cid & Hcid & ->).
      by exists cid.
    + intros rec sid r c v Hin Hsid Hv.
      apply list_elem_of_lookup in Hin as [i Hi].
      destruct (Forall2_lookup_r _ _ _ _ _ Hrecs Hi)
        as (seg & _ & cid & _ & ->).
      simpl in *. injection Hsid as <-.
      by rewrite nd_eq_scalar_get, Hv.
    + intros rec1 rec2 r c Hin1 Hin2 Hne.
      apply list_elem_of_lookup in Hin1 as [i1 Hi1].
      apply list_elem_of_lookup in Hin2 as [i2 Hi2].
      destruct (Forall2_lookup_r _ _ _ _ _ Hrecs Hi1)
        as (seg1 & _ & cid1 & _ & ->).
      destruct (Forall2_lookup_r _ _ _ _ _ Hrecs Hi2)
        as (seg2 & _ & cid2 & _ & ->).
      simpl in *. apply nd_eq_scalar_disjoint. congruence.
  - cbv zeta. split; [vm_compute; reflexivity|].
    split; [reflexivity|]. split; [reflexivity|].
    intros r c Hr Hc.
    destruct r as [|[|[|[|r]]]]; [| | | |lia];
      destruct c as [|[|[|[|c]]]]; try lia; vm_compute; auto.
Qed.

Lemma for_each_Ok_all {A B} (body : A → result (option B)) xs acc out :
  for_each body xs acc = Ok out → Forall (λ x, is_ok (body x)) xs.
Proof.
  intros (os & Hos & _)%for_each_Ok_iff.
  induction Hos as [|x o xs os Hx Hos IH]; constructor; [by exists o | done].
Qed.

Lemma rgb_to_id_Raise (color : ndarray3) (e : py_error) :
  Panoptic.rgb_to_id color = Raise e → e = IndexError.
Proof.
  unfold Panoptic.rgb_to_id, nd3_channel. simpl.
  destruct (nd3_shape color) as [[h w] c].
  repeat (case_decide; simpl; [|by intros [= <-]]). done.
Qed.

Lemma panoptic_loop_Raise segs seg_id_map catid_to_classid e :
  Panoptic.panoptic_loop segs seg_id_map catid_to_classid [] = Raise e →
  ∃ seg, seg ∈ segs ∧ e = KeyError (Panoptic.seg_category_id seg) ∧
         catid_to_classid !! Panoptic.seg_category_id seg = None.
Proof.
  rewrite panoptic_loop_for_each.
  intros (pre & seg & post & -> & _ & Hseg)%for_each_Raise_iff.
  exists seg. split; [apply elem_of_app; right; left|].
  unfold panoptic_body in Hseg.
  destruct (dict_get catid_to_classid _) as [cid|e'] eqn:Hget; [done|].
  simpl in Hseg. injection Hseg as ->.
  apply dict_get_Raise in Hget as [Hnone ->]. done.
Qed.

Lemma index_panoptic_structures_lookup (pd : Panoptic.panoptic_data) (k : Z) :
  ((Panoptic.index_panoptic_structures pd).1 !! k = None ↔
   k ∉ img_id <$> Panoptic.images pd) ∧
  ((Panoptic.index_panoptic_structures pd).2 !! k = None ↔
   k ∉ Panoptic.pan_image_id <$> Panoptic.annotations pd).
Proof.
  unfold Panoptic.index_panoptic_structures. simpl.
  split; apply dict_comprehension_lookup_None.
Qed.

(** C9. A request for an image id that is missing from the image index
    or from the annotation index fails with [KeyError] for that id and
    returns nothing.  For an id present in both, the two lookups succeed:
    the call returns a result once the PNG decodes and the categories are
    mapped, and a [KeyError] it raises can only be one for an unmapped
    segment category (or one that the PNG reader itself raised).  In the
    indexes built by
    [index_panoptic_structures] an id is missing exactly when no image
    (resp. annotation) of the container carries it. *)
Theorem get_panoptic_gt_for_image_lookup_miss (fs : Panoptic.disk)
    (image_id : Z) (img_id_to_img : gmap Z image_info)
    (img_id_to_ann : gmap Z Panoptic.pan_annotation)
    (catid_to_classid : gmap Z nat) (dir : string) :
  let call :=
    Panoptic.get_panoptic_gt_for_image fs image_id img_id_to_img
      img_id_to_ann catid_to_classid dir in
  (img_id_to_img !! image_id = None ∨ img_id_to_ann !! image_id = None →
   call = Raise (KeyError image_id) ∧ ¬ is_ok call) ∧
  (∀ img_info ann,
     img_id_to_img !! image_id = Some img_info →
     img_id_to_ann !! image_id = Some ann →
     dict_get img_id_to_img image_id = Ok img_info ∧
     dict_get img_id_to_ann image_id = Ok ann ∧
     (∀ rgb seg_id_map,
        fs (Panoptic.os_path_join dir (Panoptic.pan_file_name ann))
        = Some (Ok rgb) →
        Panoptic.rgb_to_id rgb = Ok seg_id_map →
        Forall (λ seg, is_Some (catid_to_classid
                                 !! Panoptic.seg_category_id seg))
               (Panoptic.segments_info ann) →
        is_ok call) ∧
     (∀ k, call = Raise (KeyError k) →
           fs (Panoptic.os_path_join dir (Panoptic.pan_file_name ann))
           = Some (Raise (KeyError k)) ∨
           ∃ seg, seg ∈ Panoptic.segments_info ann ∧
                  Panoptic.seg_category_id seg = k ∧
                  catid_to_classid !! k = None)) ∧
  (∀ pd,
     ((Panoptic.index_panoptic_structures pd).1 !! image_id = None ↔
      image_id ∉ img_id <$> Panoptic.images pd) ∧
     ((Panoptic.index_panoptic_structures pd).2 !! image_id = None ↔
      image_id ∉ Panoptic.pan_image_id <$> Panoptic.annotations pd)).
Proof.
  intros call. split; [|split].
  - intros Hmiss.
    assert (Hcall : call = Raise (KeyError image_id)).
    { subst call. unfold Panoptic.get_panoptic_gt_for_image, dict_get.
      destruct (img_id_to_img !! image_id) as [img_info|]; simpl; [|done].
      destruct Hmiss as [[=]|Hann]. by rewrite Hann. }
    split; [done|]. rewrite Hcall. by intros [? [=]].
  - intros img_info ann Himg Hann.
    split; [by apply dict_get_Ok|]. split; [by apply dict_get_Ok|].
    split.
    + intros rgb seg_id_map Hfile Hdecode Hcats. subst call.
      rewrite (get_panoptic_gt_for_image_decoded _ _ _ _ _ _ _ _ _ _
                 Himg Hann Hfile Hdecode).
      destruct (panoptic_loop_total _ seg_id_map _ Hcats) as [recs ->].
      simpl. by eexists.
    + intros k. subst call.
      unfold Panoptic.get_panoptic_gt_for_image, dict_get.
      rewrite Himg, Hann. simpl.
      destruct (fs _) as [[rgb|e]|]; simpl; [|by intros [= ->]; left|done].
      destruct (Panoptic.rgb_to_id rgb) as [seg_id_map|e] eqn:Hdecode; simpl.
      * destruct (nd_shape seg_id_map) as [H W].
        destruct (Panoptic.panoptic_loop _ _ _ _) as [recs|e] eqn:Hloop;
          simpl; [done|].
        intros [= ->]. right.
        apply panoptic_loop_Raise in Hloop as (seg & Hin & [= Hk] & Hnone).
        exists seg. by rewrite Hk.
      * apply rgb_to_id_Raise in Hdecode as ->. done.
  - intros pd. apply index_panoptic_structures_lookup.
Qed.

(** ** The instance-segmentation assembler *)

Lemma shape_differs_false (m : ndarray) (height width : Z) :
  Segmentation.shape_differs m height width = false ↔
  Z.of_nat (nd_shape m).1 = height ∧ Z.of_nat (nd_shape m).2 = width.
Proof.
  unfold Segmentation.shape_differs.
  rewrite negb_false_iff, andb_true_iff, !Z.eqb_eq. done.
Qed.

Lemma instance_body_Ok coco height width catid_to_classid ann o :
  instance_body coco height width catid_to_classid ann = Ok o →
  if shape_matches coco height width ann
  then ∃ rec, o = Some rec ∧ instance_record_of coco catid_to_classid ann rec
  else o = None.
Proof.
  unfold instance_body, shape_matches.
  intros (cid & Hcid & Hrest)%bind_Ok. apply dict_get_Ok in Hcid.
  apply bind_Ok in Hrest as (m & Hm & Hrest). rewrite Hm.
  destruct (Segmentation.shape_differs _ _ _); simpl.
  - by injection Hrest as <-.
  - injection Hrest as <-. eexists. split; [done|]. by split.
Qed.

Lemma instance_body_total coco height width catid_to_classid ann :
  is_Some (catid_to_classid !! ann_category_id ann) →
  is_ok (coco_annToMask coco ann) →
  is_ok (instance_body coco height width catid_to_classid ann).
Proof.
  intros [cid Hcid] [m Hm]. unfold instance_body, dict_get.
  rewrite Hcid. simpl. rewrite Hm. simpl.
  destruct (Segmentation.shape_differs _ _ _); by eexists.
Qed.

Lemma length_filter_complement {A} (b : A → bool) (l : list A) :
  length (filter (λ x, b x = true) l) + length (filter (λ x, b x = false) l)
  = length l.
Proof.
  induction l as [|x l IH]; [done|].
  rewrite !filter_cons. destruct (b x); simpl; lia.
Qed.

(** C6. In the instance assembler (image found, categories mapped, masks
    decoded) the output holds, in order, one record for every annotation
    whose decoded mask has the declared shape [(height, width)]; the
    record carries the decoded mask itself, unchanged.  Annotations whose
    mask has another shape are left out without any exception: the call
    still returns, and the output is shorter than the annotation list by
    exactly the number of mismatching annotations. *)
Theorem get_instance_gt_for_image_shape_policy (coco : coco_api)
    (image_id : Z) (catid_to_classid : gmap Z nat) (img_info : image_info)
    (Himg : coco_imgs coco !! image_id = Some img_info)
    (Hcats : Forall (λ ann, is_Some (catid_to_classid !! ann_category_id ann))
                    (coco_img_anns coco image_id))
    (Hdecoded : Forall (λ ann, is_ok (coco_annToMask coco ann))
                       (coco_img_anns coco image_id)) :
  let anns := coco_img_anns coco image_id in
  let height := img_height img_info in
  let width := img_width img_info in
  let matches := shape_matches coco height width in
  (∀ ann, matches ann = true ↔
          ∃ m, coco_annToMask coco ann = Ok m ∧
               Z.of_nat (nd_shape m).1 = height ∧
               Z.of_nat (nd_shape m).2 = width) ∧
  ∃ out,
    Segmentation.get_instance_gt_for_image coco image_id catid_to_classid
    = Ok out ∧
    Forall2 (instance_record_of coco catid_to_classid)
            (filter (λ ann, matches ann = true) anns) out ∧
    (∀ ann, ann ∈ anns → matches ann = true →
            ∃ rec, rec ∈ out ∧ coco_annToMask coco ann = Ok (mask rec) ∧
                   instance_id rec = Some (ann_id ann)) ∧
    (∀ rec, rec ∈ out →
            ∃ ann, ann ∈ anns ∧ matches ann = true ∧
                   coco_annToMask coco ann = Ok (mask rec) ∧
                   instance_id rec = Some (ann_id ann)) ∧
    length out + length (filter (λ ann, matches ann = false) anns)
    = length anns.
Proof.
  intros anns height width matches. split.
  { intros ann. subst matches. unfold shape_matches.
    destruct (coco_annToMask coco ann) as [m|e].
    - rewrite negb_true_iff, shape_differs_false. split.
      + intros ?. by exists m.
      + by intros (m' & [= <-] & ?).
    - split; [done|]. by intros (m & [=] & _). }
  assert (Hcall :
    Segmentation.get_instance_gt_for_image coco image_id catid_to_classid
    = for_each (instance_body coco height width catid_to_classid) anns []).
  { unfold Segmentation.get_instance_gt_for_image, dict_get.
    rewrite Himg. simpl. apply instance_loop_for_each. }
  destruct (for_each_total (instance_body coco height width catid_to_classid)
              anns []) as [out Hout].
  { apply Forall_forall. intros ann Hin.
    rewrite Forall_forall in Hcats, Hdecoded.
    apply instance_body_total; auto. }
  exists out. split; [by rewrite Hcall|].
  pose proof (for_each_Ok_filter _ matches
                (instance_record_of coco catid_to_classid)
                (instance_body_Ok coco height width catid_to_classid)
                anns out Hout) as Hrecs.
  split; [done|]. split; [|split].
  - intros ann Hin Hm.
    assert (Hin' : ann ∈ filter (λ ann, matches ann = true) anns)
      by by apply list_elem_of_filter.
    apply list_elem_of_lookup in Hin' as [i Hi].
    destruct (Forall2_lookup_l _ _ _ _ _ Hrecs Hi) as (rec & Hrec & Hid & _ & Hmask).
    exists rec. split; [by eapply list_elem_of_lookup_2|done].
  - intros rec Hin. apply list_elem_of_lookup in Hin as [i Hi].
    destruct (Forall2_lookup_r _ _ _ _ _ Hrecs Hi) as (ann & Hann & Hid & _ & Hmask).
    apply list_elem_of_lookup_2, list_elem_of_filter in Hann as [Hm Hin].
    by exists ann.
  - rewrite <-(Forall2_length _ _ _ Hrecs).
    apply length_filter_complement.
Qed.

(** ** The calls unfolded *)

Lemma get_detection_gt_for_image_found {mem : memory}
    coco image_id catid_to_classid img_info :
  coco_imgs coco !! image_id = Some img_info →
  Detection.get_detection_gt_for_image mem coco image_id catid_to_classid
  = for_each (detection_body mem (img_height img_info) (img_width img_info)
                catid_to_classid)
      (coco_img_anns coco image_id) [].
Proof.
  intros Himg. unfold Detection.get_detection_gt_for_image, dict_get.
  rewrite Himg. simpl. apply detection_loop_for_each.
Qed.

Lemma get_instance_gt_for_image_found coco image_id catid_to_classid img_info :
  coco_imgs coco !! image_id = Some img_info →
  Segmentation.get_instance_gt_for_image coco image_id catid_to_classid
  = for_each (instance_body coco (img_height img_info) (img_width img_info)
                catid_to_classid)
      (coco_img_anns coco image_id) [].
Proof.
  intros Himg. unfold Segmentation.get_instance_gt_for_image, dict_get.
  rewrite Himg. simpl. apply instance_loop_for_each.
Qed.

Lemma get_detection_gt_for_image_Ok_inv {mem : memory}
    coco image_id catid_to_classid out :
  Detection.get_detection_gt_for_image mem coco image_id catid_to_classid = Ok out →
  ∃ img_info,
    coco_imgs coco !! image_id = Some img_info ∧
    for_each (detection_body mem (img_height img_info) (img_width img_info)
                catid_to_classid)
      (coco_img_anns coco image_id) [] = Ok out.
Proof.
  intros Hcall.
  destruct (coco_imgs coco !! image_id) as [img_info|] eqn:Himg.
  - exists img_info. split; [done|].
    by rewrite <-(get_detection_gt_for_image_found _ _ _ _ Himg).
  - unfold Detection.get_detection_gt_for_image, dict_get in Hcall.
    by rewrite Himg in Hcall.
Qed.

Lemma get_instance_gt_for_image_Ok_inv coco image_id catid_to_classid out :
  Segmentation.get_instance_gt_for_image coco image_id catid_to_classid
  = Ok out →
  ∃ img_info,
    coco_imgs coco !! image_id = Some img_info ∧
    for_each (instance_body coco (img_height img_info) (img_width img_info)
                catid_to_classid)
      (coco_img_anns coco image_id) [] = Ok out.
Proof.
  intros Hcall.
  destruct (coco_imgs coco !! image_id) as [img_info|] eqn:Himg.
  - exists img_info. split; [done|].
    by rewrite <-(get_instance_gt_for_image_found _ _ _ _ Himg).
  - unfold Segmentation.get_instance_gt_for_image, dict_get in Hcall.
    by rewrite Himg in Hcall.
Qed.

Lemma get_panoptic_gt_for_image_Ok_inv fs image_id img_id_to_img
    img_id_to_ann catid_to_classid dir recs hw :
  Panoptic.get_panoptic_gt_for_image fs image_id img_id_to_img img_id_to_ann
    catid_to_classid dir = Ok (recs, hw) →
  ∃ img_info ann rgb seg_id_map,
    img_id_to_img !! image_id = Some img_info ∧
    img_id_to_ann !! image_id = Some ann ∧
    fs (Panoptic.os_path_join dir (Panoptic.pan_file_name ann)) = Some (Ok rgb) ∧
    Panoptic.rgb_to_id rgb = Ok seg_id_map ∧
    hw = nd_shape seg_id_map ∧
    Panoptic.panoptic_loop (Panoptic.segments_info ann) seg_id_map
      catid_to_classid [] = Ok recs.
Proof.
  unfold Panoptic.get_panoptic_gt_for_image, dict_get.
  destruct (img_id_to_img !! image_id) as [img_info|]; simpl; [|done].
  destruct (img_id_to_ann !! image_id) as [ann|]; simpl; [|done].
  destruct (fs _) as [[rgb|]|] eqn:Hfile; simpl; [|done..].
  destruct (Panoptic.rgb_to_id rgb) as [seg_id_map|] eqn:Hdecode;
    simpl; [|done].
  destruct (nd_shape seg_id_map) as [H W] eqn:Hshape.
  destruct (Panoptic.panoptic_loop _ _ _ _) as [recs'|] eqn:Hloop;
    simpl; [|done].
  intros [= <- <-]. exists img_info, ann, rgb, seg_id_map.
  by rewrite Hshape.
Qed.

Lemma detection_body_Raise {mem : memory} height width catid_to_classid ann e :
  detection_body mem height width catid_to_classid ann = Raise e →
  (catid_to_classid !! ann_category_id ann = None ∧
   e = KeyError (ann_category_id ann)) ∨
  Detection.bbox_to_mask mem (ann_bbox ann) height width = Raise e.
Proof.
  unfold detection_body.
  destruct (dict_get catid_to_classid _) as [cid|e'] eqn:Hget; simpl.
  - destruct (Detection.bbox_to_mask mem _ _ _); simpl; [done|].
    intros [= ->]. by right.
  - intros [= ->]. left. by apply dict_get_Raise.
Qed.

Lemma instance_body_Raise coco height width catid_to_classid ann e :
  instance_body coco height width catid_to_classid ann = Raise e →
  (catid_to_classid !! ann_category_id ann = None ∧
   e = KeyError (ann_category_id ann)) ∨
  (is_Some (catid_to_classid !! ann_category_id ann) ∧
   coco_annToMask coco ann = Raise e).
Proof.
  unfold instance_body.
  destruct (dict_get catid_to_classid _) as [cid|e'] eqn:Hget; simpl.
  - apply dict_get_Ok in Hget.
    destruct (coco_annToMask coco ann) as [m|e'']; simpl.
    + by destruct (Segmentation.shape_differs _ _ _).
    + intros [= ->]. right. split; [by eexists | done].
  - intros [= ->]. left. by apply dict_get_Raise.
Qed.

(** The first element of a list that fails a test. *)
Lemma first_failing {A} (P : A → Prop) `{∀ x, Decision (P x)} (l : list A)
    (x : A) :
  x ∈ l → ¬ P x →
  ∃ pre a post, l = pre ++ a :: post ∧ Forall P pre ∧ ¬ P a.
Proof.
  induction l as [|y l IH]; [by intros ?%elem_of_nil|].
  intros Hin Hx. destruct (decide (P y)) as [Hy|Hy].
  - apply elem_of_cons in Hin as [->|Hin]; [done|].
    destruct (IH Hin Hx) as (pre & a & post & -> & Hpre & Ha).
    exists (y :: pre), a, post. split; [done|]. split; [by constructor|done].
  - exists [], y, l. split; [done|]. split; [constructor|done].
Qed.

Lemma for_each_unmapped {A B} (body : A → result (option B)) xs acc x :
  x ∈ xs → ¬ is_ok (body x) → ∃ e, for_each body xs acc = Raise e.
Proof.
  intros Hin Hx.
  destruct (for_each body xs acc) as [out|e] eqn:Hres; [|by exists e].
  apply for_each_Ok_all in Hres. rewrite Forall_forall in Hres.
  destruct Hx. by apply Hres.
Qed.

Lemma detection_body_unmapped {mem : memory} height width catid_to_classid ann :
  catid_to_classid !! ann_category_id ann = None →
  ¬ is_ok (detection_body mem height width catid_to_classid ann).
Proof.
  intros Hnone [o Ho]. unfold detection_body, dict_get in Ho.
  by rewrite Hnone in Ho.
Qed.

Lemma instance_body_unmapped coco height width catid_to_classid ann :
  catid_to_classid !! ann_category_id ann = None →
  ¬ is_ok (instance_body coco height width catid_to_classid ann).
Proof.
  intros Hnone [o Ho]. unfold instance_body, dict_get in Ho.
  by rewrite Hnone in Ho.
Qed.

Lemma panoptic_body_unmapped seg_id_map catid_to_classid seg :
  catid_to_classid !! Panoptic.seg_category_id seg = None →
  ¬ is_ok (panoptic_body seg_id_map catid_to_classid seg).
Proof.
  intros Hnone [o Ho]. unfold panoptic_body, dict_get in Ho.
  by rewrite Hnone in Ho.
Qed.

(** C10 (amended). If an annotation (a segment, in the panoptic view)
    of the requested image has a category id that is not a key of the
    mapping, no assembler returns a record list: the annotation is not
    skipped.  The call fails with the [KeyError] of the first such
    annotation when it gets as far as that annotation: the image id is
    known and, for the annotations before it, the boxes can be
    rasterised (detection) or the masks decode (instance); in the
    panoptic view, the image is indexed and its PNG decodes.  An unknown
    image id is a [KeyError] too, for that id. *)
Theorem unknown_category_fails (catid_to_classid : gmap Z nat) :
  let mapped cat := is_Some (catid_to_classid !! cat) in
  (∀ mem coco image_id ann,
     ann ∈ coco_img_anns coco image_id →
     catid_to_classid !! ann_category_id ann = None →
     let call :=
       Detection.get_detection_gt_for_image mem coco image_id
         catid_to_classid in
     ¬ is_ok call ∧
     (coco_imgs coco !! image_id = None → call = Raise (KeyError image_id)) ∧
     ∃ pre a post,
       coco_img_anns coco image_id = pre ++ a :: post ∧
       Forall (λ a', mapped (ann_category_id a')) pre ∧
       catid_to_classid !! ann_category_id a = None ∧
       ∀ img_info,
         coco_imgs coco !! image_id = Some img_info →
         Forall (λ a', is_ok (Detection.bbox_to_mask mem (ann_bbox a')
                                (img_height img_info) (img_width img_info)))
                pre →
         call = Raise (KeyError (ann_category_id a))) ∧
  (∀ coco image_id ann,
     ann ∈ coco_img_anns coco image_id →
     catid_to_classid !! ann_category_id ann = None →
     let call :=
       Segmentation.get_instance_gt_for_image coco image_id catid_to_classid in
     ¬ is_ok call ∧
     (coco_imgs coco !! image_id = None → call = Raise (KeyError image_id)) ∧
     ∃ pre a post,
       coco_img_anns coco image_id = pre ++ a :: post ∧
       Forall (λ a', mapped (ann_category_id a')) pre ∧
       catid_to_classid !! ann_category_id a = None ∧
       ∀ img_info,
         coco_imgs coco !! image_id = Some img_info →
         Forall (λ a', is_ok (coco_annToMask coco a')) pre →
         call = Raise (KeyError (ann_category_id a))) ∧
  (∀ fs image_id img_id_to_img img_id_to_ann dir ann seg,
     img_id_to_ann !! image_id = Some ann →
     seg ∈ Panoptic.segments_info ann →
     catid_to_classid !! Panoptic.seg_category_id seg = None →
     let call :=
       Panoptic.get_panoptic_gt_for_image fs image_id img_id_to_img
         img_id_to_ann catid_to_classid dir in
     ¬ is_ok call ∧
     (img_id_to_img !! image_id = None → call = Raise (KeyError image_id)) ∧
     ∃ pre s post,
       Panoptic.segments_info ann = pre ++ s :: post ∧
       Forall (λ s', mapped (Panoptic.seg_category_id s')) pre ∧
       catid_to_classid !! Panoptic.seg_category_id s = None ∧
       ∀ img_info rgb seg_id_map,
         img_id_to_img !! image_id = Some img_info →
         fs (Panoptic.os_path_join dir (Panoptic.pan_file_name ann))
         = Some (Ok rgb) →
         Panoptic.rgb_to_id rgb = Ok seg_id_map →
         call = Raise (KeyError (Panoptic.seg_category_id s))).
Proof.
  intros mapped. split; [|split].
  - intros mem coco image_id ann Hin Hnone call. split; [|split].
    + intros [out Hout]. subst call.
      apply get_detection_gt_for_image_Ok_inv in Hout as (img_info & _ & Hout).
      apply for_each_Ok_all in Hout. rewrite Forall_forall in Hout.
      by eapply detection_body_unmapped, Hout.
    + intros Himg. subst call.
      unfold Detection.get_detection_gt_for_image, dict_get.
      by rewrite Himg.
    + destruct (first_failing (λ a', mapped (ann_category_id a')) _ ann Hin)
        as (pre & a & post & Hsplit & Hpre & Ha).
      { unfold mapped. rewrite Hnone. by intros [? [=]]. }
      unfold mapped in Ha. apply eq_None_not_Some in Ha.
      exists pre, a, post. do 3 (split; [done|]).
      intros img_info Himg Hboxes. subst call.
      rewrite (get_detection_gt_for_image_found _ _ _ _ Himg).
      apply for_each_Raise_iff. exists pre, a, post. split; [done|]. split.
      * apply Forall_forall. intros a' Ha'.
        rewrite Forall_forall in Hpre, Hboxes.
        destruct (Hpre a' Ha') as [cid Hcid].
        destruct (Hboxes a' Ha') as [m Hm].
        unfold detection_body, dict_get. rewrite Hcid. simpl. rewrite Hm.
        by eexists.
      * unfold detection_body, dict_get. by rewrite Ha.
  - intros coco image_id ann Hin Hnone call. split; [|split].
    + intros [out Hout]. subst call.
      apply get_instance_gt_for_image_Ok_inv in Hout as (img_info & _ & Hout).
      apply for_each_Ok_all in Hout. rewrite Forall_forall in Hout.
      by eapply instance_body_unmapped, Hout.
    + intros Himg. subst call.
      unfold Segmentation.get_instance_gt_for_image, dict_get.
      by rewrite Himg.
    + destruct (first_failing (λ a', mapped (ann_category_id a')) _ ann Hin)
        as (pre & a & post & Hsplit & Hpre & Ha).
      { unfold mapped. rewrite Hnone. by intros [? [=]]. }
      unfold mapped in Ha. apply eq_None_not_Some in Ha.
      exists pre, a, post. do 3 (split; [done|]).
      intros img_info Himg Hmasks. subst call.
      rewrite (get_instance_gt_for_image_found _ _ _ _ Himg).
      apply for_each_Raise_iff. exists pre, a, post. split; [done|]. split.
      * apply Forall_forall. intros a' Ha'.
        rewrite Forall_forall in Hpre, Hmasks.
        apply instance_body_total; [by apply Hpre | by apply Hmasks].
      * unfold instance_body, dict_get. by rewrite Ha.
  - intros fs image_id img_id_to_img img_id_to_ann dir ann seg
      Hann Hin Hnone call. split; [|split].
    + intros [[recs hw] Hout]. subst call.
      apply get_panoptic_gt_for_image_Ok_inv in Hout
        as (img_info & ann' & rgb & seg_id_map & _ & Hann' & _ & _ & _ & Hloop).
      assert (ann' = ann) as -> by congruence.
      rewrite panoptic_loop_for_each in Hloop.
      apply for_each_Ok_all in Hloop. rewrite Forall_forall in Hloop.
      by eapply panoptic_body_unmapped, Hloop.
    + intros Himg. subst call.
      unfold Panoptic.get_panoptic_gt_for_image, dict_get.
      by rewrite Himg.
    + destruct (first_failing
                  (λ s', mapped (Panoptic.seg_category_id s')) _ seg Hin)
        as (pre & s & post & Hsplit & Hpre & Hs).
      { unfold mapped. rewrite Hnone. by intros [? [=]]. }
      unfold mapped in Hs. apply eq_None_not_Some in Hs.
      exists pre, s, post. do 3 (split; [done|]).
      intros img_info rgb seg_id_map Himg Hfile Hdecode. subst call.
      rewrite (get_panoptic_gt_for_image_decoded _ _ _ _ _ _ _ _ _ _
                 Himg Hann Hfile Hdecode).
      rewrite panoptic_loop_for_each.
      assert (Hloop :
        for_each (panoptic_body seg_id_map catid_to_classid)
          (Panoptic.segments_info ann) []
        = Raise (KeyError (Panoptic.seg_category_id s))).
      { apply for_each_Raise_iff. exists pre, s, post.
        split; [done|]. split.
        - eapply Forall_impl; [exact Hpre|].
          intros s' [cid Hcid]. unfold panoptic_body, dict_get.
          rewrite Hcid. by eexists.
        - unfold panoptic_body, dict_get. by rewrite Hs. }
      by rewrite Hloop.
Qed.

(** C10, two calls on an image with an unmapped category that do not end
    in a key-lookup error: a detection call in which an annotation with a
    NaN box precedes the unmapped one raises [ValueError], and a panoptic
    call whose PNG is missing raises [FileNotFoundError]. *)
Lemma unknown_category_other_error :
  (let catid_to_classid := Detection.build_category_id_mapping nan_box_coco in
   (∃ ann, ann ∈ coco_img_anns nan_box_coco 1 ∧
           catid_to_classid !! ann_category_id ann = None) ∧
   Detection.get_detection_gt_for_image sixteen_gib nan_box_coco 1
     catid_to_classid = Raise ValueError) ∧
  (let catid_to_classid := category_mapping_of [Category 5 "airplane"] in
   let idx := Panoptic.index_panoptic_structures scenario_data in
   (∃ ann seg, idx.2 !! 42%Z = Some ann ∧
               seg ∈ Panoptic.segments_info ann ∧
               catid_to_classid !! Panoptic.seg_category_id seg = None) ∧
   Panoptic.get_panoptic_gt_for_image (λ _, None) 42 idx.1 idx.2
     catid_to_classid "panoptic_val2017"
   = Raise (FileNotFoundError "panoptic_val2017/000000000042.png")).
Proof.
  split.
  - split; [|vm_compute; reflexivity].
    eexists. split; [right; left|]. vm_compute. reflexivity.
  - split; [|vm_compute; reflexivity].
    eexists _, (Panoptic.SegmentInfo 2000 18).
    split; [vm_compute; reflexivity|].
    split; [right; left|]. vm_compute. reflexivity.
Qed.

(** ** Invariants of the produced records *)

Lemma zeros_binary (h w : nat) : nd_binary (zeros h w).
Proof.
  unfold nd_binary, zeros. simpl.
  apply Forall_replicate, Forall_replicate. by left.
Qed.

Lemma nd_fill_slice_binary (a : ndarray) (y0 y1 x0 x1 : Z) :
  nd_binary a → nd_binary (nd_fill_slice a y0 y1 x0 x1 1).
Proof.
  unfold nd_binary, nd_fill_slice. destruct a as [[h w] rows]. simpl.
  intros Hrows. apply Forall_forall. intros row' Hin.
  apply list_elem_of_lookup in Hin as [r Hr].
  rewrite list_lookup_imap in Hr.
  destruct (rows !! r) as [row|] eqn:Hrow; simpl in Hr; [|done].
  injection Hr as <-.
  apply Forall_forall. intros v Hv.
  apply list_elem_of_lookup in Hv as [c Hc].
  rewrite list_lookup_imap in Hc.
  destruct (row !! c) as [old|] eqn:Hold; simpl in Hc; [|done].
  injection Hc as <-.
  destruct (in_slice h y0 y1 r && in_slice w x0 x1 c); [by right|].
  rewrite Forall_forall in Hrows.
  assert (Hin : row ∈ rows) by by eapply list_elem_of_lookup_2.
  specialize (Hrows row Hin). rewrite Forall_forall in Hrows.
  apply Hrows. by eapply list_elem_of_lookup_2.
Qed.

Lemma bbox_to_mask_Ok_inv {mem : memory} (b : bbox) (height width : Z)
    (m : ndarray) :
  Detection.bbox_to_mask mem b height width = Ok m →
  (0 ≤ height)%Z ∧ (0 ≤ width)%Z ∧
  nd_shape m = (Z.to_nat height, Z.to_nat width) ∧
  nd_wf m ∧ nd_binary m.
Proof.
  destruct b as [[[x y] w] h]. unfold Detection.bbox_to_mask.
  intros (z & Hz & Hrest)%bind_Ok.
  apply bind_Ok in Hrest as (rx & _ & Hrest).
  apply bind_Ok in Hrest as (ry & _ & Hrest).
  apply bind_Ok in Hrest as (rx1 & _ & Hrest).
  apply bind_Ok in Hrest as (ry1 & _ & [= <-]).
  apply np_zeros_Ok_inv in Hz as (? & ? & _ & ->).
  split; [done|]. split; [done|].
  split; [by rewrite nd_fill_slice_shape|].
  split; [apply nd_fill_slice_wf, zeros_wf|].
  apply nd_fill_slice_binary, zeros_binary.
Qed.

Lemma detection_body_Ok {mem : memory} height width catid_to_classid ann o :
  detection_body mem height width catid_to_classid ann = Ok o →
  ∃ cid m,
    o = Some (GtRecord None cid m) ∧
    catid_to_classid !! ann_category_id ann = Some cid ∧
    Detection.bbox_to_mask mem (ann_bbox ann) height width = Ok m.
Proof.
  unfold detection_body. intros (cid & Hcid & Hrest)%bind_Ok.
  apply bind_Ok in Hrest as (m & Hm & [= <-]).
  apply dict_get_Ok in Hcid. by exists cid, m.
Qed.

Lemma panoptic_records_instance_ids segs seg_id_map catid_to_classid recs :
  Forall2 (panoptic_record_of seg_id_map catid_to_classid) segs recs →
  instance_id <$> recs = Some <$> (Panoptic.seg_id <$> segs).
Proof.
  induction 1 as [|seg rec segs recs (cid & _ & ->) _ IH]; [done|].
  csimpl. by rewrite IH.
Qed.

(** C7 (amended). With the mapping built from a list of [N] categories,
    every record an assembler returns has a mask with cells in {0, 1} (for
    the instance view: when the decoder returns such masks) and a
    [class_id] below [N].  In the detection and instance views the mask
    shape is the declared [(height, width)] of the image.  In the panoptic
    view the mask shape is the shape [(H, W)] of the decoded PNG that the
    call returns, which is the declared one when the PNG has the declared
    size; [instance_id] is the id of the record's segment, the ids follow
    the segment list, and they are pairwise distinct when the segment ids
    are. *)
Theorem ground_truth_record_invariants (cats : list category) :
  let catid_to_classid := category_mapping_of cats in
  let N := length cats in
  (∀ mem coco image_id recs,
     Detection.get_detection_gt_for_image mem coco image_id catid_to_classid
     = Ok recs →
     ∃ img_info,
       coco_imgs coco !! image_id = Some img_info ∧
       ∀ rec, rec ∈ recs →
         Z.of_nat (nd_shape (mask rec)).1 = img_height img_info ∧
         Z.of_nat (nd_shape (mask rec)).2 = img_width img_info ∧
         nd_wf (mask rec) ∧ nd_binary (mask rec) ∧
         class_id rec < N ∧ instance_id rec = None) ∧
  (∀ coco image_id recs,
     (∀ ann m, coco_annToMask coco ann = Ok m → nd_binary m) →
     Segmentation.get_instance_gt_for_image coco image_id catid_to_classid
     = Ok recs →
     ∃ img_info,
       coco_imgs coco !! image_id = Some img_info ∧
       ∀ rec, rec ∈ recs →
         Z.of_nat (nd_shape (mask rec)).1 = img_height img_info ∧
         Z.of_nat (nd_shape (mask rec)).2 = img_width img_info ∧
         nd_binary (mask rec) ∧ class_id rec < N ∧
         ∃ ann, ann ∈ coco_img_anns coco image_id ∧
                instance_id rec = Some (ann_id ann)) ∧
  (∀ fs image_id img_id_to_img img_id_to_ann dir recs H W,
     Panoptic.get_panoptic_gt_for_image fs image_id img_id_to_img
       img_id_to_ann catid_to_classid dir = Ok (recs, (H, W)) →
     ∃ img_info ann,
       img_id_to_img !! image_id = Some img_info ∧
       img_id_to_ann !! image_id = Some ann ∧
       (∀ rec, rec ∈ recs →
          nd_shape (mask rec) = (H, W) ∧
          nd_binary (mask rec) ∧ class_id rec < N ∧
          ∃ seg, seg ∈ Panoptic.segments_info ann ∧
                 instance_id rec = Some (Panoptic.seg_id seg)) ∧
       instance_id <$> recs
       = Some <$> (Panoptic.seg_id <$> Panoptic.segments_info ann) ∧
       (NoDup (Panoptic.seg_id <$> Panoptic.segments_info ann) →
        NoDup (instance_id <$> recs)) ∧
       (Z.of_nat H = img_height img_info →
        Z.of_nat W = img_width img_info →
        ∀ rec, rec ∈ recs →
          Z.of_nat (nd_shape (mask rec)).1 = img_height img_info ∧
          Z.of_nat (nd_shape (mask rec)).2 = img_width img_info)).
Proof.
  intros catid_to_classid N. split; [|split].
  - intros mem coco image_id recs Hcall.
    apply get_detection_gt_for_image_Ok_inv in Hcall as (img_info & Himg & Hloop).
    exists img_info. split; [done|]. intros rec Hin.
    apply for_each_Ok_iff in Hloop as (os & Hos & ->). simpl in Hin.
    apply list_elem_of_omap in Hin as (o & Ho & Hrec). simpl in Hrec. subst o.
    apply list_elem_of_lookup in Ho as [i Hi].
    destruct (Forall2_lookup_r _ _ _ _ _ Hos Hi) as (ann & _ & Hbody).
    apply detection_body_Ok in Hbody as (cid & m & [= ->] & Hcid & Hm).
    apply bbox_to_mask_Ok_inv in Hm as (Hh & Hw & Hshape & Hwf & Hbin).
    simpl. rewrite Hshape. simpl.
    split; [lia|]. split; [lia|]. split; [done|]. split; [done|].
    split; [|done]. by eapply category_mapping_of_bound.
  - intros coco image_id recs Hbinary Hcall.
    apply get_instance_gt_for_image_Ok_inv in Hcall as (img_info & Himg & Hloop).
    exists img_info. split; [done|]. intros rec Hin.
    apply (for_each_Ok_filter _
             (shape_matches coco (img_height img_info) (img_width img_info))
             (instance_record_of coco catid_to_classid)
             (instance_body_Ok coco _ _ catid_to_classid)) in Hloop.
    apply list_elem_of_lookup in Hin as [i Hi].
    destruct (Forall2_lookup_r _ _ _ _ _ Hloop Hi)
      as (ann & Hann & Hid & Hcid & Hmask).
    apply list_elem_of_lookup_2, list_elem_of_filter in Hann as [Hm Hann].
    unfold shape_matches in Hm. rewrite Hmask in Hm.
    apply negb_true_iff in Hm.
    apply shape_differs_false in Hm as [Hrows Hcols].
    split; [done|]. split; [done|].
    split; [by eapply Hbinary|].
    split; [by eapply category_mapping_of_bound|]. by exists ann.
  - intros fs image_id img_id_to_img img_id_to_ann dir recs H W Hcall.
    apply get_panoptic_gt_for_image_Ok_inv in Hcall
      as (img_info & ann & rgb & seg_id_map & Himg & Hann & _ & _ & Hhw & Hloop).
    exists img_info, ann. split; [done|]. split; [done|].
    apply panoptic_loop_records in Hloop.
    assert (Hrec : ∀ rec, rec ∈ recs →
      nd_shape (mask rec) = (H, W) ∧ nd_binary (mask rec) ∧
      class_id rec < N ∧
      ∃ seg, seg ∈ Panoptic.segments_info ann ∧
             instance_id rec = Some (Panoptic.seg_id seg)).
    { intros rec Hin. apply list_elem_of_lookup in Hin as [i Hi].
      destruct (Forall2_lookup_r _ _ _ _ _ Hloop Hi)
        as (seg & Hseg & cid & Hcid & ->).
      simpl. split; [done|]. split; [apply nd_eq_scalar_binary|].
      split; [by eapply category_mapping_of_bound|].
      exists seg. split; [by eapply list_elem_of_lookup_2|done]. }
    split; [done|].
    split; [by eapply panoptic_records_instance_ids|].
    split.
    + intros Hnd. rewrite (panoptic_records_instance_ids _ _ _ _ Hloop).
      by apply (NoDup_fmap_2 Some).
    + intros HH HW rec Hin. destruct (Hrec rec Hin) as (-> & _). done.
Qed.

(** C7, a panoptic record whose mask does not have the declared shape:
    image 7 is declared 4×4, its PNG is 1×1, and the assembler returns a
    1×1 mask. *)
Lemma panoptic_mask_shape_not_declared :
  let '(img_id_to_img, img_id_to_ann) :=
    Panoptic.index_panoptic_structures undersized_data in
  ∃ img_info rec,
    img_id_to_img !! 7%Z = Some img_info ∧
    img_height img_info = 4%Z ∧ img_width img_info = 4%Z ∧
    Panoptic.get_panoptic_gt_for_image undersized_disk 7 img_id_to_img
      img_id_to_ann (Panoptic.build_category_id_mapping undersized_data)
      "panoptic_val2017" = Ok ([rec], (1, 1)) ∧
    nd_shape (mask rec) = (1, 1) ∧
    Z.of_nat (nd_shape (mask rec)).1 ≠ img_height img_info.
Proof.
  simpl. exists (ImageInfo 7 4 4). eexists.
  split; [vm_compute; reflexivity|].
  split; [reflexivity|]. split; [reflexivity|].
  split; [vm_compute; reflexivity|].
  split; [reflexivity|]. simpl. lia.
Qed.

(** ** The theorems at concrete inputs *)

Lemma build_category_id_mapping_bijection_witness :
  NoDup (cat_id <$> Panoptic.categories scenario_data) ∧
  Panoptic.build_category_id_mapping scenario_data !! 18%Z = Some 2.
Proof.
  assert (Hnd : NoDup (cat_id <$> Panoptic.categories scenario_data)).
  { apply (bool_decide_unpack _). vm_compute. exact I. }
  split; [exact Hnd|].
  destruct (build_category_id_mapping_bijection scenario_data Hnd)
    as (_ & _ & Hpos & _).
  apply (Hpos 2 (Category 18 "dog")). reflexivity.
Defined.

Lemma rgb_to_id_pixelwise_witness :
  ∃ ids, Panoptic.rgb_to_id scenario_rgb = Ok ids ∧
         nd_get ids 0 0 = Some 1000%Z ∧ nd_get ids 3 3 = Some 2000%Z.
Proof.
  assert (Hwf : nd3_wf scenario_rgb).
  { split; [reflexivity|]. repeat constructor. }
  assert (Hrange : Forall (Forall (Forall (λ v, 0 ≤ v ≤ 255)%Z))
                     (nd3_rows scenario_rgb)).
  { apply (bool_decide_unpack _). vm_compute. exact I. }
  destruct (rgb_to_id_pixelwise scenario_rgb 4 4 eq_refl Hwf Hrange)
    as (ids & Hids & _ & _ & _ & Hget & _).
  exists ids. split; [exact Hids|].
  destruct (Hget 0 0 232%Z 3%Z 0%Z eq_refl) as [Htop _].
  destruct (Hget 3 3 208%Z 7%Z 0%Z eq_refl) as [Hbottom _].
  split; [exact Htop | exact Hbottom].
Defined.

Lemma bbox_to_mask_rectangle_witness :
  ∃ mask,
    Detection.bbox_to_mask sixteen_gib
      (float_of_dyadic (-5) 0, float_of_dyadic 2 0,
       float_of_dyadic 10 0, float_of_dyadic 3 0) 8 8 = Ok mask ∧
    nd_shape mask = (8, 8).
Proof.
  destruct (bbox_to_mask_rectangle sixteen_gib
              (float_of_dyadic (-5) 0) (float_of_dyadic 2 0)
              (float_of_dyadic 10 0) (float_of_dyadic 3 0) 8 8)
    as [(rx & ry & rx1 & ry1 & mask & _ & _ & _ & _ & _ & H) _];
    [lia | lia | allocatable_by_evaluation
     | exact I | exact I | exact I | exact I |].
  destruct H as (_ & _ & _ & _ & Hmask & Hshape & _).
  exists mask. split; [exact Hmask | exact Hshape].
Defined.

Lemma bbox_to_mask_inside_count_witness :
  ∃ mask,
    Detection.bbox_to_mask sixteen_gib
      (float_of_dyadic 11 (-3), float_of_dyadic 11 (-3),
       float_of_dyadic 10 (-3), float_of_dyadic 10 (-3)) 8 8 = Ok mask ∧
    Z.of_nat (count_ones mask) = 4%Z.
Proof.
  apply (bbox_to_mask_inside_count sixteen_gib
           (float_of_dyadic 11 (-3)) (float_of_dyadic 11 (-3))
           (float_of_dyadic 10 (-3)) (float_of_dyadic 10 (-3))
           8 8 1 1 3 3); try lia; try reflexivity;
    try allocatable_by_evaluation; vm_compute; by intros [=].
Defined.

Lemma bbox_to_mask_degenerate_witness :
  ∃ mask,
    Detection.bbox_to_mask sixteen_gib
      (float_of_dyadic 20 0, float_of_dyadic 2 0,
       float_of_dyadic 3 0, float_of_dyadic 3 0) 8 8 = Ok mask ∧
    mask = zeros 8 8.
Proof.
  destruct (bbox_to_mask_degenerate sixteen_gib
              (float_of_dyadic 20 0) (float_of_dyadic 2 0)
              (float_of_dyadic 3 0) (float_of_dyadic 3 0)
              8 8 20 2 23 5) as [Hzero Houtside];
    [lia | lia | allocatable_by_evaluation
     | reflexivity | reflexivity | reflexivity | reflexivity |].
  destruct Hzero as (mask & Hmask & Heq & _).
  { apply Houtside. left. lia. }
  exists mask. split; [exact Hmask | exact Heq].
Defined.

Lemma get_panoptic_gt_for_image_records_witness :
  ∃ recs,
    scenario_result = Ok (recs, (4, 4)) ∧ length recs = 2.
Proof.
  pose (idx := Panoptic.index_panoptic_structures scenario_data).
  assert (Himg : idx.1 !! 42%Z = Some (ImageInfo 42 4 4))
    by (vm_compute; reflexivity).
  assert (Hann : idx.2 !! 42%Z
                 = Some (Panoptic.PanAnnotation 42 "000000000042.png"
                           [Panoptic.SegmentInfo 1000 5;
                            Panoptic.SegmentInfo 2000 18]))
    by (vm_compute; reflexivity).
  assert (Hdecode : ∃ m, Panoptic.rgb_to_id scenario_rgb = Ok m ∧
                         nd_shape m = (4, 4))
    by (eexists; split; vm_compute; reflexivity).
  destruct Hdecode as (m & Hdecode & Hshape).
  destruct (get_panoptic_gt_for_image_records scenario_disk 42 idx.1 idx.2
              (Panoptic.build_category_id_mapping scenario_data)
              "panoptic_val2017" _ _ scenario_rgb m Himg Hann eq_refl Hdecode)
    as [(recs & Hcall & Hlen & _) _].
  { apply (bool_decide_unpack _). vm_compute. exact I. }
  exists recs. rewrite Hshape in Hcall. split; [exact Hcall | exact Hlen].
Defined.

Lemma get_instance_gt_for_image_shape_policy_witness :
  ∃ out,
    Segmentation.get_instance_gt_for_image two_annotations_coco 1
      (Segmentation.build_category_id_mapping two_annotations_coco) = Ok out ∧
    length out + 1 = 2.
Proof.
  assert (Himg : coco_imgs two_annotations_coco !! 1%Z
                 = Some (ImageInfo 1 2 2)) by (vm_compute; reflexivity).
  destruct (get_instance_gt_for_image_shape_policy two_annotations_coco 1
              (Segmentation.build_category_id_mapping two_annotations_coco)
              (ImageInfo 1 2 2) Himg)
    as (_ & out & Hcall & _ & _ & _ & Hlen).
  { apply (bool_decide_unpack _). vm_compute. exact I. }
  { repeat constructor; eexists; reflexivity. }
  exists out. split; [exact Hcall | exact Hlen].
Defined.

Lemma ground_truth_record_invariants_witness :
  ∃ recs,
    scenario_result = Ok (recs, (4, 4)) ∧
    ∀ rec, rec ∈ recs → nd_shape (mask rec) = (4, 4) ∧ class_id rec < 3.
Proof.
  destruct (ground_truth_record_invariants (Panoptic.categories scenario_data))
    as (_ & _ & Hpan).
  eexists. split; [vm_compute; reflexivity|].
  intros rec Hin.
  destruct (Hpan scenario_disk 42%Z
              (Panoptic.index_panoptic_structures scenario_data).1
              (Panoptic.index_panoptic_structures scenario_data).2
              "panoptic_val2017" _ 4 4 ltac:(vm_compute; reflexivity))
    as (img_info & ann & _ & _ & Hrec & _).
  destruct (Hrec rec Hin) as (Hshape & _ & Hclass & _).
  split; [exact Hshape | exact Hclass].
Defined.

Lemma get_panoptic_gt_for_image_lookup_miss_witness :
  Panoptic.get_panoptic_gt_for_image scenario_disk 99
    (Panoptic.index_panoptic_structures scenario_data).1
    (Panoptic.index_panoptic_structures scenario_data).2
    (Panoptic.build_category_id_mapping scenario_data) "panoptic_val2017"
  = Raise (KeyError 99).
Proof.
  destruct (get_panoptic_gt_for_image_lookup_miss scenario_disk 99
              (Panoptic.index_panoptic_structures scenario_data).1
              (Panoptic.index_panoptic_structures scenario_data).2
              (Panoptic.build_category_id_mapping scenario_data)
              "panoptic_val2017") as (Hmiss & _).
  destruct Hmiss as [Hcall _]; [left; vm_compute; reflexivity|].
  exact Hcall.
Defined.

Lemma unknown_category_fails_witness :
  ∃ k, Segmentation.get_instance_gt_for_image two_annotations_coco 1
         (category_mapping_of [Category 5 "airplane"])
       = Raise (KeyError k).
Proof.
  destruct (unknown_category_fails
              (category_mapping_of [Category 5 "airplane"]))
    as (_ & Hinst & _).
  destruct (Hinst two_annotations_coco 1%Z
              (Annotation 11 18
                 (float_of_dyadic 20 0, float_of_dyadic 0 0,
                  float_of_dyadic 1 0, float_of_dyadic 1 0)
                 (RLE [1%Z] (1%Z, 1%Z))))
    as (_ & _ & pre & a & post & _ & _ & _ & Hcall).
  - change (coco_img_anns two_annotations_coco 1) with two_annotations.
    unfold two_annotations. right. left.
  - vm_compute. reflexivity.
  - exists (ann_category_id a). apply (Hcall (ImageInfo 1 2 2)).
    + vm_compute. reflexivity.
    + apply Forall_forall. intros a' _. simpl.
      destruct (ann_id a' =? 10)%Z; eexists; reflexivity.
Defined.

(** * Further properties of the scripts *)

(** ** [rgb_to_id] *)

Lemma pixel_id_int64_take (px : list Z) :
  pixel_id_int64 (take 3 px) = pixel_id_int64 px.
Proof.
  unfold pixel_id_int64. cbv zeta.
  rewrite fmap_take, !lookup_take_lt by lia. done.
Qed.

Lemma rgb_to_id_get (color : ndarray3) (H W C : nat) (ids : ndarray) r c :
  nd3_shape color = (H, W, C) → Panoptic.rgb_to_id color = Ok ids →
  nd_get ids r c = pixel_id_int64 <$> nd3_get color r c.
Proof.
  intros Hshape Hids.
  destruct (decide (3 ≤ C)) as [HC|HC].
  - rewrite (rgb_to_id_rows color H W C Hshape HC) in Hids.
    injection Hids as <-. unfold nd_get, nd3_get. simpl.
    rewrite list_lookup_fmap.
    destruct (nd3_rows color !! r) as [row|]; simpl; [|done].
    by rewrite list_lookup_fmap.
  - rewrite rgb_to_id_IndexError in Hids; [done|]. rewrite Hshape. simpl. lia.
Qed.

Lemma nd3_get_wf (color : ndarray3) (r c : nat) (px : list Z) :
  nd3_wf color →
  Forall (Forall (Forall (λ v, 0 ≤ v ≤ 255)%Z)) (nd3_rows color) →
  nd3_get color r c = Some px →
  length px = (nd3_shape color).2 ∧ Forall (λ v, 0 ≤ v ≤ 255)%Z px.
Proof.
  intros [_ Hwf] Hrange Hget. unfold nd3_get in Hget.
  destruct (nd3_rows color !! r) as [row|] eqn:Hrow; simpl in Hget; [|done].
  apply list_elem_of_lookup_2 in Hrow, Hget.
  rewrite Forall_forall in Hwf, Hrange.
  destruct (Hwf row Hrow) as [_ Hpx]. specialize (Hrange row Hrow).
  rewrite Forall_forall in Hpx, Hrange. auto.
Qed.

(** X1. [rgb_to_id] returns an id map exactly when the array has at least
    three channels, and raises [IndexError] otherwise; the id map has the
    height and width of the array and depends on the first three channels
    only, so that two arrays that agree on them (an RGB image and the
    same image with an alpha channel) decode to the same ids. *)
Theorem rgb_to_id_first_three_channels (color : ndarray3) (H W C : nat)
    (Hshape : nd3_shape color = (H, W, C)) :
  (3 ≤ C ↔ is_ok (Panoptic.rgb_to_id color)) ∧
  (C < 3 ↔ Panoptic.rgb_to_id color = Raise IndexError) ∧
  (∀ ids, Panoptic.rgb_to_id color = Ok ids → nd_shape ids = (H, W)) ∧
  (∀ color' C',
     nd3_shape color' = (H, W, C') → 3 ≤ C → 3 ≤ C' →
     map (map (take 3)) (nd3_rows color') = map (map (take 3)) (nd3_rows color) →
     Panoptic.rgb_to_id color' = Panoptic.rgb_to_id color).
Proof.
  assert (Hsmall : C < 3 → Panoptic.rgb_to_id color = Raise IndexError).
  { intros HC. apply rgb_to_id_IndexError. rewrite Hshape. simpl. lia. }
  split; [|split; [|split]].
  - split.
    + intros HC. rewrite (rgb_to_id_rows color H W C Hshape HC). by eexists.
    + intros [ids Hids]. destruct (decide (3 ≤ C)); [done|].
      rewrite Hsmall in Hids by lia. done.
  - split; [done|]. intros Hraise. destruct (decide (C < 3)); [done|].
    rewrite (rgb_to_id_rows color H W C Hshape) in Hraise by lia. done.
  - intros ids Hids. destruct (decide (3 ≤ C)) as [HC|HC].
    + rewrite (rgb_to_id_rows color H W C Hshape HC) in Hids.
      by injection Hids as <-.
    + rewrite Hsmall in Hids by lia. done.
  - intros color' C' Hshape' HC HC' Hrows.
    rewrite (rgb_to_id_rows color H W C Hshape HC).
    rewrite (rgb_to_id_rows color' H W C' Hshape' HC'). do 2 f_equal.
    assert (Htake : ∀ rows : list (list (list Z)),
      map (map pixel_id_int64) rows
      = map (map pixel_id_int64) (map (map (take 3)) rows)).
    { intros rows. rewrite <-list_fmap_compose.
      apply list_fmap_ext. intros _ row _. simpl.
      rewrite <-list_fmap_compose.
      apply list_fmap_ext. intros _ px _. simpl.
      by rewrite pixel_id_int64_take. }
    by rewrite (Htake (nd3_rows color)), (Htake (nd3_rows color')), Hrows.
Qed.

(** X2. On an [(H, W, 3)] array with channels in [0, 255] the decoding
    loses nothing: the colour of a pixel is recovered from its id as
    [(id mod 256, id / 256 mod 256, id / 256^2)], so two pixels have the
    same id only if they have the same colour. *)
Theorem rgb_to_id_injective (color : ndarray3) (H W : nat) (ids : ndarray)
    (Hshape : nd3_shape color = (H, W, 3))
    (Hwf : nd3_wf color)
    (Hrange : Forall (Forall (Forall (λ v, 0 ≤ v ≤ 255)%Z)) (nd3_rows color))
    (Hids : Panoptic.rgb_to_id color = Ok ids) :
  (∀ r c px v,
     nd3_get color r c = Some px → nd_get ids r c = Some v →
     px = [v mod 256; (v / 256) mod 256; v / 256 ^ 2]%Z) ∧
  (∀ r c r' c' px px',
     nd3_get color r c = Some px → nd3_get color r' c' = Some px' →
     nd_get ids r c = nd_get ids r' c' → px = px').
Proof.
  assert (Hrec : ∀ r c px v,
    nd3_get color r c = Some px → nd_get ids r c = Some v →
    px = [v mod 256; (v / 256) mod 256; v / 256 ^ 2]%Z).
  { intros r c px v Hpx Hv.
    rewrite (rgb_to_id_get color H W 3 ids r c Hshape Hids), Hpx in Hv.
    injection Hv as <-.
    destruct (nd3_get_wf color r c px Hwf Hrange Hpx) as [Hlen Hpxr].
    rewrite Hshape in Hlen. simpl in Hlen.
    destruct (pixel_id_int64_exact px Hlen Hpxr) as [-> _].
    destruct px as [|R [|G [|B [|? ?]]]]; try done.
    apply Forall_cons in Hpxr as [HR Hpxr].
    apply Forall_cons in Hpxr as [HG Hpxr].
    apply Forall_cons in Hpxr as [HB _].
    unfold pixel_id. simpl. change (256 ^ 2)%Z with 65536%Z.
    f_equal; [|f_equal; [|f_equal]].
    - apply (Z.mod_unique_pos _ 256 (G + 256 * B)); lia.
    - assert ((R + 256 * G + 65536 * B) / 256 = G + 256 * B)%Z as ->.
      { symmetry. apply (Z.div_unique_pos _ 256 _ R); lia. }
      apply (Z.mod_unique_pos _ 256 B); lia.
    - apply (Z.div_unique_pos _ 65536 _ (R + 256 * G)); lia. }
  split; [exact Hrec|].
  intros r c r' c' px px' Hpx Hpx' Heq.
  destruct (nd_get ids r c) as [v|] eqn:Hv.
  - rewrite (Hrec r c px v Hpx Hv). symmetry. by apply (Hrec r' c').
  - rewrite (rgb_to_id_get color H W 3 ids r c Hshape Hids), Hpx in Hv. done.
Qed.

(** ** Dict comprehensions with repeated keys *)

Lemma dict_comprehension_lookup_last {A V} (key : A → Z) (val : A → V)
    (l1 l2 : list A) (x : A) :
  key x ∉ key <$> l2 →
  dict_comprehension key val (l1 ++ x :: l2) !! key x = Some (val x).
Proof.
  induction l2 as [|y l2 IH] using rev_ind; intros Hlast.
  - rewrite dict_comprehension_snoc. apply lookup_insert_eq.
  - rewrite fmap_app, not_elem_of_app in Hlast. destruct Hlast as [Hl2 Hy].
    change (l1 ++ x :: l2 ++ [y]) with (l1 ++ (x :: l2) ++ [y]).
    rewrite app_assoc, dict_comprehension_snoc.
    rewrite lookup_insert_ne; [by apply IH|].
    intros Heq. apply Hy. rewrite <-Heq. apply list_elem_of_fmap_2. left.
Qed.

Lemma dict_comprehension_dom {A V} (key : A → Z) (val : A → V) (xs : list A) :
  dom (dict_comprehension key val xs) = list_to_set (key <$> xs).
Proof.
  apply set_eq. intros k.
  rewrite elem_of_dom, elem_of_list_to_set, <-not_eq_None_Some.
  rewrite dict_comprehension_lookup_None. split; [apply dec_stable | tauto].
Qed.

Lemma size_list_to_set_le (l : list Z) :
  size (list_to_set l : gset Z) ≤ length l.
Proof.
  induction l as [|x l IH].
  - rewrite list_to_set_nil, size_empty. done.
  - rewrite list_to_set_cons, size_union_alt, size_singleton. simpl.
    assert (Hsub : list_to_set l ∖ {[x]} ⊆ (list_to_set l : gset Z))
      by set_solver.
    apply subseteq_size in Hsub. lia.
Qed.

Lemma size_list_to_set_NoDup (l : list Z) :
  size (list_to_set l : gset Z) = length l ↔ NoDup l.
Proof.
  split; [|apply size_list_to_set].
  induction l as [|x l IH]; [constructor|].
  rewrite list_to_set_cons. simpl.
  intros Hsize. pose proof (size_list_to_set_le l) as Hle.
  destruct (decide (x ∈ l)) as [Hin|Hout].
  - assert ({[x]} ∪ list_to_set l = (list_to_set l : gset Z)) as Heq
      by set_solver.
    rewrite Heq in Hsize. lia.
  - constructor; [done|]. apply IH.
    rewrite size_union, size_singleton in Hsize by set_solver. lia.
Qed.

(** ** [index_panoptic_structures] *)

(** X3. Every entry of the two indexes built by
    [index_panoptic_structures] is an element of the container stored
    under its own image id, and the keys of an index are exactly the image
    ids that occur in the list; when the ids of the list are pairwise
    distinct, looking up the id of an element gives that element back. *)
Theorem index_panoptic_structures_entries (pd : Panoptic.panoptic_data) :
  let img_id_to_img := (Panoptic.index_panoptic_structures pd).1 in
  let img_id_to_ann := (Panoptic.index_panoptic_structures pd).2 in
  (∀ k img, img_id_to_img !! k = Some img →
            img ∈ Panoptic.images pd ∧ img_id img = k) ∧
  (∀ k ann, img_id_to_ann !! k = Some ann →
            ann ∈ Panoptic.annotations pd ∧ Panoptic.pan_image_id ann = k) ∧
  dom img_id_to_img = list_to_set (img_id <$> Panoptic.images pd) ∧
  dom img_id_to_ann
  = list_to_set (Panoptic.pan_image_id <$> Panoptic.annotations pd) ∧
  (NoDup (img_id <$> Panoptic.images pd) →
   ∀ img, img ∈ Panoptic.images pd → img_id_to_img !! img_id img = Some img) ∧
  (NoDup (Panoptic.pan_image_id <$> Panoptic.annotations pd) →
   ∀ ann, ann ∈ Panoptic.annotations pd →
          img_id_to_ann !! Panoptic.pan_image_id ann = Some ann).
Proof.
  unfold Panoptic.index_panoptic_structures. simpl.
  split; [|split; [|split; [|split; [|split]]]].
  - intros k img (x & Hin & Hk & Hv)%dict_comprehension_lookup_Some.
    unfold id in Hv. by subst.
  - intros k ann (x & Hin & Hk & Hv)%dict_comprehension_lookup_Some.
    unfold id in Hv. by subst.
  - apply dict_comprehension_dom.
  - apply dict_comprehension_dom.
  - intros Hnd img Hin.
    by apply (dict_comprehension_lookup_NoDup img_id id).
  - intros Hnd ann Hin.
    by apply (dict_comprehension_lookup_NoDup Panoptic.pan_image_id id).
Qed.

(** X4. When several annotations of the container carry the same image
    id, the index keeps the last of them: the earlier ones cannot be
    reached under any key.  The same holds for the image records. *)
Theorem index_panoptic_structures_last_wins (pd : Panoptic.panoptic_data) :
  (∀ l1 a l2,
     Panoptic.annotations pd = l1 ++ a :: l2 →
     Panoptic.pan_image_id a ∉ Panoptic.pan_image_id <$> l2 →
     (Panoptic.index_panoptic_structures pd).2 !! Panoptic.pan_image_id a
     = Some a ∧
     ∀ b k, Panoptic.pan_image_id b = Panoptic.pan_image_id a →
            (Panoptic.index_panoptic_structures pd).2 !! k = Some b → b = a) ∧
  (∀ l1 a l2,
     Panoptic.images pd = l1 ++ a :: l2 →
     img_id a ∉ img_id <$> l2 →
     (Panoptic.index_panoptic_structures pd).1 !! img_id a = Some a ∧
     ∀ b k, img_id b = img_id a →
            (Panoptic.index_panoptic_structures pd).1 !! k = Some b → b = a).
Proof.
  unfold Panoptic.index_panoptic_structures. simpl. split.
  - intros l1 a l2 Hsplit Hlast.
    assert (Ha : dict_comprehension Panoptic.pan_image_id id
                   (Panoptic.annotations pd) !! Panoptic.pan_image_id a
                 = Some a).
    { rewrite Hsplit.
      by apply (dict_comprehension_lookup_last Panoptic.pan_image_id id). }
    split; [done|]. intros b k Hid Hb.
    destruct (dict_comprehension_lookup_Some _ _ _ _ _ Hb) as (x & _ & Hk & Hx).
    unfold id in Hx. subst x. rewrite <-Hk, Hid, Ha in Hb. by injection Hb.
  - intros l1 a l2 Hsplit Hlast.
    assert (Ha : dict_comprehension img_id id (Panoptic.images pd) !! img_id a
                 = Some a).
    { rewrite Hsplit. by apply (dict_comprehension_lookup_last img_id id). }
    split; [done|]. intros b k Hid Hb.
    destruct (dict_comprehension_lookup_Some _ _ _ _ _ Hb) as (x & _ & Hk & Hx).
    unfold id in Hx. subst x. rewrite <-Hk, Hid, Ha in Hb. by injection Hb.
Qed.

(** ** [build_category_id_mapping] without the uniqueness assumption *)

Lemma sorted_lookup_le {A} (key : A → Z) (l : list A) (i j : nat) (a b : A) :
  StronglySorted (key_le key) l →
  l !! i = Some a → l !! j = Some b → i < j → (key a ≤ key b)%Z.
Proof.
  intros Hs. revert i j.
  induction Hs as [|x l Hl IH Hx]; intros i j Hi Hj Hlt; [done|].
  destruct j as [|j]; [lia|]. simpl in Hj.
  destruct i as [|i]; simpl in Hi.
  - injection Hi as ->. rewrite Forall_forall in Hx.
    apply (Hx b). by eapply list_elem_of_lookup_2.
  - apply (IH i j); [done | done | lia].
Qed.

(** X5. The class indexes follow the order of the category ids: for two
    mapped ids, the smaller id has the smaller class index.  This holds
    for every category list, with or without repeated ids. *)
Theorem build_category_id_mapping_monotone (pd : Panoptic.panoptic_data)
    (k1 k2 : Z) (i1 i2 : nat)
    (H1 : Panoptic.build_category_id_mapping pd !! k1 = Some i1)
    (H2 : Panoptic.build_category_id_mapping pd !! k2 = Some i2) :
  (k1 < k2)%Z ↔ i1 < i2.
Proof.
  rewrite panoptic_build_category_id_mapping_eq in H1, H2.
  pose proof (py_sorted_sorted cat_id (Panoptic.categories pd)) as Hs.
  destruct (category_mapping_of_Some _ _ _ H1) as (c1 & Hc1 & Hk1).
  destruct (category_mapping_of_Some _ _ _ H2) as (c2 & Hc2 & Hk2).
  split.
  - intros Hlt. destruct (decide (i1 < i2)) as [|Hge]; [done|].
    destruct (decide (i1 = i2)) as [->|Hne].
    { assert (c1 = c2) by congruence. subst. lia. }
    pose proof (sorted_lookup_le cat_id _ i2 i1 c2 c1 Hs Hc2 Hc1). lia.
  - intros Hlt.
    pose proof (sorted_lookup_le cat_id _ i1 i2 c1 c2 Hs Hc1 Hc2 Hlt).
    destruct (decide (k1 = k2)) as [->|Hne]; [|lia].
    rewrite H1 in H2. injection H2 as ->. lia.
Qed.

(** X6. The mapping has one entry per distinct category id: its keys are
    exactly the ids of the list, so it has at most [len(categories)]
    entries, and exactly that many if and only if no id is repeated. *)
Theorem build_category_id_mapping_size (pd : Panoptic.panoptic_data) :
  let mapping := Panoptic.build_category_id_mapping pd in
  let ids := cat_id <$> Panoptic.categories pd in
  dom mapping = list_to_set ids ∧
  size mapping ≤ length (Panoptic.categories pd) ∧
  (size mapping = length (Panoptic.categories pd) ↔ NoDup ids).
Proof.
  intros mapping ids.
  assert (Hdom : dom mapping = list_to_set ids).
  { apply set_eq. intros k. subst mapping ids.
    rewrite panoptic_build_category_id_mapping_eq.
    rewrite elem_of_dom, elem_of_list_to_set, <-not_eq_None_Some.
    rewrite category_mapping_of_None. split; [apply dec_stable | tauto]. }
  assert (Hlen : length ids = length (Panoptic.categories pd))
    by apply length_fmap.
  split; [done|].
  rewrite <-(size_dom mapping), Hdom, <-Hlen.
  split; [apply size_list_to_set_le | apply size_list_to_set_NoDup].
Qed.

(** ** [bbox_to_mask]: outcomes and pixel counts *)

Lemma py_round_Raise (x : spec_float) (e : py_error) :
  py_round x = Raise e →
  ¬ float_finite x ∧ (e = ValueError ∨ e = OverflowError).
Proof.
  destruct x; simpl; intros [= <-]; split; auto.
Qed.

Lemma bbox_to_mask_Raise {mem : memory} (b : bbox) (height width : Z)
    (e : py_error) :
  Detection.bbox_to_mask mem b height width = Raise e →
  e = ValueError ∨ e = OverflowError ∨ e = MemoryError.
Proof.
  destruct b as [[[x y] w] h]. unfold Detection.bbox_to_mask.
  destruct (np_zeros mem height width) as [z|e0] eqn:Hz; simpl.
  - destruct (py_round x) as [rx|e1] eqn:Hx; simpl;
      [|intros [= <-]; apply py_round_Raise in Hx as [_ ?]; tauto].
    destruct (py_round y) as [ry|e1] eqn:Hy; simpl;
      [|intros [= <-]; apply py_round_Raise in Hy as [_ ?]; tauto].
    destruct (py_round (float_add x w)) as [rx1|e1] eqn:Hx1; simpl;
      [|intros [= <-]; apply py_round_Raise in Hx1 as [_ ?]; tauto].
    destruct (py_round (float_add y h)) as [ry1|e1] eqn:Hy1; simpl;
      [done|intros [= <-]; apply py_round_Raise in Hy1 as [_ ?]; tauto].
  - intros [= <-].
    apply np_zeros_Raise in Hz as [[_ ->]|(_ & _ & _ & _ & ->)]; auto.
Qed.

(** X7. [bbox_to_mask] returns a mask exactly when [height] and [width]
    are non-negative, [np.zeros] can build the array (dimensions and byte
    size within NumPy's index type, memory available), and [x], [y],
    [x + w], [y + h] are finite.  The array is built first: a negative or
    oversized dimension raises [ValueError] and a failed allocation
    [MemoryError] before any coordinate is looked at.  After that the
    first of [x], [y], [x + w], [y + h] that is not finite decides the
    exception ([ValueError] for a NaN, [OverflowError] for an infinity).
    No other exception is raised. *)
Theorem bbox_to_mask_outcome (mem : memory) (x y w h : spec_float)
    (height width : Z) :
  let call := Detection.bbox_to_mask mem (x, y, w, h) height width in
  (is_ok call ↔
   (0 ≤ height)%Z ∧ (0 ≤ width)%Z ∧ allocatable mem height width ∧
   float_finite x ∧ float_finite y ∧
   float_finite (float_add x w) ∧ float_finite (float_add y h)) ∧
  ((height < 0)%Z ∨ (width < 0)%Z ∨ (intp_max < height)%Z ∨
   (intp_max < width)%Z ∨ (intp_max < height * width)%Z →
   call = Raise ValueError) ∧
  ((0 ≤ height ≤ intp_max)%Z → (0 ≤ width ≤ intp_max)%Z →
   (height * width ≤ intp_max)%Z → mem (height * width)%Z = false →
   call = Raise MemoryError) ∧
  ((0 ≤ height)%Z → (0 ≤ width)%Z → allocatable mem height width →
   (∀ e, py_round x = Raise e → call = Raise e) ∧
   (float_finite x → ∀ e, py_round y = Raise e → call = Raise e) ∧
   (float_finite x → float_finite y →
    ∀ e, py_round (float_add x w) = Raise e → call = Raise e) ∧
   (float_finite x → float_finite y → float_finite (float_add x w) →
    ∀ e, py_round (float_add y h) = Raise e → call = Raise e)) ∧
  (∀ e, call = Raise e →
        e = ValueError ∨ e = OverflowError ∨ e = MemoryError).
Proof.
  intros call. subst call. unfold Detection.bbox_to_mask.
  split; [|split; [|split; [|split]]].
  - split.
    + intros [m Hm].
      apply bind_Ok in Hm as (z & Hz & Hm).
      apply bind_Ok in Hm as (rx & Hx & Hm).
      apply bind_Ok in Hm as (ry & Hy & Hm).
      apply bind_Ok in Hm as (rx1 & Hx1 & Hm).
      apply bind_Ok in Hm as (ry1 & Hy1 & _).
      apply np_zeros_Ok_inv in Hz as (? & ? & ? & _).
      do 3 (split; [done|]).
      repeat split; apply py_round_finite; by eexists.
    + intros (Hh & Hw & Halloc & [rx Hx]%py_round_finite
              & [ry Hy]%py_round_finite
              & [rx1 Hx1]%py_round_finite & [ry1 Hy1]%py_round_finite).
      rewrite np_zeros_Ok by done. simpl.
      rewrite Hx. simpl. rewrite Hy. simpl.
      rewrite Hx1. simpl. rewrite Hy1. simpl. by eexists.
  - intros Hbad.
    assert (Hz : np_zeros mem height width = Raise ValueError)
      by (apply np_zeros_Raise; by left).
    by rewrite Hz.
  - intros Hh Hw Hsize Hmem.
    assert (Hz : np_zeros mem height width = Raise MemoryError)
      by (apply np_zeros_Raise; by right).
    by rewrite Hz.
  - intros Hh Hw Halloc. rewrite np_zeros_Ok by done. simpl.
    split; [|split; [|split]].
    + by intros e ->.
    + intros [rx ->]%py_round_finite e ->. done.
    + intros [rx ->]%py_round_finite [ry ->]%py_round_finite e ->. done.
    + intros [rx ->]%py_round_finite [ry ->]%py_round_finite
        [rx1 ->]%py_round_finite e ->. done.
  - intros e. apply (bbox_to_mask_Raise (x, y, w, h)).
Qed.

(** X8. For any box, inside the image or not, on an image for which
    [np.zeros] can build the mask, the number of set pixels is the area
    of the clipped rectangle, [max(0, x1 - x0) * max(0, y1 - y0)] with
    the bounds after rounding and clipping; it never exceeds
    [height * width], and a box that covers the whole image sets every
    pixel. *)
Theorem bbox_to_mask_clipped_count (mem : memory) (x y w h : spec_float)
    (height width rx ry rx1 ry1 : Z)
    (Hh : (0 ≤ height)%Z) (Hw : (0 ≤ width)%Z)
    (Halloc : allocatable mem height width)
    (Hx : py_round x = Ok rx) (Hy : py_round y = Ok ry)
    (Hx1 : py_round (float_add x w) = Ok rx1)
    (Hy1 : py_round (float_add y h) = Ok ry1) :
  ∃ mask,
    Detection.bbox_to_mask mem (x, y, w, h) height width = Ok mask ∧
    Z.of_nat (count_ones mask)
    = (Z.max 0 (clip rx1 width - clip rx width)
       * Z.max 0 (clip ry1 height - clip ry height))%Z ∧
    (Z.of_nat (count_ones mask) ≤ height * width)%Z ∧
    ((rx ≤ 0)%Z → (width ≤ rx1)%Z → (ry ≤ 0)%Z → (height ≤ ry1)%Z →
     Z.of_nat (count_ones mask) = (height * width)%Z ∧
     ∀ r c : nat, (Z.of_nat r < height)%Z → (Z.of_nat c < width)%Z →
                  nd_get mask r c = Some 1%Z).
Proof.
  eexists. split; [by apply (bbox_to_mask_Ok x y w h)|].
  assert (Hcount :
    Z.of_nat (count_ones
      (nd_fill_slice (zeros (Z.to_nat height) (Z.to_nat width))
         (clip ry height) (clip ry1 height) (clip rx width) (clip rx1 width) 1))
    = (Z.max 0 (clip rx1 width - clip rx width)
       * Z.max 0 (clip ry1 height - clip ry height))%Z).
  { rewrite count_ones_fill_zeros.
    dims_as_nat height width.
    rewrite !slice_index_clip, Nat2Z.inj_mul.
    assert (Z.of_nat (Z.to_nat (clip ry1 (Z.of_nat hn))
                      - Z.to_nat (clip ry (Z.of_nat hn)))
            = Z.max 0 (clip ry1 (Z.of_nat hn) - clip ry (Z.of_nat hn)))
      as -> by (unfold clip; lia).
    assert (Z.of_nat (Z.to_nat (clip rx1 (Z.of_nat wn))
                      - Z.to_nat (clip rx (Z.of_nat wn)))
            = Z.max 0 (clip rx1 (Z.of_nat wn) - clip rx (Z.of_nat wn)))
      as -> by (unfold clip; lia).
    apply Z.mul_comm. }
  split; [exact Hcount|]. rewrite Hcount. split.
  - assert (0 ≤ Z.max 0 (clip rx1 width - clip rx width) ≤ width)%Z
      by (unfold clip; lia).
    assert (0 ≤ Z.max 0 (clip ry1 height - clip ry height) ≤ height)%Z
      by (unfold clip; lia).
    nia.
  - intros Hl Hr Ht Hb. split.
    + unfold clip. rewrite Z.mul_comm. f_equal; lia.
    + intros r c Hrow Hcol.
      rewrite bbox_to_mask_cell by done.
      rewrite bool_decide_eq_true_2; [done|]. unfold clip. lia.
Qed.

(** ** The loops, completely *)

Lemma for_each_Ok_Forall2 {A B} (body : A → result (option B))
    (R : A → B → Prop) :
  (∀ x o, body x = Ok o ↔ ∃ y, o = Some y ∧ R x y) →
  ∀ xs out, for_each body xs [] = Ok out ↔ Forall2 R xs out.
Proof.
  intros Hbody xs out. split.
  - intros Hout.
    apply (for_each_Ok_filter body (λ _, true) R) in Hout.
    + rewrite filter_all in Hout; [done|]. by apply Forall_forall.
    + intros x o Ho. by apply Hbody.
  - intros HR. apply for_each_Ok_iff. exists (Some <$> out). split.
    + apply Forall2_fmap_r. eapply Forall2_impl; [exact HR|].
      intros x y Hxy. apply Hbody. by exists y.
    + simpl. clear HR. induction out as [|y out IH]; [done|].
      csimpl. by rewrite <-IH.
Qed.

Lemma detection_body_Ok_iff {mem : memory} height width catid_to_classid ann o :
  detection_body mem height width catid_to_classid ann = Ok o ↔
  ∃ rec, o = Some rec ∧
         detection_record_of mem height width catid_to_classid ann rec.
Proof.
  split.
  - intros (cid & m & -> & Hcid & Hm)%detection_body_Ok.
    eexists. split; [done|]. by split.
  - intros ([iid cid m] & -> & Hid & Hcid & Hm). simpl in *. subst iid.
    unfold detection_body, dict_get. rewrite Hcid. simpl. by rewrite Hm.
Qed.

Lemma detection_body_ok_iff {mem : memory} height width catid_to_classid ann :
  is_ok (detection_body mem height width catid_to_classid ann) ↔
  is_Some (catid_to_classid !! ann_category_id ann) ∧
  is_ok (Detection.bbox_to_mask mem (ann_bbox ann) height width).
Proof.
  split.
  - intros [o (cid & m & _ & Hcid & Hm)%detection_body_Ok].
    split; by eexists.
  - intros [[cid Hcid] [m Hm]]. unfold detection_body, dict_get.
    rewrite Hcid. simpl. rewrite Hm. simpl. by eexists.
Qed.

(** X9. The detection assembler returns a list exactly when the image id
    is known to the container and every annotation of the image has a
    mapped category and a box that can be rasterised; the list then has
    one record per annotation, in the order of the annotations, holding
    the class index of the annotation's category and the mask of its box,
    and no instance id.  An image without annotations gives the empty
    list. *)
Theorem get_detection_gt_for_image_records (mem : memory) (coco : coco_api)
    (image_id : Z) (catid_to_classid : gmap Z nat) :
  let call :=
    Detection.get_detection_gt_for_image mem coco image_id catid_to_classid in
  let anns := coco_img_anns coco image_id in
  (∀ recs,
     call = Ok recs ↔
     ∃ img_info,
       coco_imgs coco !! image_id = Some img_info ∧
       Forall2 (detection_record_of mem (img_height img_info) (img_width img_info)
                  catid_to_classid) anns recs) ∧
  (is_ok call ↔
   ∃ img_info,
     coco_imgs coco !! image_id = Some img_info ∧
     Forall (λ ann,
       is_Some (catid_to_classid !! ann_category_id ann) ∧
       is_ok (Detection.bbox_to_mask mem (ann_bbox ann)
                (img_height img_info) (img_width img_info))) anns) ∧
  (∀ recs, call = Ok recs → length recs = length anns) ∧
  (is_Some (coco_imgs coco !! image_id) → anns = [] → call = Ok []).
Proof.
  intros call anns.
  assert (Hrecs : ∀ recs,
    call = Ok recs ↔
    ∃ img_info,
      coco_imgs coco !! image_id = Some img_info ∧
      Forall2 (detection_record_of mem (img_height img_info) (img_width img_info)
                 catid_to_classid) anns recs).
  { intros recs. split.
    - intros (img_info & Himg & Hloop)%get_detection_gt_for_image_Ok_inv.
      exists img_info. split; [done|].
      by apply (for_each_Ok_Forall2 _ _ (detection_body_Ok_iff _ _ _)) in Hloop.
    - intros (img_info & Himg & HR). subst call.
      rewrite (get_detection_gt_for_image_found _ _ _ _ Himg).
      by apply (for_each_Ok_Forall2 _ _ (detection_body_Ok_iff _ _ _)). }
  split; [exact Hrecs|]. split; [|split].
  - split.
    + intros [recs (img_info & Himg & Hloop)%get_detection_gt_for_image_Ok_inv].
      exists img_info. split; [done|].
      apply for_each_Ok_all in Hloop.
      eapply Forall_impl; [exact Hloop|].
      intros ann. apply detection_body_ok_iff.
    + intros (img_info & Himg & Hall). subst call.
      rewrite (get_detection_gt_for_image_found _ _ _ _ Himg).
      apply for_each_total. eapply Forall_impl; [exact Hall|].
      intros ann. apply detection_body_ok_iff.
  - intros recs (img_info & _ & HR)%Hrecs. symmetry. by eapply Forall2_length.
  - intros [img_info Himg] Hnil. apply Hrecs. exists img_info.
    split; [done|]. rewrite Hnil. constructor.
Qed.

(** X10. A failing call of the detection assembler raises the exception
    of the first step that fails: [KeyError] for the image id when the
    container does not know it; otherwise, for the first annotation (in
    list order) that has an unmapped category or a box that cannot be
    rasterised, [KeyError] for that category, or else the exception of
    [bbox_to_mask].  Annotations after it are never looked at. *)
Theorem get_detection_gt_for_image_first_failure (mem : memory)
    (coco : coco_api) (image_id : Z) (catid_to_classid : gmap Z nat)
    (e : py_error) :
  let call :=
    Detection.get_detection_gt_for_image mem coco image_id catid_to_classid in
  call = Raise e ↔
  (coco_imgs coco !! image_id = None ∧ e = KeyError image_id) ∨
  (∃ img_info pre ann post,
     coco_imgs coco !! image_id = Some img_info ∧
     coco_img_anns coco image_id = pre ++ ann :: post ∧
     Forall (λ a,
       is_Some (catid_to_classid !! ann_category_id a) ∧
       is_ok (Detection.bbox_to_mask mem (ann_bbox a)
                (img_height img_info) (img_width img_info))) pre ∧
     ((catid_to_classid !! ann_category_id ann = None ∧
       e = KeyError (ann_category_id ann)) ∨
      (is_Some (catid_to_classid !! ann_category_id ann) ∧
       Detection.bbox_to_mask mem (ann_bbox ann)
         (img_height img_info) (img_width img_info) = Raise e))).
Proof.
  intros call. subst call.
  destruct (coco_imgs coco !! image_id) as [img_info|] eqn:Himg.
  - rewrite (get_detection_gt_for_image_found _ _ _ _ Himg).
    rewrite for_each_Raise_iff. split.
    + intros (pre & ann & post & Hsplit & Hpre & Hann). right.
      exists img_info, pre, ann, post. split; [done|]. split; [done|].
      split.
      { eapply Forall_impl; [exact Hpre|].
        intros a. apply detection_body_ok_iff. }
      unfold detection_body, dict_get in Hann.
      destruct (catid_to_classid !! ann_category_id ann) as [cid|] eqn:Hcid;
        simpl in Hann.
      * right. split; [done|].
        destruct (Detection.bbox_to_mask mem _ _ _) as [m|e']; simpl in Hann;
          [done|]. by injection Hann as ->.
      * left. by injection Hann as <-.
    + intros [[[=] _]|(img_info' & pre & ann & post & [= <-] & Hsplit & Hpre & Hann)].
      exists pre, ann, post. split; [done|]. split.
      { eapply Forall_impl; [exact Hpre|].
        intros a. apply detection_body_ok_iff. }
      unfold detection_body, dict_get.
      destruct Hann as [[Hnone ->]|[[cid Hcid] Hbox]].
      * by rewrite Hnone.
      * rewrite Hcid. simpl. by rewrite Hbox.
  - unfold Detection.get_detection_gt_for_image, dict_get. rewrite Himg. simpl.
    split.
    + intros [= <-]. by left.
    + intros [[_ ->]|(img_info & pre & ann & post & [=] & _)]. done.
Qed.

Lemma instance_body_ok_iff coco height width catid_to_classid ann :
  is_ok (instance_body coco height width catid_to_classid ann) ↔
  is_Some (catid_to_classid !! ann_category_id ann) ∧
  is_ok (coco_annToMask coco ann).
Proof.
  split; [|intros [? ?]; by apply instance_body_total].
  intros [o Ho]. unfold instance_body in Ho.
  apply bind_Ok in Ho as (cid & Hcid%dict_get_Ok & Ho).
  apply bind_Ok in Ho as (m & Hm & _).
  split; by eexists.
Qed.

(** X11. A failing call of the instance assembler fails with [KeyError]
    for the image id when the container does not know it, and otherwise
    at the first annotation (in list order) whose category is unmapped
    ([KeyError] for that category) or whose mask the decoder does not
    produce (the exception of the decoder).  The category is looked up
    before the mask is decoded and its shape tested, so an annotation
    with an unmapped category makes the call fail whatever its mask is;
    a mask of another shape never does. *)
Theorem get_instance_gt_for_image_first_failure (coco : coco_api)
    (image_id : Z) (catid_to_classid : gmap Z nat) (e : py_error) :
  let call :=
    Segmentation.get_instance_gt_for_image coco image_id catid_to_classid in
  call = Raise e ↔
  (coco_imgs coco !! image_id = None ∧ e = KeyError image_id) ∨
  (∃ img_info pre ann post,
     coco_imgs coco !! image_id = Some img_info ∧
     coco_img_anns coco image_id = pre ++ ann :: post ∧
     Forall (λ a, is_Some (catid_to_classid !! ann_category_id a) ∧
                  is_ok (coco_annToMask coco a)) pre ∧
     ((catid_to_classid !! ann_category_id ann = None ∧
       e = KeyError (ann_category_id ann)) ∨
      (is_Some (catid_to_classid !! ann_category_id ann) ∧
       coco_annToMask coco ann = Raise e))).
Proof.
  intros call. subst call.
  destruct (coco_imgs coco !! image_id) as [img_info|] eqn:Himg.
  - rewrite (get_instance_gt_for_image_found _ _ _ _ Himg).
    rewrite for_each_Raise_iff. split.
    + intros (pre & ann & post & Hsplit & Hpre & Hann). right.
      exists img_info, pre, ann, post. split; [done|]. split; [done|].
      split.
      { eapply Forall_impl; [exact Hpre|].
        intros a. apply instance_body_ok_iff. }
      by apply instance_body_Raise in Hann.
    + intros [[[=] _]|(img_info' & pre & ann & post & [= <-] & Hsplit & Hpre
                       & Hann)].
      exists pre, ann, post. split; [done|]. split.
      { eapply Forall_impl; [exact Hpre|].
        intros a. apply instance_body_ok_iff. }
      unfold instance_body, dict_get.
      destruct Hann as [[Hnone ->]|[[cid Hcid] Hmask]].
      * by rewrite Hnone.
      * rewrite Hcid. simpl. by rewrite Hmask.
  - unfold Segmentation.get_instance_gt_for_image, dict_get.
    rewrite Himg. simpl. split.
    + intros [= <-]. by left.
    + intros [[_ ->]|(img_info & pre & ann & post & [=] & _)]. done.
Qed.

Lemma instance_records_instance_ids coco catid_to_classid anns recs :
  Forall2 (instance_record_of coco catid_to_classid) anns recs →
  instance_id <$> recs = Some <$> (ann_id <$> anns).
Proof.
  induction 1 as [|ann rec anns recs (Hid & _) _ IH]; [done|].
  csimpl. by rewrite Hid, IH.
Qed.

(** X12. The instance ids of the records returned by the instance
    assembler are the ids of the shape-matching annotations, in the order
    of the annotation list; they are pairwise distinct when the
    annotation ids are.  The output is never longer than the annotation
    list, has its length when every mask matches, and is empty (not an
    error) when none does. *)
Theorem get_instance_gt_for_image_ids (coco : coco_api) (image_id : Z)
    (catid_to_classid : gmap Z nat) (out : list gt_record)
    (Hcall : Segmentation.get_instance_gt_for_image coco image_id
               catid_to_classid = Ok out) :
  ∃ img_info,
    coco_imgs coco !! image_id = Some img_info ∧
    let anns := coco_img_anns coco image_id in
    let matches :=
      shape_matches coco (img_height img_info) (img_width img_info) in
    instance_id <$> out
    = Some <$> (ann_id <$> filter (λ ann, matches ann = true) anns) ∧
    (NoDup (ann_id <$> anns) → NoDup (instance_id <$> out)) ∧
    length out ≤ length anns ∧
    (Forall (λ ann, matches ann = true) anns → length out = length anns) ∧
    (Forall (λ ann, matches ann = false) anns → out = []).
Proof.
  apply get_instance_gt_for_image_Ok_inv in Hcall as (img_info & Himg & Hloop).
  exists img_info. split; [done|]. intros anns matches.
  apply (for_each_Ok_filter _ matches
           (instance_record_of coco catid_to_classid)
           (instance_body_Ok coco _ _ catid_to_classid)) in Hloop.
  pose proof (instance_records_instance_ids _ _ _ _ Hloop) as Hids.
  pose proof (Forall2_length _ _ _ Hloop) as Hlen.
  split; [done|]. split; [|split; [|split]].
  - intros Hnd. rewrite Hids. apply (NoDup_fmap_2 Some).
    eapply sublist_NoDup; [exact Hnd|].
    apply fmap_sublist, sublist_filter.
  - rewrite <-Hlen. apply length_filter.
  - intros Hall. rewrite <-Hlen. by rewrite filter_all.
  - intros Hnone. rewrite filter_none in Hloop.
    + by apply Forall2_nil_inv_l in Hloop.
    + eapply Forall_impl; [exact Hnone|]. intros ann ->. done.
Qed.

(** ** The panoptic assembler: coverage and failures *)

(** X13. In a successful panoptic call every listed segment has its
    record, at the position of the segment in the list and with its id,
    and a pixel is set in the mask of some record exactly when the id
    decoded at that pixel is the id of a listed segment: pixels whose id
    is not listed (the void label, for one) are 0 in every mask.  The
    record of a listed segment whose id occurs nowhere in the PNG has an
    all-zero mask; an empty segment list gives an empty record list. *)
Theorem get_panoptic_gt_for_image_coverage (fs : Panoptic.disk)
    (image_id : Z) (img_id_to_img : gmap Z image_info)
    (img_id_to_ann : gmap Z Panoptic.pan_annotation)
    (catid_to_classid : gmap Z nat) (dir : string)
    (recs : list gt_record) (hw : nat * nat)
    (Hcall : Panoptic.get_panoptic_gt_for_image fs image_id img_id_to_img
               img_id_to_ann catid_to_classid dir = Ok (recs, hw)) :
  ∃ ann rgb seg_id_map,
    img_id_to_ann !! image_id = Some ann ∧
    fs (Panoptic.os_path_join dir (Panoptic.pan_file_name ann))
    = Some (Ok rgb) ∧
    Panoptic.rgb_to_id rgb = Ok seg_id_map ∧
    hw = nd_shape seg_id_map ∧
    length recs = length (Panoptic.segments_info ann) ∧
    (∀ i seg,
       Panoptic.segments_info ann !! i = Some seg →
       ∃ rec,
         recs !! i = Some rec ∧
         instance_id rec = Some (Panoptic.seg_id seg) ∧
         nd_shape (mask rec) = nd_shape seg_id_map ∧
         ((∀ r c, nd_get seg_id_map r c ≠ Some (Panoptic.seg_id seg)) →
          ∀ r c v, nd_get (mask rec) r c = Some v → v = 0%Z)) ∧
    (∀ r c v,
       nd_get seg_id_map r c = Some v →
       ((∃ rec, rec ∈ recs ∧ nd_get (mask rec) r c = Some 1%Z) ↔
        v ∈ Panoptic.seg_id <$> Panoptic.segments_info ann)) ∧
    (Panoptic.segments_info ann = [] → recs = []).
Proof.
  apply get_panoptic_gt_for_image_Ok_inv in Hcall
    as (img_info & ann & rgb & seg_id_map & _ & Hann & Hfile & Hdecode & Hhw
        & Hloop).
  exists ann, rgb, seg_id_map. do 4 (split; [done|]).
  apply panoptic_loop_records in Hloop.
  split; [symmetry; by eapply Forall2_length|].
  split; [|split].
  - intros i seg Hseg.
    destruct (Forall2_lookup_l _ _ _ _ _ Hloop Hseg)
      as (rec & Hrec & cid & _ & ->).
    eexists. split; [exact Hrec|]. split; [done|]. split; [done|].
    intros Habsent r c v Hcell. simpl in Hcell.
    rewrite nd_eq_scalar_get in Hcell.
    destruct (nd_get seg_id_map r c) as [v0|] eqn:Hv0; simpl in Hcell; [|done].
    injection Hcell as <-.
    destruct (Z.eqb_spec v0 (Panoptic.seg_id seg)) as [->|]; [|done].
    by destruct (Habsent r c).
  - intros r c v Hv. split.
    + intros (rec & Hin & Hcell).
      apply list_elem_of_lookup in Hin as [i Hi].
      destruct (Forall2_lookup_r _ _ _ _ _ Hloop Hi)
        as (seg & Hseg & cid & _ & ->).
      simpl in Hcell. rewrite nd_eq_scalar_get, Hv in Hcell. simpl in Hcell.
      destruct (Z.eqb_spec v (Panoptic.seg_id seg)) as [->|]; [|done].
      apply list_elem_of_fmap_2. by eapply list_elem_of_lookup_2.
    + intros (seg & -> & Hin)%list_elem_of_fmap.
      apply list_elem_of_lookup in Hin as [i Hi].
      destruct (Forall2_lookup_l _ _ _ _ _ Hloop Hi)
        as (rec & Hrec & cid & _ & ->).
      eexists. split; [by eapply list_elem_of_lookup_2|].
      simpl. rewrite nd_eq_scalar_get, Hv. simpl. by rewrite Z.eqb_refl.
  - intros Hnil. rewrite Hnil in Hloop. by apply Forall2_nil_inv_l in Hloop.
Qed.

(** X14. Decoding followed by mask extraction, on an [(H, W, 3)] PNG
    with channels in [0, 255]: the mask of segment id [sid] is 1 at a
    pixel exactly when the pixel's colour satisfies
    [R + 256 * G + 256^2 * B = sid].  A segment id that is negative or at
    least [256^3] is the id of no colour, and its mask is all zero. *)
Theorem panoptic_mask_of_colour (rgb : ndarray3) (H W : nat)
    (seg_id_map : ndarray) (sid : Z)
    (Hshape : nd3_shape rgb = (H, W, 3))
    (Hwf : nd3_wf rgb)
    (Hrange : Forall (Forall (Forall (λ v, 0 ≤ v ≤ 255)%Z)) (nd3_rows rgb))
    (Hdecode : Panoptic.rgb_to_id rgb = Ok seg_id_map) :
  (∀ r c R G B,
     nd3_get rgb r c = Some [R; G; B] →
     nd_get (nd_eq_scalar seg_id_map sid) r c
     = Some (if (R + 256 * G + 256 ^ 2 * B =? sid)%Z then 1%Z else 0%Z)) ∧
  ((sid < 0)%Z ∨ (256 ^ 3 ≤ sid)%Z →
   ∀ r c v, nd_get (nd_eq_scalar seg_id_map sid) r c = Some v → v = 0%Z).
Proof.
  assert (Hcell : ∀ r c px,
    nd3_get rgb r c = Some px →
    nd_get seg_id_map r c = Some (pixel_id px) ∧
    (0 ≤ pixel_id px ≤ 256 ^ 3 - 1)%Z).
  { intros r c px Hpx.
    rewrite (rgb_to_id_get rgb H W 3 seg_id_map r c Hshape Hdecode), Hpx.
    destruct (nd3_get_wf rgb r c px Hwf Hrange Hpx) as [Hlen Hpxr].
    rewrite Hshape in Hlen. simpl.
    destruct (pixel_id_int64_exact px Hlen Hpxr) as [-> Hb]. done. }
  split.
  - intros r c R G B Hpx. destruct (Hcell r c _ Hpx) as [Hv _].
    by rewrite nd_eq_scalar_get, Hv.
  - intros Hout r c v Hv. rewrite nd_eq_scalar_get in Hv.
    destruct (nd3_get rgb r c) as [px|] eqn:Hpx.
    + destruct (Hcell r c px Hpx) as [Hid Hb].
      rewrite Hid in Hv. simpl in Hv. injection Hv as <-.
      destruct (Z.eqb_spec (pixel_id px) sid); [lia|done].
    + rewrite (rgb_to_id_get rgb H W 3 seg_id_map r c Hshape Hdecode), Hpx
        in Hv. done.
Qed.

(** X15. The ways a panoptic call can fail, in the order in which they
    are tried: [KeyError] for the image id when it is missing from the
    image index or from the annotation index; [FileNotFoundError] with
    the joined path when the PNG does not exist; the exception of the
    image library when the file exists and cannot be read as an image;
    [IndexError] when the decoded array has fewer than three channels;
    [KeyError] for the category of the first segment whose category is
    unmapped.  Nothing else is ever raised. *)
Theorem get_panoptic_gt_for_image_failures (fs : Panoptic.disk)
    (image_id : Z) (img_id_to_img : gmap Z image_info)
    (img_id_to_ann : gmap Z Panoptic.pan_annotation)
    (catid_to_classid : gmap Z nat) (dir : string) (e : py_error) :
  let call :=
    Panoptic.get_panoptic_gt_for_image fs image_id img_id_to_img
      img_id_to_ann catid_to_classid dir in
  call = Raise e ↔
  (img_id_to_img !! image_id = None ∧ e = KeyError image_id) ∨
  (is_Some (img_id_to_img !! image_id) ∧
   img_id_to_ann !! image_id = None ∧ e = KeyError image_id) ∨
  (∃ ann,
     is_Some (img_id_to_img !! image_id) ∧
     img_id_to_ann !! image_id = Some ann ∧
     let mask_path :=
       Panoptic.os_path_join dir (Panoptic.pan_file_name ann) in
     (fs mask_path = None ∧ e = FileNotFoundError mask_path) ∨
     fs mask_path = Some (Raise e) ∨
     (∃ rgb,
        fs mask_path = Some (Ok rgb) ∧
        (((nd3_shape rgb).2 < 3 ∧ e = IndexError) ∨
         (3 ≤ (nd3_shape rgb).2 ∧
          ∃ pre seg post,
            Panoptic.segments_info ann = pre ++ seg :: post ∧
            Forall (λ s, is_Some (catid_to_classid
                                   !! Panoptic.seg_category_id s)) pre ∧
            catid_to_classid !! Panoptic.seg_category_id seg = None ∧
            e = KeyError (Panoptic.seg_category_id seg))))).
Proof.
  intros call. subst call.
  unfold Panoptic.get_panoptic_gt_for_image, dict_get.
  destruct (img_id_to_img !! image_id) as [img_info|] eqn:Himg; simpl.
  2:{ split.
      - intros [= <-]. by left.
      - intros [[_ ->]|[([? [=]] & _)|(ann & [? [=]] & _)]]. done. }
  destruct (img_id_to_ann !! image_id) as [ann|] eqn:Hann; simpl.
  2:{ split.
      - intros [= <-]. right. left. by split; [eexists|].
      - intros [[[=] _]|[(_ & _ & ->)|(ann & _ & [=] & _)]]. done. }
  destruct (fs _) as [[rgb|e0]|] eqn:Hfile; simpl.
  3:{ split.
      - intros [= <-]. right. right. exists ann.
        split; [by eexists|]. split; [done|]. left. by rewrite Hfile.
      - intros [[[=] _]|[(_ & [=] & _)|(ann' & _ & [= <-] & Hcases)]].
        cbv zeta in Hcases. rewrite Hfile in Hcases.
        destruct Hcases as [[_ ->]|[[=]|(rgb & [=] & _)]]. done. }
  2:{ split.
      - intros [= <-]. right. right. exists ann.
        split; [by eexists|]. split; [done|]. right. left. by rewrite Hfile.
      - intros [[[=] _]|[(_ & [=] & _)|(ann' & _ & [= <-] & Hcases)]].
        cbv zeta in Hcases. rewrite Hfile in Hcases.
        destruct Hcases as [[[=] _]|[[= ->]|(rgb & [=] & _)]]. done. }
  assert (Hloop : ∀ seg_id_map,
    Panoptic.panoptic_loop (Panoptic.segments_info ann) seg_id_map
      catid_to_classid [] = Raise e ↔
    ∃ pre seg post,
      Panoptic.segments_info ann = pre ++ seg :: post ∧
      Forall (λ s, is_Some (catid_to_classid !! Panoptic.seg_category_id s))
             pre ∧
      catid_to_classid !! Panoptic.seg_category_id seg = None ∧
      e = KeyError (Panoptic.seg_category_id seg)).
  { intros seg_id_map. rewrite panoptic_loop_for_each, for_each_Raise_iff.
    assert (Hok : ∀ s,
      is_ok (panoptic_body seg_id_map catid_to_classid s) ↔
      is_Some (catid_to_classid !! Panoptic.seg_category_id s)).
    { intros s. unfold panoptic_body, dict_get.
      destruct (catid_to_classid !! _); simpl; split;
        try done; try (intros; by eexists); by intros [? [=]]. }
    split.
    - intros (pre & seg & post & Hsplit & Hpre & Hseg).
      exists pre, seg, post. split; [done|]. split.
      { eapply Forall_impl; [exact Hpre|]. intros s. apply Hok. }
      unfold panoptic_body, dict_get in Hseg.
      destruct (catid_to_classid !! _); simpl in Hseg; [done|].
      by injection Hseg as <-.
    - intros (pre & seg & post & Hsplit & Hpre & Hnone & ->).
      exists pre, seg, post. split; [done|]. split.
      { eapply Forall_impl; [exact Hpre|]. intros s. apply Hok. }
      unfold panoptic_body, dict_get. by rewrite Hnone. }
  destruct (decide ((nd3_shape rgb).2 < 3)) as [HC|HC].
  - rewrite (rgb_to_id_IndexError rgb HC). simpl. split.
    + intros [= <-]. right. right. exists ann.
      split; [by eexists|]. split; [done|]. right. right. exists rgb.
      split; [done|]. by left.
    + intros [[[=] _]|[(_ & [=] & _)|(ann' & _ & [= <-] & Hcases)]].
      cbv zeta in Hcases. rewrite Hfile in Hcases.
      destruct Hcases
        as [[[=] _]|[[=]|(rgb' & [= <-] & [[_ ->]|[? _]])]]; [done|lia].
  - destruct (nd3_shape rgb) as [[H W] C] eqn:Hshape. simpl in HC.
    rewrite (rgb_to_id_rows rgb H W C Hshape) by lia. simpl.
    set (seg_id_map := NdArray (H, W) _).
    specialize (Hloop seg_id_map).
    destruct (Panoptic.panoptic_loop _ _ _ _) as [recs|e'] eqn:Hres; simpl.
    + split; [done|].
      intros [[[=] _]|[(_ & [=] & _)|(ann' & _ & [= <-] & Hcases)]].
      cbv zeta in Hcases. rewrite Hfile in Hcases.
      destruct Hcases
        as [[[=] _]|[[=]|(rgb' & [= <-] & [[Hlt _]|[_ Hsegs]])]].
      * rewrite Hshape in Hlt. simpl in Hlt. lia.
      * apply Hloop in Hsegs. done.
    + split.
      * intros [= ->]. right. right. exists ann.
        split; [by eexists|]. split; [done|]. right. right. exists rgb.
        split; [done|]. right.
        split; [rewrite Hshape; simpl; lia|]. by apply Hloop.
      * intros [[[=] _]|[(_ & [=] & _)|(ann' & _ & [= <-] & Hcases)]].
        cbv zeta in Hcases. rewrite Hfile in Hcases.
        destruct Hcases
          as [[[=] _]|[[=]|(rgb' & [= <-] & [[Hlt _]|[_ Hsegs]])]].
        -- rewrite Hshape in Hlt. simpl in Hlt. lia.
        -- apply Hloop in Hsegs. congruence.
Qed.

(** ** The builders and the assemblers together *)

Lemma category_mapping_of_mapped (cats : list category) (k : Z) :
  k ∈ cat_id <$> cats → is_Some (category_mapping_of cats !! k).
Proof.
  intros Hin. apply not_eq_None_Some.
  rewrite category_mapping_of_None. tauto.
Qed.

(** X16. The panoptic pipeline on a consistent container: with the
    indexes of [index_panoptic_structures] and the mapping of
    [build_category_id_mapping] built from the same container, a request
    for an image of the container that has one annotation entry (ids of
    the annotation entries pairwise distinct), whose PNG decodes and
    whose segments all carry a category of the container, never fails.  It
    returns one record per segment with a class index below the number of
    categories; when the category ids are unique, the class index of a
    segment is the number of categories with a smaller id. *)
Theorem panoptic_pipeline_on_consistent_container
    (pd : Panoptic.panoptic_data) (fs : Panoptic.disk) (dir : string)
    (img : image_info) (ann : Panoptic.pan_annotation)
    (rgb : ndarray3) (seg_id_map : ndarray)
    (Hids : NoDup (Panoptic.pan_image_id <$> Panoptic.annotations pd))
    (Himg : img ∈ Panoptic.images pd)
    (Hann : ann ∈ Panoptic.annotations pd)
    (Hsame : Panoptic.pan_image_id ann = img_id img)
    (Hfile : fs (Panoptic.os_path_join dir (Panoptic.pan_file_name ann))
             = Some (Ok rgb))
    (Hdecode : Panoptic.rgb_to_id rgb = Ok seg_id_map)
    (Hcats : Forall (λ seg, Panoptic.seg_category_id seg
                            ∈ cat_id <$> Panoptic.categories pd)
                    (Panoptic.segments_info ann)) :
  ∃ recs,
    Panoptic.get_panoptic_gt_for_image fs (img_id img)
      (Panoptic.index_panoptic_structures pd).1
      (Panoptic.index_panoptic_structures pd).2
      (Panoptic.build_category_id_mapping pd) dir
    = Ok (recs, nd_shape seg_id_map) ∧
    length recs = length (Panoptic.segments_info ann) ∧
    (∀ rec, rec ∈ recs → class_id rec < length (Panoptic.categories pd)) ∧
    (NoDup (cat_id <$> Panoptic.categories pd) →
     ∀ i seg rec,
       Panoptic.segments_info ann !! i = Some seg → recs !! i = Some rec →
       class_id rec
       = length (filter (λ c, cat_id c < Panoptic.seg_category_id seg)%Z
                   (Panoptic.categories pd))).
Proof.
  destruct (index_panoptic_structures_lookup pd (img_id img)) as [Hii _].
  destruct ((Panoptic.index_panoptic_structures pd).1 !! img_id img)
    as [img_info|] eqn:Hlook.
  2:{ destruct (proj1 Hii eq_refl). by apply list_elem_of_fmap_2. }
  assert (Hlook_ann :
    (Panoptic.index_panoptic_structures pd).2 !! img_id img = Some ann).
  { rewrite <-Hsame. unfold Panoptic.index_panoptic_structures. simpl.
    by apply (dict_comprehension_lookup_NoDup Panoptic.pan_image_id id). }
  rewrite panoptic_build_category_id_mapping_eq.
  rewrite (get_panoptic_gt_for_image_decoded _ _ _ _ _ _ _ _ _ _
             Hlook Hlook_ann Hfile Hdecode).
  destruct (panoptic_loop_total (Panoptic.segments_info ann) seg_id_map
              (category_mapping_of (Panoptic.categories pd))) as [recs Hrecs].
  { eapply Forall_impl; [exact Hcats|].
    intros seg. apply category_mapping_of_mapped. }
  rewrite Hrecs. simpl. exists recs. split; [done|].
  apply panoptic_loop_records in Hrecs.
  split; [symmetry; by eapply Forall2_length|]. split.
  - intros rec Hin. apply list_elem_of_lookup in Hin as [i Hi].
    destruct (Forall2_lookup_r _ _ _ _ _ Hrecs Hi)
      as (seg & _ & cid & Hcid & ->).
    simpl. by eapply category_mapping_of_bound.
  - intros Hnd i seg rec Hseg Hrec.
    destruct (Forall2_lookup_l _ _ _ _ _ Hrecs Hseg)
      as (rec' & Hrec' & cid & Hcid & ->).
    assert (rec = panoptic_record seg_id_map cid seg) as -> by congruence.
    simpl. rewrite Forall_forall in Hcats.
    assert (Hin : seg ∈ Panoptic.segments_info ann)
      by by eapply list_elem_of_lookup_2.
    destruct (proj1 (list_elem_of_fmap _ _ _) (Hcats seg Hin))
      as (c & Hc & Hcin).
    rewrite Hc, (category_mapping_of_rank _ c Hnd Hcin) in Hcid.
    rewrite Hc. by injection Hcid.
Qed.

(** X17. The detection and instance pipelines on a consistent container:
    with the mapping built by [build_category_id_mapping] from the same
    [COCO] object, for a known image whose annotations all carry a
    category of the container, no category lookup fails.  The instance
    assembler returns when the masks of the annotations decode, and an
    exception it raises is one that the decoder raised; the detection
    assembler never raises [KeyError] and returns whenever the boxes can
    be rasterised, with one record per annotation; all class indexes are
    below the number of categories. *)
Theorem coco_pipeline_on_consistent_container (mem : memory)
    (coco : coco_api) (image_id : Z) (img_info : image_info)
    (Himg : coco_imgs coco !! image_id = Some img_info)
    (Hcats : Forall (λ ann, ann_category_id ann ∈ cat_id <$> coco_cats coco)
                    (coco_img_anns coco image_id)) :
  (Forall (λ ann, is_ok (coco_annToMask coco ann))
          (coco_img_anns coco image_id) →
   ∃ out,
     Segmentation.get_instance_gt_for_image coco image_id
       (Segmentation.build_category_id_mapping coco) = Ok out ∧
     ∀ rec, rec ∈ out → class_id rec < length (coco_cats coco)) ∧
  (∀ e, Segmentation.get_instance_gt_for_image coco image_id
          (Segmentation.build_category_id_mapping coco) = Raise e →
        ∃ ann, ann ∈ coco_img_anns coco image_id ∧
               coco_annToMask coco ann = Raise e) ∧
  (∀ k, Detection.get_detection_gt_for_image mem coco image_id
          (Detection.build_category_id_mapping coco) ≠ Raise (KeyError k)) ∧
  (Forall (λ ann, is_ok (Detection.bbox_to_mask mem (ann_bbox ann)
                           (img_height img_info) (img_width img_info)))
          (coco_img_anns coco image_id) →
   ∃ recs,
     Detection.get_detection_gt_for_image mem coco image_id
       (Detection.build_category_id_mapping coco) = Ok recs ∧
     length recs = length (coco_img_anns coco image_id) ∧
     ∀ rec, rec ∈ recs → class_id rec < length (coco_cats coco)).
Proof.
  rewrite detection_build_category_id_mapping_eq,
    segmentation_build_category_id_mapping_eq.
  set (m := category_mapping_of (coco_cats coco)).
  assert (Hmapped : Forall (λ ann, is_Some (m !! ann_category_id ann))
                      (coco_img_anns coco image_id)).
  { eapply Forall_impl; [exact Hcats|].
    intros ann. apply category_mapping_of_mapped. }
  split; [|split; [|split]].
  - intros Hmasks. rewrite (get_instance_gt_for_image_found _ _ _ _ Himg).
    destruct (for_each_total
                (instance_body coco (img_height img_info) (img_width img_info) m)
                (coco_img_anns coco image_id) []) as [out Hout].
    { apply Forall_forall. intros ann Hin.
      rewrite Forall_forall in Hmapped, Hmasks.
      apply instance_body_total; [by apply Hmapped | by apply Hmasks]. }
    exists out. split; [done|]. intros rec Hin.
    apply (for_each_Ok_filter _
             (shape_matches coco (img_height img_info) (img_width img_info))
             (instance_record_of coco m)
             (instance_body_Ok coco _ _ m)) in Hout.
    apply list_elem_of_lookup in Hin as [i Hi].
    destruct (Forall2_lookup_r _ _ _ _ _ Hout Hi) as (ann & _ & _ & Hcid & _).
    by eapply category_mapping_of_bound.
  - intros e. rewrite (get_instance_gt_for_image_found _ _ _ _ Himg).
    intros (pre & ann & post & Hsplit & _ & Hfail)%for_each_Raise_iff.
    assert (Hin : ann ∈ coco_img_anns coco image_id).
    { rewrite Hsplit. apply elem_of_app. right. left. }
    rewrite Forall_forall in Hmapped. specialize (Hmapped ann Hin).
    apply instance_body_Raise in Hfail as [[Hnone _]|[_ Hmask]].
    + rewrite Hnone in Hmapped. by destruct Hmapped.
    + by exists ann.
  - intros k. rewrite (get_detection_gt_for_image_found _ _ _ _ Himg).
    intros (pre & ann & post & Hsplit & _ & Hfail)%for_each_Raise_iff.
    assert (Hin : ann ∈ coco_img_anns coco image_id).
    { rewrite Hsplit. apply elem_of_app. right. left. }
    rewrite Forall_forall in Hmapped. specialize (Hmapped ann Hin).
    apply detection_body_Raise in Hfail as [[Hnone _]|Hbox].
    + rewrite Hnone in Hmapped. by destruct Hmapped.
    + by destruct (bbox_to_mask_Raise _ _ _ _ Hbox) as [?|[?|?]].
  - intros Hboxes.
    rewrite (get_detection_gt_for_image_found _ _ _ _ Himg).
    destruct (for_each_total
                (detection_body mem (img_height img_info) (img_width img_info) m)
                (coco_img_anns coco image_id) []) as [recs Hcall].
    { apply Forall_forall. intros ann Hin. apply detection_body_ok_iff.
      rewrite Forall_forall in Hmapped, Hboxes. auto. }
    exists recs. split; [done|].
    apply (for_each_Ok_Forall2 _ _ (detection_body_Ok_iff _ _ _)) in Hcall.
    split; [symmetry; by eapply Forall2_length|].
    intros rec Hin.
    apply list_elem_of_lookup in Hin as [i Hi].
    destruct (Forall2_lookup_r _ _ _ _ _ Hcall Hi) as (ann & _ & _ & Hcid & _).
    by eapply category_mapping_of_bound.
Qed.

(** ** The [main] functions *)





(** ** Paths *)

Lemma list_ascii_of_string_app (a b : string) :
  String.list_ascii_of_string (a +:+ b)
  = String.list_ascii_of_string a ++ String.list_ascii_of_string b.
Proof. induction a as [|c a IH]; simpl; [done|]. by rewrite IH. Qed.

Lemma string_of_list_ascii_app (l1 l2 : list ascii) :
  String.string_of_list_ascii (l1 ++ l2)
  = String.string_of_list_ascii l1 +:+ String.string_of_list_ascii l2.
Proof. induction l1 as [|c l1 IH]; simpl; [done|]. by rewrite IH. Qed.

Lemma string_app_assoc (a b c : string) : (a +:+ b) +:+ c = a +:+ (b +:+ c).
Proof.
  rewrite <-(String.string_of_list_ascii_of_string ((a +:+ b) +:+ c)),
    <-(String.string_of_list_ascii_of_string (a +:+ (b +:+ c))).
  by rewrite !list_ascii_of_string_app, app_assoc.
Qed.

Lemma ends_with_slash_last (s : string) :
  Panoptic.ends_with_slash s
  = from_option is_slash false (last (String.list_ascii_of_string s)).
Proof.
  induction s as [|c s IH]; [done|].
  destruct s as [|c' s]; [done|].
  change (Panoptic.ends_with_slash (String c (String c' s)))
    with (Panoptic.ends_with_slash (String c' s)).
  rewrite IH. done.
Qed.

Lemma ends_with_slash_app (a b : string) :
  b ≠ EmptyString →
  Panoptic.ends_with_slash (a +:+ b) = Panoptic.ends_with_slash b.
Proof.
  intros Hb. rewrite !ends_with_slash_last, list_ascii_of_string_app, last_app.
  destruct b as [|c b]; [done|].
  destruct (last (String.list_ascii_of_string (String c b))) eqn:Hlast; [done|].
  by apply last_None in Hlast.
Qed.

Lemma drop_while_app_all {A} (p : A → bool) (l1 l2 : list A) :
  forallb p l1 = true → drop_while p (l1 ++ l2) = drop_while p l2.
Proof.
  induction l1 as [|x l1 IH]; simpl; [done|].
  destruct (p x); simpl; [done|discriminate].
Qed.

Lemma has_slash_rev (s : string) :
  has_slash s = false →
  forallb (λ c, negb (is_slash c)) (rev (String.list_ascii_of_string s)) = true.
Proof.
  unfold has_slash. intros Hs. apply forallb_forall. intros c Hc.
  apply in_rev in Hc.
  destruct (is_slash c) eqn:Hslash; [|done].
  assert (existsb is_slash (String.list_ascii_of_string s) = true)
    by (apply existsb_exists; eauto).
  congruence.
Qed.

(** The directory of [d/f] is [d], or the root when [d] is empty. *)
Lemma os_path_dirname_child (d f : string) :
  Panoptic.ends_with_slash d = false → has_slash f = false →
  os_path_dirname (d +:+ "/" +:+ f)
  = if bool_decide (d = EmptyString) then "/"%string else d.
Proof.
  intros Hd Hf. unfold os_path_dirname.
  rewrite !list_ascii_of_string_app, !rev_app_distr. simpl.
  rewrite <-app_assoc. simpl.
  rewrite (drop_while_app_all _ _ _ (has_slash_rev f Hf)). simpl.
  rewrite ends_with_slash_last in Hd.
  destruct (String.list_ascii_of_string d) as [|c l _] eqn:Hchars
    using rev_ind.
  - assert (d = EmptyString) as ->.
    { by rewrite <-(String.string_of_list_ascii_of_string d), Hchars. }
    done.
  - rewrite last_snoc in Hd. simpl in Hd.
    rewrite rev_app_distr. simpl. rewrite Hd.
    rewrite bool_decide_eq_false_2.
    2:{ intros ->. by destruct l. }
    rewrite <-(String.string_of_list_ascii_of_string d), Hchars.
    f_equal. simpl. by rewrite rev_involutive.
Qed.

Lemma has_slash_ends_with_slash (s : string) :
  has_slash s = false → Panoptic.ends_with_slash s = false.
Proof.
  intros Hs. rewrite ends_with_slash_last.
  destruct (last (String.list_ascii_of_string s)) as [c|] eqn:Hlast; [|done].
  simpl. destruct (is_slash c) eqn:Hc; [|done].
  apply last_Some in Hlast as [l Hl].
  unfold has_slash in Hs. rewrite Hl, existsb_app in Hs. simpl in Hs.
  rewrite Hc in Hs. by destruct (existsb is_slash l).
Qed.

Lemma string_app_nonempty (a b : string) :
  b ≠ EmptyString → a +:+ b ≠ EmptyString.
Proof.
  intros Hb Heq. apply Hb.
  apply (f_equal String.list_ascii_of_string) in Heq.
  rewrite list_ascii_of_string_app in Heq. simpl in Heq.
  apply app_eq_nil in Heq as [_ Heq].
  by rewrite <-(String.string_of_list_ascii_of_string b), Heq.
Qed.

Lemma os_path_join_plain (d f : string) :
  String.prefix "/" f = false → d ≠ EmptyString →
  Panoptic.ends_with_slash d = false →
  Panoptic.os_path_join d f = d +:+ "/" +:+ f.
Proof.
  intros Hf Hd Hslash. unfold Panoptic.os_path_join.
  rewrite Hf, Hslash, bool_decide_eq_false_2 by done. done.
Qed.

Lemma data_file_child (root pkg file name : string) :
  Panoptic.ends_with_slash root = false →
  pkg ≠ EmptyString → has_slash pkg = false → has_slash file = false →
  String.prefix "/" name = false →
  data_file (root +:+ "/" +:+ pkg +:+ "/" +:+ file) name
  = root +:+ "/data/" +:+ name.
Proof.
  intros Hroot Hpkg Hpkg_name Hfile Hname. unfold data_file.
  replace (root +:+ "/" +:+ pkg +:+ "/" +:+ file)
    with ((root +:+ "/" +:+ pkg) +:+ "/" +:+ file)
    by (by rewrite !string_app_assoc).
  rewrite os_path_dirname_child; [|
    rewrite !ends_with_slash_app by (try apply string_app_nonempty; done);
    by apply has_slash_ends_with_slash | done].
  rewrite bool_decide_eq_false_2
    by (do 2 apply string_app_nonempty; done).
  rewrite os_path_dirname_child by (done || by apply has_slash_ends_with_slash).
  case_bool_decide as Hempty.
  - subst root.
    change (Panoptic.os_path_join "/" "data") with "/data"%string.
    by rewrite os_path_join_plain.
  - rewrite (os_path_join_plain root) by done.
    rewrite os_path_join_plain; [by rewrite !string_app_assoc|done| |].
    + by do 2 apply string_app_nonempty.
    + by rewrite !ends_with_slash_app by (try apply string_app_nonempty; done).
Qed.

(** ** The runs of [main] *)














(** X22. For a script at [root/pkg/file] the data files are
    [root/data/<name>] and the mask of an annotation is
    [root/data/panoptic_val2017/<file_name>]; the exceptions of the two
    [main] functions for missing data name these paths.  Here [root] does
    not end in a slash (it may be empty, for a package directly under the
    file-system root), and [pkg] is a non-empty name. *)
Theorem data_file_location (root pkg file : string)
    (Hroot : Panoptic.ends_with_slash root = false)
    (Hpkg : pkg ≠ EmptyString)
    (Hpkg_name : has_slash pkg = false)
    (Hfile : has_slash file = false) :
  let script := root +:+ "/" +:+ pkg +:+ "/" +:+ file in
  (∀ name, String.prefix "/" name = false →
     data_file script name = root +:+ "/data/" +:+ name) ∧
  (∀ file_name, String.prefix "/" file_name = false →
     Panoptic.os_path_join (data_file script "panoptic_val2017") file_name
     = root +:+ "/data/panoptic_val2017/" +:+ file_name) ∧
  (∀ e, DetectionScript.script_path e = script →
     DetectionScript.path_exists e
       (root +:+ "/data/instances_val2017.json") = false →
     DetectionScript.main e
     = ([], Raise (FileNotFoundError
                     (root +:+ "/data/instances_val2017.json")))) ∧
  (∀ e, PanopticScript.script_path e = script →
     PanopticScript.path_exists e
       (root +:+ "/data/panoptic_val2017.json") = true →
     PanopticScript.path_isdir e (root +:+ "/data/panoptic_val2017") = false →
     PanopticScript.main e
     = ([], Raise (FileNotFoundError (root +:+ "/data/panoptic_val2017")))).
Proof.
  intros script.
  assert (Hdata : ∀ name, String.prefix "/" name = false →
            data_file script name = root +:+ "/data/" +:+ name)
    by (intros name; by apply data_file_child).
  split; [exact Hdata|]. split; [|split].
  - intros file_name Hname. rewrite Hdata by done.
    rewrite os_path_join_plain; [by rewrite !string_app_assoc|done| |].
    + by apply string_app_nonempty.
    + by rewrite ends_with_slash_app.
  - intros e Hscript Hmissing. unfold DetectionScript.main.
    change (Panoptic.os_path_join _ "instances_val2017.json")
      with (data_file (DetectionScript.script_path e)
              "instances_val2017.json").
    cbv zeta. rewrite Hscript.
    replace (data_file script "instances_val2017.json")
      with (root +:+ "/data/instances_val2017.json")
      by (symmetry; by apply (Hdata "instances_val2017.json")).
    by rewrite Hmissing.
  - intros e Hscript Hexists Hmissing. unfold PanopticScript.main.
    change (Panoptic.os_path_join _ "panoptic_val2017.json")
      with (data_file (PanopticScript.script_path e) "panoptic_val2017.json").
    change (Panoptic.os_path_join _ "panoptic_val2017")
      with (data_file (PanopticScript.script_path e) "panoptic_val2017").
    cbv zeta. rewrite Hscript.
    replace (data_file script "panoptic_val2017.json")
      with (root +:+ "/data/panoptic_val2017.json")
      by (symmetry; by apply (Hdata "panoptic_val2017.json")).
    replace (data_file script "panoptic_val2017")
      with (root +:+ "/data/panoptic_val2017")
      by (symmetry; by apply (Hdata "panoptic_val2017")).
    by rewrite Hexists, Hmissing.
Qed.

(** ** Instances of the further properties *)

Lemma rgb_to_id_first_three_channels_witness :
  is_ok (Panoptic.rgb_to_id scenario_rgb).
Proof.
  destruct (rgb_to_id_first_three_channels scenario_rgb 4 4 3 eq_refl)
    as [Hreturns _].
  apply Hreturns. lia.
Defined.

Lemma rgb_to_id_injective_witness :
  ∃ ids, Panoptic.rgb_to_id scenario_rgb = Ok ids ∧
         ∀ px v, nd3_get scenario_rgb 2 1 = Some px →
                 nd_get ids 2 1 = Some v →
                 px = [v mod 256; (v / 256) mod 256; v / 256 ^ 2]%Z.
Proof.
  assert (Hwf : nd3_wf scenario_rgb).
  { split; [reflexivity|]. repeat constructor. }
  assert (Hrange : Forall (Forall (Forall (λ v, 0 ≤ v ≤ 255)%Z))
                     (nd3_rows scenario_rgb)).
  { apply (bool_decide_unpack _). vm_compute. exact I. }
  assert (Hdecode : ∃ ids, Panoptic.rgb_to_id scenario_rgb = Ok ids)
    by (eexists; vm_compute; reflexivity).
  destruct Hdecode as [ids Hids]. exists ids. split; [exact Hids|].
  destruct (rgb_to_id_injective scenario_rgb 4 4 ids eq_refl Hwf Hrange Hids)
    as [Hcolour _].
  exact (Hcolour 2 1).
Defined.

Lemma index_panoptic_structures_entries_witness :
  (Panoptic.index_panoptic_structures scenario_data).1 !! 42%Z
  = Some (ImageInfo 42 4 4).
Proof.
  destruct (index_panoptic_structures_entries scenario_data)
    as (_ & _ & _ & _ & Himgs & _).
  apply (Himgs ltac:(apply (bool_decide_unpack _); vm_compute; exact I)
           (ImageInfo 42 4 4)).
  left.
Defined.

Lemma index_panoptic_structures_last_wins_witness :
  (Panoptic.index_panoptic_structures repeated_annotation_data).2 !! 7%Z
  = Some (Panoptic.PanAnnotation 7 "second.png" []).
Proof.
  destruct (index_panoptic_structures_last_wins repeated_annotation_data)
    as [Hanns _].
  destruct (Hanns [Panoptic.PanAnnotation 7 "first.png" []]
              (Panoptic.PanAnnotation 7 "second.png" []) [] eq_refl)
    as [Hlast _].
  - apply not_elem_of_nil.
  - exact Hlast.
Defined.

Lemma build_category_id_mapping_monotone_witness :
  Panoptic.build_category_id_mapping scenario_data !! 5%Z = Some 1 ∧
  Panoptic.build_category_id_mapping scenario_data !! 18%Z = Some 2 ∧
  ((5 < 18)%Z ↔ 1 < 2).
Proof.
  assert (H5 : Panoptic.build_category_id_mapping scenario_data !! 5%Z
               = Some 1) by (vm_compute; reflexivity).
  assert (H18 : Panoptic.build_category_id_mapping scenario_data !! 18%Z
                = Some 2) by (vm_compute; reflexivity).
  split; [exact H5|]. split; [exact H18|].
  exact (build_category_id_mapping_monotone scenario_data 5 18 1 2 H5 H18).
Defined.

Lemma build_category_id_mapping_size_witness :
  size (Panoptic.build_category_id_mapping scenario_data) = 3.
Proof.
  destruct (build_category_id_mapping_size scenario_data) as (_ & _ & Hsize).
  apply Hsize. apply (bool_decide_unpack _). vm_compute. exact I.
Defined.

Lemma bbox_to_mask_outcome_witness :
  Detection.bbox_to_mask sixteen_gib
    (float_of_dyadic 0 0, float_of_dyadic 0 0,
     float_of_dyadic 1 0, float_of_dyadic 1 0) (2 ^ 20) (2 ^ 20)
  = Raise MemoryError.
Proof.
  destruct (bbox_to_mask_outcome sixteen_gib
              (float_of_dyadic 0 0) (float_of_dyadic 0 0)
              (float_of_dyadic 1 0) (float_of_dyadic 1 0) (2 ^ 20) (2 ^ 20))
    as (_ & _ & Hmemory & _).
  apply Hmemory; [unfold intp_max; lia.. | reflexivity].
Defined.

Lemma bbox_to_mask_clipped_count_witness :
  ∃ mask,
    Detection.bbox_to_mask sixteen_gib
      (float_of_dyadic (-1) 0, float_of_dyadic (-1) 0,
       float_of_dyadic 20 0, float_of_dyadic 20 0) 8 8 = Ok mask ∧
    Z.of_nat (count_ones mask) = 64%Z.
Proof.
  destruct (bbox_to_mask_clipped_count sixteen_gib
              (float_of_dyadic (-1) 0) (float_of_dyadic (-1) 0)
              (float_of_dyadic 20 0) (float_of_dyadic 20 0)
              8 8 (-1) (-1) 19 19)
    as (mask & Hmask & _ & _ & Hfull);
    [lia | lia | allocatable_by_evaluation
     | reflexivity | reflexivity | reflexivity | reflexivity |].
  destruct Hfull as [Hcount _]; [lia | lia | lia | lia |].
  exists mask. split; [exact Hmask | exact Hcount].
Defined.

Lemma get_detection_gt_for_image_records_witness :
  ∃ recs,
    Detection.get_detection_gt_for_image sixteen_gib two_annotations_coco 1
      (Detection.build_category_id_mapping two_annotations_coco) = Ok recs ∧
    length recs = length two_annotations.
Proof.
  assert (Hcall : ∃ recs,
            Detection.get_detection_gt_for_image sixteen_gib
              two_annotations_coco 1
              (Detection.build_category_id_mapping two_annotations_coco)
            = Ok recs) by (eexists; vm_compute; reflexivity).
  destruct Hcall as [recs Hcall]. exists recs. split; [exact Hcall|].
  destruct (get_detection_gt_for_image_records sixteen_gib
              two_annotations_coco 1
              (Detection.build_category_id_mapping two_annotations_coco))
    as (_ & _ & Hlen & _).
  exact (Hlen recs Hcall).
Defined.

Lemma get_detection_gt_for_image_first_failure_witness :
  Detection.get_detection_gt_for_image sixteen_gib two_annotations_coco 1
    (category_mapping_of [Category 5 "airplane"])
  = Raise (KeyError 18).
Proof.
  apply (get_detection_gt_for_image_first_failure sixteen_gib
           two_annotations_coco 1
           (category_mapping_of [Category 5 "airplane"]) (KeyError 18)).
  right.
  exists (ImageInfo 1 2 2),
    [Annotation 10 5 (float_of_dyadic 0 0, float_of_dyadic 0 0,
                      float_of_dyadic 1 0, float_of_dyadic 1 0)
       (RLE [0; 4]%Z (2%Z, 2%Z))],
    (Annotation 11 18 (float_of_dyadic 20 0, float_of_dyadic 0 0,
                       float_of_dyadic 1 0, float_of_dyadic 1 0)
       (RLE [1%Z] (1%Z, 1%Z))), [].
  split; [vm_compute; reflexivity|]. split; [reflexivity|]. split.
  - repeat constructor; eexists; vm_compute; reflexivity.
  - left. split; [vm_compute; reflexivity | reflexivity].
Defined.

Lemma get_instance_gt_for_image_first_failure_witness :
  Segmentation.get_instance_gt_for_image two_annotations_coco 1
    (category_mapping_of [Category 5 "airplane"])
  = Raise (KeyError 18).
Proof.
  apply (get_instance_gt_for_image_first_failure two_annotations_coco 1
           (category_mapping_of [Category 5 "airplane"]) (KeyError 18)).
  right.
  exists (ImageInfo 1 2 2),
    [Annotation 10 5 (float_of_dyadic 0 0, float_of_dyadic 0 0,
                      float_of_dyadic 1 0, float_of_dyadic 1 0)
       (RLE [0; 4]%Z (2%Z, 2%Z))],
    (Annotation 11 18 (float_of_dyadic 20 0, float_of_dyadic 0 0,
                       float_of_dyadic 1 0, float_of_dyadic 1 0)
       (RLE [1%Z] (1%Z, 1%Z))), [].
  split; [vm_compute; reflexivity|]. split; [reflexivity|]. split.
  - repeat constructor; eexists; vm_compute; reflexivity.
  - left. split; [vm_compute; reflexivity | reflexivity].
Defined.

Lemma get_instance_gt_for_image_ids_witness :
  ∃ out,
    Segmentation.get_instance_gt_for_image two_annotations_coco 1
      (Segmentation.build_category_id_mapping two_annotations_coco) = Ok out ∧
    instance_id <$> out = [Some 10%Z].
Proof.
  assert (Hcall : ∃ out,
            Segmentation.get_instance_gt_for_image two_annotations_coco 1
              (Segmentation.build_category_id_mapping two_annotations_coco)
            = Ok out) by (eexists; vm_compute; reflexivity).
  destruct Hcall as [out Hcall]. exists out. split; [exact Hcall|].
  destruct (get_instance_gt_for_image_ids _ _ _ _ Hcall)
    as (img_info & Himg & Hids & _).
  assert (Hinfo : img_info = ImageInfo 1 2 2).
  { vm_compute in Himg. by injection Himg as <-. }
  rewrite Hids, Hinfo. vm_compute. reflexivity.
Defined.

Lemma get_panoptic_gt_for_image_coverage_witness :
  ∃ recs,
    scenario_result = Ok (recs, (4, 4)) ∧
    ∃ rec, rec ∈ recs ∧ nd_get (mask rec) 0 0 = Some 1%Z.
Proof.
  assert (Hcall : ∃ recs,
            Panoptic.get_panoptic_gt_for_image scenario_disk 42
              (Panoptic.index_panoptic_structures scenario_data).1
              (Panoptic.index_panoptic_structures scenario_data).2
              (Panoptic.build_category_id_mapping scenario_data)
              "panoptic_val2017" = Ok (recs, (4, 4)))
    by (eexists; vm_compute; reflexivity).
  destruct Hcall as [recs Hcall]. exists recs. split; [exact Hcall|].
  destruct (get_panoptic_gt_for_image_coverage _ _ _ _ _ _ _ _ Hcall)
    as (ann & rgb & seg_id_map & Hann & Hfile & Hdecode & _ & _ & _
        & Hcover & _).
  vm_compute in Hann. injection Hann as <-.
  vm_compute in Hfile. injection Hfile as <-.
  vm_compute in Hdecode. injection Hdecode as <-.
  apply (Hcover 0 0 1000%Z eq_refl).
  apply (bool_decide_unpack _). vm_compute. exact I.
Defined.

Lemma panoptic_mask_of_colour_witness :
  ∃ seg_id_map,
    Panoptic.rgb_to_id scenario_rgb = Ok seg_id_map ∧
    nd_get (nd_eq_scalar seg_id_map 1000) 0 0 = Some 1%Z ∧
    nd_get (nd_eq_scalar seg_id_map 1000) 3 0 = Some 0%Z.
Proof.
  assert (Hwf : nd3_wf scenario_rgb).
  { split; [reflexivity|]. repeat constructor. }
  assert (Hrange : Forall (Forall (Forall (λ v, 0 ≤ v ≤ 255)%Z))
                     (nd3_rows scenario_rgb)).
  { apply (bool_decide_unpack _). vm_compute. exact I. }
  assert (Hdecode : ∃ m, Panoptic.rgb_to_id scenario_rgb = Ok m)
    by (eexists; vm_compute; reflexivity).
  destruct Hdecode as [m Hm]. exists m. split; [exact Hm|].
  destruct (panoptic_mask_of_colour scenario_rgb 4 4 m 1000 eq_refl
              Hwf Hrange Hm) as [Hcell _].
  split.
  - exact (Hcell 0 0 232%Z 3%Z 0%Z eq_refl).
  - exact (Hcell 3 0 208%Z 7%Z 0%Z eq_refl).
Defined.

Lemma get_panoptic_gt_for_image_failures_witness :
  Panoptic.get_panoptic_gt_for_image unreadable_disk 42
    (Panoptic.index_panoptic_structures scenario_data).1
    (Panoptic.index_panoptic_structures scenario_data).2
    (Panoptic.build_category_id_mapping scenario_data) "panoptic_val2017"
  = Raise (OtherError "UnidentifiedImageError").
Proof.
  apply (get_panoptic_gt_for_image_failures unreadable_disk 42
           (Panoptic.index_panoptic_structures scenario_data).1
           (Panoptic.index_panoptic_structures scenario_data).2
           (Panoptic.build_category_id_mapping scenario_data)
           "panoptic_val2017" (OtherError "UnidentifiedImageError")).
  right. right.
  exists (Panoptic.PanAnnotation 42 "000000000042.png"
            [Panoptic.SegmentInfo 1000 5; Panoptic.SegmentInfo 2000 18]).
  split; [eexists; vm_compute; reflexivity|].
  split; [vm_compute; reflexivity|].
  right. left. reflexivity.
Defined.

Lemma panoptic_pipeline_on_consistent_container_witness :
  ∃ recs,
    scenario_result = Ok (recs, (4, 4)) ∧
    length recs = 2 ∧ ∀ rec, rec ∈ recs → class_id rec < 3.
Proof.
  assert (Hdecode : ∃ m, Panoptic.rgb_to_id scenario_rgb = Ok m ∧
                         nd_shape m = (4, 4))
    by (eexists; split; vm_compute; reflexivity).
  destruct Hdecode as (m & Hdecode & Hshape).
  destruct (panoptic_pipeline_on_consistent_container scenario_data
              scenario_disk "panoptic_val2017" (ImageInfo 42 4 4)
              (Panoptic.PanAnnotation 42 "000000000042.png"
                 [Panoptic.SegmentInfo 1000 5; Panoptic.SegmentInfo 2000 18])
              scenario_rgb m)
    as (recs & Hcall & Hlen & Hclass & _).
  - apply (bool_decide_unpack _). vm_compute. exact I.
  - left.
  - left.
  - reflexivity.
  - reflexivity.
  - exact Hdecode.
  - apply (bool_decide_unpack _). vm_compute. exact I.
  - exists recs. rewrite Hshape in Hcall.
    split; [exact Hcall|]. split; [exact Hlen | exact Hclass].
Defined.

Lemma coco_pipeline_on_consistent_container_witness :
  ∃ recs,
    Detection.get_detection_gt_for_image sixteen_gib two_annotations_coco 1
      (Detection.build_category_id_mapping two_annotations_coco) = Ok recs ∧
    length recs = 2.
Proof.
  destruct (coco_pipeline_on_consistent_container sixteen_gib
              two_annotations_coco 1 (ImageInfo 1 2 2))
    as (_ & _ & _ & Hdet).
  - vm_compute. reflexivity.
  - apply (bool_decide_unpack _). vm_compute. exact I.
  - destruct Hdet as (recs & Hcall & Hlen & _).
    + repeat constructor; eexists; vm_compute; reflexivity.
    + exists recs. split; [exact Hcall | exact Hlen].
Defined.





Lemma data_file_location_witness :
  data_file "/proj/detection/build_detection_gt.py" "instances_val2017.json"
  = "/proj/data/instances_val2017.json"%string.
Proof.
  destruct (data_file_location "/proj" "detection" "build_detection_gt.py")
    as [Hdata _]; [reflexivity | discriminate | reflexivity | reflexivity |].
  exact (Hdata "instances_val2017.json" eq_refl).
Defined.
